(** * restfulAPI_SWENG861: validation and reconciliation of game records

    A shallow embedding of [app.js]: the deal and game validators, the
    no-op detector [checkIfSameGame], and the routes that create, update,
    delete and fetch game records against a document collection.

    The first part models the pieces of the JavaScript runtime the
    program calls ([parseFloat], [isFinite], [JSON.stringify], strict
    equality, [Set]); the second part is the program itself, function by
    function; the theorems come last. *)

From Stdlib Require Import String Ascii List ZArith NArith Bool Lia.
From Stdlib Require Import Numbers.DecimalString Numbers.DecimalN.
From Stdlib Require Import Sorting.Permutation.
Import ListNotations.

Open Scope string_scope.
Open Scope bool_scope.

(* ================================================================== *)
(** * Characters and strings *)
(* ================================================================== *)

(** A JavaScript string is a sequence of UTF-16 code units.  The model
    keeps the code units below 256, one [ascii] each. *)

Module Chars.

Definition code (c : ascii) : N := N_of_ascii c.

Definition is_digit (c : ascii) : bool :=
  ((48 <=? code c) && (code c <=? 57))%N.

Definition digit_val (c : ascii) : N := (code c - 48)%N.

(** [WhiteSpace] and [LineTerminator] of the language grammar, as far as
    they lie below 256: TAB, LF, VT, FF, CR, SP and NBSP. *)
Definition is_ws (c : ascii) : bool :=
  existsb (N.eqb (code c)) [9; 10; 11; 12; 13; 32; 160]%N.

(** Digit of a binary, octal or hexadecimal integer literal. *)
Definition radix_digit (radix : N) (c : ascii) : option N :=
  let n := code c in
  let v :=
    if ((48 <=? n) && (n <=? 57))%N then Some (n - 48)%N
    else if ((97 <=? n) && (n <=? 102))%N then Some (n - 87)%N
    else if ((65 <=? n) && (n <=? 70))%N then Some (n - 55)%N
    else None in
  match v with
  | Some d => if (d <? radix)%N then Some d else None
  | None => None
  end.

Fixpoint trim_start (s : string) : string :=
  match s with
  | String c r => if is_ws c then trim_start r else s
  | EmptyString => EmptyString
  end.

Fixpoint trim_end (s : string) : string :=
  match s with
  | EmptyString => EmptyString
  | String c r =>
      match trim_end r with
      | EmptyString => if is_ws c then EmptyString else String c EmptyString
      | r' => String c r'
      end
  end.

Definition trim (s : string) : string := trim_end (trim_start s).

Fixpoint repeat_char (c : ascii) (n : nat) : string :=
  match n with
  | O => EmptyString
  | S n' => String c (repeat_char c n')
  end.

(** [Array.prototype.join] on strings. *)
Fixpoint join (sep : string) (l : list string) : string :=
  match l with
  | [] => ""
  | [x] => x
  | x :: r => x ++ sep ++ join sep r
  end.

End Chars.

(* ================================================================== *)
(** * Numbers *)
(* ================================================================== *)

(** A number is NaN, an infinity, or a finite value written as the
    decimal [m * 10 ^ e] with a sign.  For a number read from JSON this
    is the decimal the engine prints for it ([Number::toString]).  The
    rounding of a parsed literal's significand to 53 bits is not
    modelled: [app.js] only asks whether a parsed number is NaN or
    finite, and that depends on the overflow threshold alone, which is
    exact here. *)

Module Num.
Import Chars.

Inductive number : Type :=
| NaN
| Infinity (neg : bool)
| Finite (neg : bool) (m : N) (e : Z).

Definition isNaN (x : number) : bool :=
  match x with NaN => true | _ => false end.

Definition is_finite (x : number) : bool :=
  match x with Finite _ _ _ => true | _ => false end.

Definition is_zero (x : number) : bool :=
  match x with Finite _ m _ => (m =? 0)%N | _ => false end.

(** Numeric equality of [===]: NaN equals nothing, the two zeros are
    equal, finite values are compared as rationals. *)
Definition equal (x y : number) : bool :=
  match x, y with
  | Infinity a, Infinity b => Bool.eqb a b
  | Finite a m e, Finite b n f =>
      if ((m =? 0) && (n =? 0))%N then true
      else Bool.eqb a b &&
           (let k := Z.min e f in
            (Z.of_N m * 10 ^ (e - k) =? Z.of_N n * 10 ^ (f - k))%Z)
  | _, _ => false
  end.

(** [SameValueZero], the comparison of [Set.prototype.has]. *)
Definition same_value_zero (x y : number) : bool :=
  match x, y with
  | NaN, NaN => true
  | _, _ => equal x y
  end.

(** Round-to-nearest turns every magnitude from [2^1024 - 2^970] on into
    an infinity. *)
Definition overflow_threshold : Z := (2 ^ 1024 - 2 ^ 970)%Z.

Definition overflows (m : N) (e : Z) : bool :=
  if (0 <=? e)%Z then (overflow_threshold <=? Z.of_N m * 10 ^ e)%Z
  else (overflow_threshold * 10 ^ (- e) <=? Z.of_N m)%Z.

Definition round (neg : bool) (m : N) (e : Z) : number :=
  if overflows m e then Infinity neg else Finite neg m e.

(** ** Reading a number from a string *)

(** The maximal run of decimal digits at the head of [s]: the value
    accumulated onto [acc], how many digits were read, and the rest. *)
Fixpoint scan_digits (acc : N) (cnt : nat) (s : string) : N * nat * string :=
  match s with
  | String c r =>
      if is_digit c then scan_digits (10 * acc + digit_val c)%N (S cnt) r
      else (acc, cnt, s)
  | EmptyString => (acc, cnt, s)
  end.

Definition is_exponent_indicator (c : ascii) : bool :=
  (c =? "e")%char || (c =? "E")%char.

(** An optional sign: whether it is a minus, and the rest. *)
Definition scan_sign (s : string) : bool * string :=
  match s with
  | String c r =>
      if (c =? "+")%char then (false, r)
      else if (c =? "-")%char then (true, r)
      else (false, s)
  | EmptyString => (false, s)
  end.

(** [ExponentPart], taken only when it is complete. *)
Definition scan_exponent (s : string) : Z * string :=
  match s with
  | String c r =>
      if is_exponent_indicator c then
        let '(neg, r1) := scan_sign r in
        match scan_digits 0 0 r1 with
        | (_, O, _) => (0%Z, s)
        | (v, _, r2) => ((if neg then - Z.of_N v else Z.of_N v)%Z, r2)
        end
      else (0%Z, s)
  | EmptyString => (0%Z, s)
  end.

(** After the integer digits [ip] ([ni] of them): a fraction, if a dot
    follows, and an exponent. *)
Definition scan_fraction (neg : bool) (ip : N) (ni : nat) (s : string)
  : option (number * string) :=
  let integer :=
    if (ni =? 0)%nat then None
    else let '(x, r) := scan_exponent s in Some (round neg ip x, r) in
  match s with
  | String c r2 =>
      if (c =? ".")%char then
        let '(m, nf, r3) := scan_digits ip 0 r2 in
        if (ni + nf =? 0)%nat then None
        else
          let '(x, r4) := scan_exponent r3 in
          Some (round neg m (x - Z.of_nat nf), r4)
      else integer
  | EmptyString => integer
  end.

(** The longest prefix that is a [StrUnsignedDecimalLiteral], with the
    rest of the string. *)
Definition scan_unsigned (neg : bool) (s : string) : option (number * string) :=
  if prefix "Infinity" s then Some (Infinity neg, substring 8 (String.length s - 8) s)
  else
    let '(ip, ni, r1) := scan_digits 0 0 s in
    scan_fraction neg ip ni r1.

(** The longest prefix that is a [StrDecimalLiteral]. *)
Definition scan_decimal (s : string) : option (number * string) :=
  let '(neg, r) := scan_sign s in scan_unsigned neg r.

(** [parseFloat] on a string. *)
Definition parseFloat (s : string) : number :=
  match scan_decimal (trim_start s) with
  | Some (x, _) => x
  | None => NaN
  end.

(** All of [s] as digits of the given radix, at least one. *)
Fixpoint scan_radix (radix : N) (acc : N) (s : string) : option N :=
  match s with
  | EmptyString => Some acc
  | String c r =>
      match radix_digit radix c with
      | Some d => scan_radix radix (radix * acc + d)%N r
      | None => None
      end
  end.

(** [NonDecimalIntegerLiteral]: 0b, 0o and 0x forms, unsigned.  The
    outer [None] says the string has no such prefix, the inner one that
    the digits after it are missing or wrong. *)
Definition non_decimal (s : string) : option (option N) :=
  match s with
  | String z (String p r) =>
      let radix :=
        if ((p =? "x") || (p =? "X"))%char then Some 16%N
        else if ((p =? "o") || (p =? "O"))%char then Some 8%N
        else if ((p =? "b") || (p =? "B"))%char then Some 2%N
        else None in
      match (z =? "0")%char, radix with
      | true, Some b =>
          Some (match r with
                | EmptyString => None
                | _ => scan_radix b 0 r
                end)
      | _, _ => None
      end
  | _ => None
  end.

(** [StringToNumber]: the whole string, white space trimmed, must be a
    numeric literal; the empty string is zero. *)
Definition of_string (s : string) : number :=
  let t := trim s in
  match t with
  | EmptyString => Finite false 0 0
  | _ =>
      match non_decimal t with
      | Some (Some v) => round false v 0
      | Some None => NaN
      | None =>
          match scan_decimal t with
          | Some (x, EmptyString) => x
          | _ => NaN
          end
      end
  end.

(** ** Printing a number *)

Definition digits (n : N) : string := NilZero.string_of_uint (N.to_uint n).

(** The digits without their trailing zeros, and how many were cut. *)
Fixpoint strip_zeros (s : string) : string * nat :=
  match s with
  | EmptyString => (EmptyString, O)
  | String c r =>
      match strip_zeros r with
      | (EmptyString, z) =>
          if (c =? "0")%char then (EmptyString, S z)
          else (String c EmptyString, z)
      | (r', z) => (String c r', z)
      end
  end.

(** [Number::toString] for a positive value [ds * 10 ^ (n - k)], where
    [ds] has [k] digits and no trailing zero. *)
Definition format (ds : string) (n : Z) : string :=
  let k := Z.of_nat (String.length ds) in
  if ((k <=? n) && (n <=? 21))%Z then
    ds ++ repeat_char "0" (Z.to_nat (n - k))
  else if ((0 <? n) && (n <=? 21))%Z then
    substring 0 (Z.to_nat n) ds ++ "." ++
    substring (Z.to_nat n) (String.length ds - Z.to_nat n) ds
  else if ((-6 <? n) && (n <=? 0))%Z then
    "0." ++ repeat_char "0" (Z.to_nat (- n)) ++ ds
  else
    let x := (n - 1)%Z in
    let ex := (if (x <? 0)%Z then "-" else "+") ++ digits (Z.abs_N x) in
    match ds with
    | String d EmptyString => String d ("e" ++ ex)
    | String d r => String d ("." ++ r ++ "e" ++ ex)
    | EmptyString => EmptyString
    end.

Definition to_string (x : number) : string :=
  match x with
  | NaN => "NaN"
  | Infinity neg => if neg then "-Infinity" else "Infinity"
  | Finite neg m e =>
      if (m =? 0)%N then "0"
      else
        let '(ds, z) := strip_zeros (digits m) in
        (if neg then "-" else "") ++
        format ds (e + Z.of_nat z + Z.of_nat (String.length ds))
  end.

End Num.

(* ================================================================== *)
(** * Values *)
(* ================================================================== *)

(** What [JSON.parse] builds: the request body of a route and the
    response of the pricing API.  An object lists its own properties in
    the order the engine enumerates them.  [undefined] is no JSON value:
    it only arises as the result of reading an absent property, so a
    JavaScript value is an [option json]. *)

Module Js.
Import Chars.
Export Num.

#[local] Set Warnings "-register-all".

Inductive json : Type :=
| JNull
| JBool (b : bool)
| JNum (x : number)
| JStr (s : string)
| JArr (items : list json)
| JObj (props : list (string * json)).

#[local] Set Warnings "register-all".

Definition value : Type := option json.

Definition undefined : value := None.
Definition null : value := Some JNull.
Definition str (s : string) : value := Some (JStr s).

(** [ToBoolean]. *)
Definition truthy (v : value) : bool :=
  match v with
  | None | Some JNull => false
  | Some (JBool b) => b
  | Some (JNum x) => negb (isNaN x || is_zero x)
  | Some (JStr s) => negb (s =? "")
  | Some (JArr _) | Some (JObj _) => true
  end.

(** [===].  Two arrays or objects are equal only when they are the same
    object; wherever [app.js] compares, the operands come from different
    places (a stored record and a request body, a literal, two entries
    of one parsed array), so that case is [false]. *)
Definition strict_equals (a b : value) : bool :=
  match a, b with
  | None, None => true
  | Some JNull, Some JNull => true
  | Some (JBool x), Some (JBool y) => Bool.eqb x y
  | Some (JNum x), Some (JNum y) => Num.equal x y
  | Some (JStr x), Some (JStr y) => (x =? y)
  | _, _ => false
  end.

(** [SameValueZero], with the same reading of object identity. *)
Definition same_value_zero (a b : value) : bool :=
  match a, b with
  | Some (JNum x), Some (JNum y) => Num.same_value_zero x y
  | _, _ => strict_equals a b
  end.

(** All the results, when none is missing. *)
Fixpoint sequence {A : Type} (l : list (option A)) : option (list A) :=
  match l with
  | [] => Some []
  | x :: r =>
      match x, sequence r with
      | Some a, Some t => Some (a :: t)
      | _, _ => None
      end
  end.

(** A parsed object has the property [toString] of its own. *)
Definition own_toString (props : list (string * json)) : bool :=
  existsb (fun p => fst p =? "toString") props.

(** [ToString] of a JSON value; [None] when the conversion throws a
    TypeError.  An array joins its elements with a comma, [null]
    elements as empty strings.  An object is converted by calling its
    [toString] and then its [valueOf]: a parsed object prints as
    [[object Object]] through the inherited [toString], unless it has a
    property [toString] of its own, which is no function; then [valueOf]
    gives no primitive either (its own is no function, the inherited one
    returns the object) and the conversion throws. *)
Fixpoint json_to_string (v : json) : option string :=
  match v with
  | JNull => Some "null"
  | JBool b => Some (if b then "true" else "false")
  | JNum x => Some (Num.to_string x)
  | JStr s => Some s
  | JArr items =>
      option_map (join ",")
        (sequence (map (fun i => match i with
                                 | JNull => Some ""
                                 | _ => json_to_string i
                                 end) items))
  | JObj props => if own_toString props then None else Some "[object Object]"
  end.

Definition to_string (v : value) : option string :=
  match v with
  | None => Some "undefined"
  | Some j => json_to_string j
  end.

(** [ToNumber]; [None] when it throws.  An array or object goes through
    its string: [valueOf] comes first here and gives no primitive. *)
Definition to_number (v : value) : option number :=
  match v with
  | None => Some NaN
  | Some JNull => Some (Finite false 0 0)
  | Some (JBool b) => Some (Finite false (if b then 1 else 0) 0)
  | Some (JNum x) => Some x
  | Some (JStr s) => Some (Num.of_string s)
  | Some j => option_map Num.of_string (json_to_string j)
  end.

(** The globals [parseFloat] and [isFinite]; [None] when they throw. *)
Definition parseFloat (v : value) : option number :=
  option_map Num.parseFloat (to_string v).
Definition isFinite (v : value) : option bool := option_map is_finite (to_number v).

(** The text a template literal gives a value, for a value whose
    conversion does not throw. *)
Definition shown (v : value) : string :=
  match to_string v with
  | Some text => text
  | None => ""
  end.

(** ** JSON.stringify *)

Definition dquote : ascii := ascii_of_N 34.
Definition backslash : ascii := ascii_of_N 92.

Definition hex_digit (n : N) : ascii :=
  if (n <? 10)%N then ascii_of_N (48 + n) else ascii_of_N (87 + n).

(** One code unit inside [QuoteJSONString]. *)
Definition escape_char (c : ascii) : string :=
  let n := code c in
  if (n =? 8)%N then "\b"
  else if (n =? 9)%N then "\t"
  else if (n =? 10)%N then "\n"
  else if (n =? 12)%N then "\f"
  else if (n =? 13)%N then "\r"
  else if (n =? 34)%N then String backslash (String dquote "")
  else if (n =? 92)%N then "\\"
  else if (n <? 32)%N then
    "\u00" ++ String (hex_digit (n / 16)) (String (hex_digit (n mod 16)) "")
  else String c "".

Fixpoint escape (s : string) : string :=
  match s with
  | EmptyString => EmptyString
  | String c r => escape_char c ++ escape r
  end.

Definition quote (s : string) : string :=
  String dquote (escape s ++ String dquote "").

(** [SerializeJSONProperty] with no replacer and no indentation.  A
    number that is not finite is written as [null]. *)
Fixpoint stringify (v : json) : string :=
  match v with
  | JNull => "null"
  | JBool b => if b then "true" else "false"
  | JNum x => if is_finite x then Num.to_string x else "null"
  | JStr s => quote s
  | JArr items => "[" ++ join "," (map stringify items) ++ "]"
  | JObj props =>
      "{" ++ join "," (map (fun p => quote (fst p) ++ ":" ++ stringify (snd p))
                           props) ++ "}"
  end.

(** [JSON.stringify(undefined)] is [undefined]. *)
Definition JSON_stringify (v : value) : option string := option_map stringify v.

(** [===] on two results of [JSON.stringify]. *)
Definition same_text (a b : option string) : bool :=
  match a, b with
  | None, None => true
  | Some x, Some y => (x =? y)
  | _, _ => false
  end.

Section All2.
Context {A : Type} (same : A -> A -> bool).

(** [same] holds of the two lists element by element. *)
Fixpoint all2 (l1 l2 : list A) : bool :=
  match l1, l2 with
  | [], [] => true
  | x :: r1, y :: r2 => same x y && all2 r1 r2
  | _, _ => false
  end.

End All2.

(** Equality by value, through arrays and objects; on numbers, that of
    [same_value_zero].  This is also the identity of stored values. *)
Fixpoint json_eqb (a b : json) : bool :=
  match a, b with
  | JNull, JNull => true
  | JBool x, JBool y => Bool.eqb x y
  | JNum x, JNum y => Num.same_value_zero x y
  | JStr x, JStr y => (x =? y)
  | JArr xs, JArr ys => all2 json_eqb xs ys
  | JObj ps, JObj qs =>
      all2 (fun p q => (fst p =? fst q) && json_eqb (snd p) (snd q)) ps qs
  | _, _ => false
  end.

Definition value_eqb (a b : value) : bool :=
  match a, b with
  | None, None => true
  | Some x, Some y => json_eqb x y
  | _, _ => false
  end.

(** ** Property access *)

Definition lookup (k : string) (props : list (string * json)) : value :=
  match find (fun p => fst p =? k) props with
  | Some p => Some (snd p)
  | None => None
  end.

End Js.

(* ================================================================== *)
(** * Errors and results *)
(* ================================================================== *)

Module Err.
Import Chars Js.

(** What [app.js] throws, by the kind the specification gives it, and
    what the engine and the two clients throw. *)
Inductive error : Type :=
| EmptyInput
| InvalidDeal
| NonNumericPrice (price : value)
| DuplicateStoreID
| NonNumericCheapestPrice (cheapestPrice : value)
| MissingRequiredAttributes (invalidAttributes : list string)
| DuplicateGame
| NoChange
| NotFound
| NotFoundOrUnchanged
| TypeError
| BadObjectId
| StorageFailure
| UpstreamFailure.

(** [error.message]; the four last kinds carry the text of whoever
    raised them, which the program does not fix.  The two errors that
    carry a value are thrown after [parseFloat] has converted that value
    to a string, so the template literal of their message does not
    throw. *)
Definition message (e : error) : string :=
  match e with
  | EmptyInput => "Deals array cannot be empty."
  | InvalidDeal => "Each deal must have a non-null storeID and price."
  | NonNumericPrice price =>
      "Price must be a numerical value. Invalid value: " ++ shown price
  | DuplicateStoreID => "Duplicate storeID found."
  | NonNumericCheapestPrice v =>
      "CheapestPrice must be a numerical value. Invalid value: " ++ shown v
  | MissingRequiredAttributes l =>
      "Missing or empty required attributes: " ++ join ", " l
  | DuplicateGame => "A game with the same gameID or title already exists."
  | NoChange => "No changes detected. Provide at least one unique update."
  | NotFound => "Game not found."
  | NotFoundOrUnchanged => "Game not found or no changes made."
  | TypeError => "TypeError"
  | BadObjectId => "BSONError"
  | StorageFailure => "MongoError"
  | UpstreamFailure => "AxiosError"
  end.

Inductive result (A : Type) : Type :=
| Ok (a : A)
| Throw (e : error).

Arguments Ok {A} a.
Arguments Throw {A} e.

Definition bind {A B : Type} (r : result A) (k : A -> result B) : result B :=
  match r with
  | Ok a => k a
  | Throw e => Throw e
  end.

End Err.

Declare Scope result_scope.
Delimit Scope result_scope with result.
Notation "x <- r ;; k" := (Err.bind r (fun x => k))
  (at level 61, r at next level, right associativity) : result_scope.
Notation "r ;; k" := (Err.bind r (fun _ => k))
  (at level 61, right associativity) : result_scope.

(* ================================================================== *)
(** * The validators *)
(* ================================================================== *)

Module Validate.
Import Chars Js Err.
Local Open Scope result_scope.

(** Reading property [k] of [v].  On [undefined] and [null] the engine
    throws; the names [app.js] reads are no properties of an array, a
    string, a number or a boolean. *)
Definition get (v : value) (k : string) : result value :=
  match v with
  | None | Some JNull => Throw TypeError
  | Some (JObj props) => Ok (lookup k props)
  | Some _ => Ok undefined
  end.

Definition isDealValid (deal : value) : result bool :=
  storeID <- get deal "storeID" ;;
  price <- get deal "price" ;;
  Ok (negb (strict_equals storeID null) && negb (strict_equals storeID (str ""))
      && negb (strict_equals price null) && negb (strict_equals price (str ""))).

(** [!isNaN(parseFloat(value)) && isFinite(value)]: [isFinite] is not
    called when [parseFloat] gives NaN; either call throws when the
    value cannot be converted. *)
Definition isNumerical (v : value) : result bool :=
  match parseFloat v with
  | None => Throw TypeError
  | Some x =>
      if isNaN x then Ok false
      else
        match isFinite v with
        | None => Throw TypeError
        | Some finite => Ok finite
        end
  end.

(** The loop over a [Set] of the storeIDs seen so far. *)
Fixpoint hasUniqueStoreIDs_from (storeIDSet : list value) (deals : list json)
  : result bool :=
  match deals with
  | [] => Ok true
  | deal :: rest =>
      storeID <- get (Some deal) "storeID" ;;
      if existsb (same_value_zero storeID) storeIDSet then Ok false
      else hasUniqueStoreIDs_from (storeID :: storeIDSet) rest
  end.

Definition hasUniqueStoreIDs (deals : list json) : result bool :=
  hasUniqueStoreIDs_from [] deals.

Fixpoint validateDealAttributes (deals : list json) : result unit :=
  match deals with
  | [] => Ok tt
  | deal :: rest =>
      valid <- isDealValid (Some deal) ;;
      if negb valid then Throw InvalidDeal
      else
        price <- get (Some deal) "price" ;;
        numerical <- isNumerical price ;;
        if negb numerical then Throw (NonNumericPrice price)
        else validateDealAttributes rest
  end.

Definition validateCheapestPrice (cheapestPrice : value) : result unit :=
  numerical <- isNumerical cheapestPrice ;;
  if negb numerical
  then Throw (NonNumericCheapestPrice cheapestPrice)
  else Ok tt.

(** The object literal [{ storeID: deal.storeID, price: deal.price }]. *)
Record deal_pair : Type := { storeID : value; price : value }.

Definition normalize (deal : json) : result deal_pair :=
  s <- get (Some deal) "storeID" ;;
  p <- get (Some deal) "price" ;;
  Ok {| storeID := s; price := p |}.

Fixpoint normalize_all (deals : list json) : result (list deal_pair) :=
  match deals with
  | [] => Ok []
  | deal :: rest =>
      d <- normalize deal ;;
      ds <- normalize_all rest ;;
      Ok (d :: ds)
  end.

Definition validateDeals (deals : value) : result (list deal_pair) :=
  match deals with
  | Some (JArr items) =>
      if (length items =? 0)%nat then Throw EmptyInput
      else
        validateDealAttributes items ;;
        unique <- hasUniqueStoreIDs items ;;
        if negb unique then Throw DuplicateStoreID
        else normalize_all items
  | _ => Throw EmptyInput
  end.

Definition isAttributeInvalid (game : value) (attr : string) : result bool :=
  if (attr =? "title") || (attr =? "cheapestPrice") || (attr =? "deals") then
    v <- get game attr ;;
    Ok (negb (truthy v) || strict_equals v null || strict_equals v (str ""))
  else Ok false.

Definition requiredAttributes : list string := ["title"; "cheapestPrice"; "deals"].

Fixpoint filter_invalid (game : value) (attrs : list string) : result (list string) :=
  match attrs with
  | [] => Ok []
  | attr :: rest =>
      bad <- isAttributeInvalid game attr ;;
      l <- filter_invalid game rest ;;
      Ok (if bad then attr :: l else l)
  end.

Definition validateGameAttributes (game : value) : result unit :=
  invalidAttributes <- filter_invalid game requiredAttributes ;;
  cheapestPrice <- get game "cheapestPrice" ;;
  validateCheapestPrice cheapestPrice ;;
  if (0 <? length invalidAttributes)%nat
  then Throw (MissingRequiredAttributes invalidAttributes)
  else Ok tt.

End Validate.

(* ================================================================== *)
(** * The document collection *)
(* ================================================================== *)

(** The [games] collection behind [connectDB]: the documents in
    insertion order and the next key the store will assign.  Keys stand
    for ObjectIds; their text is 24 hexadecimal digits. *)

Module Store.
Import Chars Js Err.

(** The object literal [{ gameID, title, thumb, cheapestPrice, deals }];
    in a stored document, [None] is a field the document lacks. *)
Record game : Type := {
  gameID : value;
  title : value;
  thumb : value;
  cheapestPrice : value;
  deals : value
}.

Record document : Type := { _id : N; fields : game }.

Record collection : Type := { docs : list document; next_id : N }.

Definition empty : collection := {| docs := []; next_id := 0 |}.

(** Modelled from the spec: the store adapter's write of a document
    (section 6, [insertOne] and [updateOne]); the driver behind
    [connectDB] is not part of [app.js].  The spec does not say how an
    absent field is written: the driver's default is taken, which writes
    [undefined] as null and every other value as it is. *)
Definition bson (v : value) : value :=
  match v with
  | None => null
  | Some _ => v
  end.

Definition bson_game (g : game) : game :=
  {| gameID := bson (gameID g); title := bson (title g); thumb := bson (thumb g);
     cheapestPrice := bson (cheapestPrice g); deals := bson (deals g) |}.

Definition game_eqb (g h : game) : bool :=
  value_eqb (gameID g) (gameID h) && value_eqb (title g) (title h) &&
  value_eqb (thumb g) (thumb h) && value_eqb (cheapestPrice g) (cheapestPrice h) &&
  value_eqb (deals g) (deals h).

Definition null_or_missing (v : value) : bool :=
  match v with
  | None | Some JNull => true
  | Some _ => false
  end.

(** Modelled from the spec: the store adapter's condition
    [{ field: { $eq: q } }] on a stored field, with the store's rule
    for null: a null query matches a null or missing field, any other
    query a field holding that value. *)
Definition equals (stored q : value) : bool :=
  if null_or_missing q then null_or_missing stored
  else value_eqb stored q.

(** A query document made of [$eq] and [$ne] conditions, the two
    operators [app.js] itself writes. *)
Definition comparisons (props : list (string * json)) : bool :=
  match props with
  | [] => false
  | _ => forallb (fun p => (fst p =? "$eq") || (fst p =? "$ne")) props
  end.

(** Modelled from the spec: the store adapter's filter [{ field: q }]
    (section 6, [findOne(filter)]) on a stored field.  A value is
    matched as by [$eq]; but the store reads a document of operators as
    conditions on the field, all of which must hold, [$ne] being the
    negation of [$eq].  The store's other operators and its rules for
    arrays (element match) are left out; the statements about queries
    below are for scalar fields, or for documents of these two
    operators. *)
Definition matches (stored q : value) : bool :=
  match q with
  | Some (JObj props) =>
      if comparisons props then
        forallb (fun p => if fst p =? "$eq" then equals stored (Some (snd p))
                          else negb (equals stored (Some (snd p)))) props
      else equals stored q
  | _ => equals stored q
  end.

(** Modelled from the spec: the filter
    [{ field: { $ne: null, $eq: q } }] of the same adapter. *)
Definition matches_non_null (stored q : value) : bool :=
  negb (null_or_missing stored) && equals stored q.

(** Modelled from the spec: the store adapter's [findOne(filter)], the
    first document the filter matches. *)
Definition findOne (filter : document -> bool) (c : collection) : option document :=
  find filter (docs c).

(** Modelled from the spec: the store adapter's [insertOne(doc)], which
    returns the key it assigned. *)
Definition insertOne (g : game) (c : collection) : N * collection :=
  (next_id c,
   {| docs := docs c ++ [{| _id := next_id c; fields := bson_game g |}];
      next_id := N.succ (next_id c) |}).

(** Modelled from the spec: the store adapter's
    [updateOne({ _id }, { $set: g })] on the first document with that
    key; [modifiedCount] is 0 when there is none or when the five fields
    already hold these values (section 4.4, step 5). *)
Fixpoint set_first (id : N) (g : game) (l : list document) : N * list document :=
  match l with
  | [] => (0%N, [])
  | d :: r =>
      if (_id d =? id)%N then
        if game_eqb (fields d) (bson_game g) then (0%N, l)
        else (1%N, {| _id := id; fields := bson_game g |} :: r)
      else
        let '(n, r') := set_first id g r in (n, d :: r')
  end.

Definition updateOne (id : N) (g : game) (c : collection) : N * collection :=
  let '(n, l) := set_first id g (docs c) in
  (n, {| docs := l; next_id := next_id c |}).

(** Modelled from the spec: the store adapter's [deleteMany({})], which
    returns the number of documents deleted. *)
Definition deleteMany (c : collection) : N * collection :=
  (N.of_nat (length (docs c)), {| docs := []; next_id := next_id c |}).

(** The [k] lowest hexadecimal digits of [n]. *)
Fixpoint hex_digits (k : nat) (n : N) : string :=
  match k with
  | O => EmptyString
  | S k' => hex_digits k' (n / 16) ++ String (hex_digit (n mod 16)) EmptyString
  end.

(** Modelled from the spec: the text of a store-assigned key,
    [ObjectId.prototype.toString]. *)
Definition key_text (id : N) : string := hex_digits 24 id.

(** Modelled from the spec: [new ObjectId(text)], which throws unless
    the text is a key. *)
Definition ObjectId (text : string) : result N :=
  if (String.length text =? 24)%nat then
    match Num.scan_radix 16 0 text with
    | Some n => Ok n
    | None => Throw BadObjectId
    end
  else Throw BadObjectId.

End Store.

(* ================================================================== *)
(** * The routes *)
(* ================================================================== *)

Module App.
Import Chars Js Err Validate Store.

(** Modelled from the spec: the two collaborators of section 6 during
    one request: whether [connectDB] and each store operation resolve,
    and what the pricing API answers ([response.data], or a rejected
    request). *)
Record world : Type := {
  connects : bool;
  findOne_ok : bool;
  insertOne_ok : bool;
  updateOne_ok : bool;
  deleteMany_ok : bool;
  api : result value
}.

Definition healthy : world :=
  {| connects := true; findOne_ok := true; insertOne_ok := true;
     updateOne_ok := true; deleteMany_ok := true; api := Throw UpstreamFailure |}.

(** A computation that may throw, over the collection. *)
Definition M (A : Type) : Type := collection -> result A * collection.

Definition ret {A : Type} (a : A) : M A := fun c => (Ok a, c).

Definition raise {A : Type} (e : error) : M A := fun c => (Throw e, c).

Definition bindM {A B : Type} (m : M A) (k : A -> M B) : M B :=
  fun c =>
    match m c with
    | (Ok a, c') => k a c'
    | (Throw e, c') => (Throw e, c')
    end.

Definition lift {A : Type} (r : result A) : M A := fun c => (r, c).

(** [try { m } catch (error) { h error }]. *)
Definition try_catch {A : Type} (m : M A) (h : error -> M A) : M A :=
  fun c =>
    match m c with
    | (Ok a, c') => (Ok a, c')
    | (Throw e, c') => h e c'
    end.

Definition guarded {A : Type} (ok : bool) (op : collection -> A * collection) : M A :=
  fun c => if ok then let '(a, c') := op c in (Ok a, c') else (Throw StorageFailure, c).

End App.

Declare Scope route_scope.
Delimit Scope route_scope with route.
Notation "x <- m ;; k" := (App.bindM m (fun x => k))
  (at level 61, m at next level, right associativity) : route_scope.
Notation "m ;; k" := (App.bindM m (fun _ => k))
  (at level 61, right associativity) : route_scope.

Module Routes.
Import Chars Js Err Validate Store App.
Local Open Scope route_scope.

Section Routes.

Variable w : world.

Definition connectDB : M unit :=
  if connects w then ret tt else raise StorageFailure.

Definition db_findOne (filter : document -> bool) : M (option document) :=
  guarded (findOne_ok w) (fun c => (findOne filter c, c)).

Definition db_insertOne (g : game) : M N := guarded (insertOne_ok w) (insertOne g).

Definition db_updateOne (id : N) (g : game) : M N :=
  guarded (updateOne_ok w) (updateOne id g).

Definition db_deleteMany : M N := guarded (deleteMany_ok w) deleteMany.

(** A response: the status and the JSON body; or the handler's promise
    rejected and nothing was sent. *)
Inductive outcome : Type :=
| Responded (status : N) (body : json)
| Unhandled (e : error).

Definition handler (m : M (N * json)) (c : collection) : outcome * collection :=
  match m c with
  | (Ok (status, body), c') => (Responded status body, c')
  | (Throw e, c') => (Unhandled e, c')
  end.

Definition json_message (text : string) : json := JObj [("message", JStr text)].
Definition json_error (text : string) : json := JObj [("error", JStr text)].

(** [const { gameID, title, thumb, cheapestPrice, deals } = req.body]. *)
Definition destructure (body : value) : result game :=
  (g <- get body "gameID" ;;
   t <- get body "title" ;;
   th <- get body "thumb" ;;
   cp <- get body "cheapestPrice" ;;
   ds <- get body "deals" ;;
   Ok {| gameID := g; title := t; thumb := th; cheapestPrice := cp; deals := ds |})%result.

(** The filter of the create path:
    [{ $or: [ { gameID: { $ne: null, $eq: gameID } }, { title } ] }]. *)
Definition conflicts (g t : value) (d : document) : bool :=
  matches_non_null (gameID (fields d)) g || matches (title (fields d)) t.

(** [app.post('/games')]. *)
Definition post_games (body : value) : collection -> outcome * collection :=
  handler
    (connectDB ;;
     try_catch
       (newGame <- lift (destructure body) ;;
        lift (validateGameAttributes body) ;;
        lift (validateDeals (deals newGame)) ;;
        existingGame <- db_findOne (conflicts (gameID newGame) (title newGame)) ;;
        match existingGame with
        | Some _ => raise DuplicateGame
        | None =>
            insertedId <- db_insertOne newGame ;;
            ret (201%N, json_message ("Game added with ID: " ++ key_text insertedId))
        end)
       (fun error => ret (400%N, json_error (message error)))).

Definition fetchExistingGame (gameId : N) : M document :=
  existingGame <- db_findOne (fun d => (_id d =? gameId)%N) ;;
  match existingGame with
  | None => raise NotFound
  | Some d => ret d
  end.

Definition checkIfSameGame (existingGame newGameData : game) : bool :=
  strict_equals (gameID existingGame) (gameID newGameData) &&
  strict_equals (title existingGame) (title newGameData) &&
  strict_equals (thumb existingGame) (thumb newGameData) &&
  strict_equals (cheapestPrice existingGame) (cheapestPrice newGameData) &&
  same_text (JSON_stringify (deals existingGame)) (JSON_stringify (deals newGameData)).

Definition updateGame (gameId : N) (newGameData : game) : M N :=
  db_updateOne gameId newGameData.

(** [app.put('/games/:id')]. *)
Definition put_game (id : string) (body : value) : collection -> outcome * collection :=
  handler
    (connectDB ;;
     try_catch
       (newGameData <- lift (destructure body) ;;
        lift (validateGameAttributes body) ;;
        lift (validateDeals (deals newGameData)) ;;
        gameId <- lift (ObjectId id) ;;
        existingGame <- fetchExistingGame gameId ;;
        if checkIfSameGame (fields existingGame) newGameData then raise NoChange
        else
          modifiedCount <- updateGame gameId newGameData ;;
          if (modifiedCount =? 0)%N then raise NotFoundOrUnchanged
          else ret (200%N, json_message ("Game updated with ID: " ++ id)))
       (fun error => ret (400%N, json_error (message error)))).

(** [app.delete('/games')]. *)
Definition delete_games : collection -> outcome * collection :=
  handler
    (try_catch
       (connectDB ;;
        deletedCount <- db_deleteMany ;;
        ret (200%N, json_message (Num.to_string (Finite false deletedCount 0)
                                   ++ " games deleted successfully")))
       (fun _ => ret (500%N, json_error "Internal server error"))).

(** [Object.keys(v).length] for a truthy value. *)
Definition own_keys (v : value) : nat :=
  match v with
  | Some (JObj props) => length props
  | Some (JArr items) => length items
  | Some (JStr s) => String.length s
  | _ => O
  end.

(** One entry through [.filter(deal => deal.storeID != null &&
    deal.price != null).map(deal => ({ storeID, price }))]: an entry
    that is kept has both properties, so the pair is a JSON object. *)
Definition keep_pair (deal : json) : result (option json) :=
  (s <- get (Some deal) "storeID" ;;
   p <- get (Some deal) "price" ;;
   match s, p with
   | Some sj, Some pj =>
       if negb (null_or_missing s) && negb (null_or_missing p)
       then Ok (Some (JObj [("storeID", sj); ("price", pj)]))
       else Ok None
   | _, _ => Ok None
   end)%result.

Fixpoint filter_map_deals (items : list json) : result (list json) :=
  match items with
  | [] => Ok []
  | deal :: rest =>
      (kept <- keep_pair deal ;;
       r <- filter_map_deals rest ;;
       Ok (match kept with Some entry => entry :: r | None => r end))%result
  end.

(** The object literal [formattedGame]. *)
Definition format_game (gameData : value) : result game :=
  (info <- get gameData "info" ;;
   g <- get info "gameID" ;;
   t <- get info "title" ;;
   th <- get info "thumb" ;;
   ever <- get gameData "cheapestPriceEver" ;;
   cp <- get ever "price" ;;
   ds <- get gameData "deals" ;;
   match ds with
   | Some (JArr items) =>
       l <- filter_map_deals items ;;
       Ok {| gameID := g; title := t; thumb := th; cheapestPrice := cp;
             deals := Some (JArr l) |}
   | _ => Throw TypeError
   end)%result.

(** [fetchAndStoreGame]: the object it returns, or what it throws. *)
Definition fetchAndStoreGame : M json :=
  connectDB ;;
  try_catch
    (gameData <- lift (api w) ;;
     if negb (truthy gameData) || (own_keys gameData =? 0)%nat
     then ret (json_error "Invalid API response")
     else
       formattedGame <- lift (format_game gameData) ;;
       existingGame <- db_findOne
         (fun d => matches (gameID (fields d)) (gameID formattedGame)) ;;
       match existingGame with
       | Some _ => ret (json_message "Game already exists")
       | None =>
           insertedId <- db_insertOne formattedGame ;;
           ret (JObj [("message", JStr "Game inserted successfully!");
                      ("id", JStr (key_text insertedId))])
       end)
    (fun _ => ret (json_error "Failed to fetch/store game data")).

(** [app.post('/fetch-store')]. *)
Definition post_fetch_store : collection -> outcome * collection :=
  handler (result <- fetchAndStoreGame ;; ret (200%N, result)).

End Routes.
End Routes.

(* ================================================================== *)
(** * Vocabulary of the specification *)
(* ================================================================== *)

Module Spec.
Import Chars Js Err Validate Store.

(** Property [k] of an entry; an entry that is no object has none. *)
Definition field (entry : json) (k : string) : value :=
  match entry with
  | JObj props => lookup k props
  | _ => None
  end.

Definition is_object (j : json) : bool :=
  match j with JObj _ => true | _ => false end.

(** Present, not null and not the empty string. *)
Definition non_empty (v : value) : bool :=
  match v with
  | None | Some JNull => false
  | Some (JStr s) => negb (s =? "")
  | Some _ => true
  end.

(** [undefined], [null], a boolean, a string, or a number but NaN. *)
Definition primitive (v : value) : bool :=
  match v with
  | Some (JArr _) | Some (JObj _) => false
  | Some (JNum x) => negb (isNaN x)
  | _ => true
  end.

(** The entry has a storeID and a price, neither null nor empty. *)
Definition complete (entry : json) : bool :=
  is_object entry && non_empty (field entry "storeID") && non_empty (field entry "price").

(** The value can be converted to a string. *)
Definition printable (v : value) : bool :=
  match to_string v with
  | Some _ => true
  | None => false
  end.

(** The numeric check answers true. *)
Definition numeric (v : value) : bool :=
  match isNumerical v with
  | Ok numerical => numerical
  | Throw _ => false
  end.

(** ... and its price is numeric. *)
Definition acceptable (entry : json) : bool :=
  complete entry && numeric (field entry "price").

(** What the validator keeps of an entry. *)
Definition pair_of (entry : json) : deal_pair :=
  {| storeID := field entry "storeID"; price := field entry "price" |}.

Definition storeIDs (items : list json) : list value :=
  map (fun entry => field entry "storeID") items.

(** No two of the values are equal by value. *)
Fixpoint distinct (ids : list value) : bool :=
  match ids with
  | [] => true
  | a :: r => forallb (fun b => negb (value_eqb a b)) r && distinct r
  end.

(** The deals as ordered sequences of [{storeID, price}]. *)
Definition pairs_of (deals : value) : list deal_pair :=
  match deals with
  | Some (JArr items) => map pair_of items
  | _ => []
  end.

(** The entry [{ storeID: a, price: b }] with two strings. *)
Definition text_pair (a b : string) : json :=
  JObj [("storeID", JStr a); ("price", JStr b)].

(** A deals value made of such entries only. *)
Definition text_pairs (l : list (string * string)) : json :=
  JArr (map (fun p => text_pair (fst p) (snd p)) l).

(** The four fields the equality checker compares with [===]. *)
Inductive scalar_field : Type := GameID | Title | Thumb | CheapestPrice.

Definition read (f : scalar_field) (g : game) : value :=
  match f with
  | GameID => gameID g
  | Title => title g
  | Thumb => thumb g
  | CheapestPrice => cheapestPrice g
  end.

(** A property of a game payload counts as missing when it is falsy. *)
Definition missing (game : json) (attr : string) : bool :=
  negb (truthy (field game attr)).

End Spec.

(* ================================================================== *)
(** * Shapes of strings *)
(* ================================================================== *)

(** The inverse of [quote], used to show that different strings are
    serialised differently, and the shapes of string the statements
    about numbers speak of. *)

Module Text.
Import Chars Js Spec.

Definition simple_escape (k : ascii) : option ascii :=
  if (k =? "b")%char then Some (ascii_of_N 8)
  else if (k =? "t")%char then Some (ascii_of_N 9)
  else if (k =? "n")%char then Some (ascii_of_N 10)
  else if (k =? "f")%char then Some (ascii_of_N 12)
  else if (k =? "r")%char then Some (ascii_of_N 13)
  else if (k =? dquote)%char then Some dquote
  else if (k =? backslash)%char then Some backslash
  else None.

(** The text up to the closing quote, unescaped, and what follows the
    quote. *)
Fixpoint unescape (s : string) : option (string * string) :=
  match s with
  | EmptyString => None
  | String c r =>
      if (c =? dquote)%char then Some (EmptyString, r)
      else if (c =? backslash)%char then
        match r with
        | String k r1 =>
            if (k =? "u")%char then
              match r1 with
              | String _ (String _ (String h (String l r2))) =>
                  match radix_digit 16 h, radix_digit 16 l, unescape r2 with
                  | Some a, Some b, Some (t, rest) =>
                      Some (String (ascii_of_N (16 * a + b)) t, rest)
                  | _, _, _ => None
                  end
              | _ => None
              end
            else
              match simple_escape k, unescape r1 with
              | Some c', Some (t, rest) => Some (String c' t, rest)
              | _, _ => None
              end
        | EmptyString => None
        end
      else
        match unescape r with
        | Some (t, rest) => Some (String c t, rest)
        | None => None
        end
  end.

(** No character of the string is a double quote. *)
Fixpoint unquoted (s : string) : bool :=
  match s with
  | EmptyString => true
  | String c r => negb (c =? dquote)%char && unquoted r
  end.

(** Every character of the string is a decimal digit. *)
Fixpoint numeral (s : string) : bool :=
  match s with
  | EmptyString => true
  | String c r => is_digit c && numeral r
  end.

(** No character of the string is white space. *)
Fixpoint solid (s : string) : bool :=
  match s with
  | EmptyString => true
  | String c r => negb (is_ws c) && solid r
  end.

Definition starts_with_digit (s : string) : bool :=
  match s with
  | String c _ => is_digit c
  | EmptyString => false
  end.

(** The texts of [l], each followed by the separator. *)
Fixpoint lead (sep : string) (l : list string) : string :=
  match l with
  | [] => ""
  | x :: r => x ++ sep ++ lead sep r
  end.

(** The JSON text of the entry [{ storeID: a, price: b }]. *)
Definition pair_text (p : string * string) : string :=
  stringify (text_pair (fst p) (snd p)).

End Text.

(* ================================================================== *)
(** * Sample payloads and records *)
(* ================================================================== *)

Module Examples.
Import Chars Js Err Validate Store App Routes Spec.

(** Two deals, the second with a property beyond storeID and price. *)
Definition example_deals : json :=
  JArr [text_pair "1" "9.99";
        JObj [("storeID", JStr "2"); ("price", JStr "4.99"); ("dealID", JStr "abc")]].

Definition example_body : value :=
  Some (JObj [("title", JStr "Halo"); ("cheapestPrice", JStr "4.99");
              ("deals", example_deals)]).

(** A record with the given deals. *)
Definition record (ds : json) : game :=
  {| gameID := str "612"; title := str "Halo"; thumb := str "halo.jpg";
     cheapestPrice := str "4.99"; deals := Some ds |}.

Definition tagged_deal (tag : string) : json :=
  JObj [("storeID", JStr "1"); ("price", JStr "9.99"); ("dealID", JStr tag)].

(** A record stored without gameID and thumb, alone in its collection. *)
Definition stored_halo : game :=
  {| gameID := null; title := str "Halo"; thumb := null;
     cheapestPrice := str "4.99"; deals := Some example_deals |}.

Definition one_record : collection :=
  {| docs := [{| _id := 0; fields := stored_halo |}]; next_id := 1 |}.

(** A world whose pricing API answers one game. *)
Definition answering : world :=
  {| connects := true; findOne_ok := true; insertOne_ok := true;
     updateOne_ok := true; deleteMany_ok := true;
     api := Ok (Some (JObj [("info", JObj [("gameID", JStr "612");
                                           ("title", JStr "Halo")]);
                            ("cheapestPriceEver", JObj [("price", JStr "4.99")]);
                            ("deals", example_deals)])) |}.

(** Two records with different titles. *)
Definition two_records : collection :=
  {| docs := [{| _id := 0; fields := stored_halo |};
              {| _id := 1;
                 fields := {| gameID := str "7"; title := str "Doom";
                              thumb := str "doom.jpg"; cheapestPrice := str "1.99";
                              deals := Some example_deals |} |}];
     next_id := 2 |}.

End Examples.

(* ================================================================== *)
(** * The read routes and the delete by key *)
(* ================================================================== *)

Module Reads.
Import Chars Js Err Validate Store App Routes.
Local Open Scope route_scope.

(** Modelled from the spec: beside the collaborators of [world],
    whether the store adapter's [find().toArray()] and [deleteOne]
    resolve (section 6). *)
Record reach : Type := { base : world; find_ok : bool; deleteOne_ok : bool }.

Definition sound : reach :=
  {| base := healthy; find_ok := true; deleteOne_ok := true |}.

(** Modelled from the spec: the store adapter's [find().toArray()], all
    documents in their order. *)
Definition findAll (c : collection) : list document := docs c.

(** Modelled from the spec: the store adapter's [deleteOne({ _id })],
    which removes the first document with that key and returns the
    number of documents deleted. *)
Fixpoint remove_first (id : N) (l : list document) : N * list document :=
  match l with
  | [] => (0%N, [])
  | d :: r =>
      if (_id d =? id)%N then (1%N, r)
      else let '(n, r') := remove_first id r in (n, d :: r')
  end.

Definition deleteOne (id : N) (c : collection) : N * collection :=
  let '(n, l) := remove_first id (docs c) in
  (n, {| docs := l; next_id := next_id c |}).

(** What [res.json] sends for a stored document: its key as text, then
    the fields the document has. *)
Definition field_json (k : string) (v : value) : list (string * json) :=
  match v with
  | Some j => [(k, j)]
  | None => []
  end.

Definition doc_json (d : document) : json :=
  JObj (("_id", JStr (key_text (_id d)))
        :: field_json "gameID" (gameID (fields d))
        ++ field_json "title" (title (fields d))
        ++ field_json "thumb" (thumb (fields d))
        ++ field_json "cheapestPrice" (cheapestPrice (fields d))
        ++ field_json "deals" (deals (fields d))).

(** The answer of a [try] block whose [catch] sends [error.message]: a
    response, or the text of what was thrown. *)
Definition answer (status : N) (r : string + N * json) : N * json :=
  match r with
  | inl text => (status, json_error text)
  | inr response => response
  end.

(** [app.get('/games')]. *)
Definition get_games (w : reach) : collection -> outcome * collection :=
  handler
    (connectDB (base w) ;;
     try_catch
       (games <- guarded (find_ok w) (fun c => (findAll c, c)) ;;
        ret (200%N, JArr (map doc_json games)))
       (fun _ => ret (500%N, json_error "Failed to fetch games"))).

(** [app.get('/games/:id')].  [throw new Error("Game not found")] is
    inside the [try], so the [catch] receives that text. *)
Definition get_game (w : reach) (id : string) : collection -> outcome * collection :=
  handler
    (connectDB (base w) ;;
     r <- try_catch
            (gameId <- lift (ObjectId id) ;;
             game <- db_findOne (base w) (fun d => (_id d =? gameId)%N) ;;
             match game with
             | None => ret (inl "Game not found")
             | Some d => ret (inr (200%N, doc_json d))
             end)
            (fun error => ret (inl (message error))) ;;
     ret (answer 404 r)).

(** [app.delete('/games/:id')]. *)
Definition delete_game (w : reach) (id : string) : collection -> outcome * collection :=
  handler
    (try_catch
       (connectDB (base w) ;;
        gameId <- lift (ObjectId id) ;;
        deletedCount <- guarded (deleteOne_ok w) (deleteOne gameId) ;;
        if (deletedCount =? 0)%N then ret (404%N, json_error "Game not found")
        else ret (200%N, json_message "Game deleted successfully"))
       (fun _ => ret (500%N, json_error "Internal server error"))).

End Reads.

(* ================================================================== *)
(** * Further vocabulary *)
(* ================================================================== *)

Module Terms.
Import Chars Js Err Validate Store App Routes Spec Reads.

(** [v === null || v === ""]. *)
Definition blank (v : value) : bool :=
  strict_equals v null || strict_equals v (str "").

(** What the attribute checks ask of an entry: an object whose storeID
    and price are neither null nor the empty string, with a numeric
    price.  The storeID may be absent. *)
Definition passes (entry : json) : bool :=
  is_object entry && negb (blank (field entry "storeID"))
  && negb (blank (field entry "price")) && numeric (field entry "price").

(** No value of [ids] is the same, for a [Set], as one of [seen]. *)
Definition unseen (seen ids : list value) : bool :=
  forallb (fun b => forallb (fun a => negb (same_value_zero b a)) seen) ids.

(** No two values of the list are the same for a [Set]. *)
Fixpoint apart (ids : list value) : bool :=
  match ids with
  | [] => true
  | a :: r => forallb (fun b => negb (same_value_zero b a)) r && apart r
  end.

(** Every character of the string is white space. *)
Fixpoint spaces (s : string) : bool :=
  match s with
  | EmptyString => true
  | String c r => is_ws c && spaces r
  end.

(** Two records the create path would not let coexist: the same title,
    or the same gameID that is not null. *)
Definition clash (a b : game) : bool :=
  strict_equals (title a) (title b)
  || (negb (null_or_missing (gameID a)) && strict_equals (gameID a) (gameID b)).



(** The keys a text of 24 hexadecimal digits can name. *)
Definition key_space : N := (16 ^ 24)%N.

(** No document has the key the store will assign next, which is a key
    that has a text. *)
Definition fresh_key (c : collection) : bool :=
  forallb (fun d => negb (_id d =? next_id c)%N) (docs c)
  && (next_id c <? key_space)%N.

(** The entry has a storeID and a price, neither null. *)
Definition has_both (entry : json) : bool :=
  negb (null_or_missing (field entry "storeID"))
  && negb (null_or_missing (field entry "price")).

(** The entry reduced to its storeID and price. *)
Definition reduced (entry : json) : json :=
  JObj [("storeID", match field entry "storeID" with Some s => s | None => JNull end);
        ("price", match field entry "price" with Some p => p | None => JNull end)].

Definition readable (entry : json) : bool :=
  match entry with JNull => false | _ => true end.

(** What both write routes do with a payload before they touch the
    collection: destructure it and run the two validators. *)
Definition validated (body : value) : result game :=
  (g <- destructure body ;;
   validateGameAttributes body ;;
   validateDeals (deals g) ;;
   Ok g)%result.

(** The document [insertOne] writes for a payload. *)
Definition inserted (g : game) (c : collection) : document :=
  {| _id := next_id c; fields := bson_game g |}.

Definition has_key (k : N) (d : document) : bool := (_id d =? k)%N.

(** The status of a response; none when nothing was sent. *)
Definition status_of (o : outcome) : option N :=
  match o with
  | Responded status _ => Some status
  | Unhandled _ => None
  end.

End Terms.

(* ================================================================== *)
(** * Facts about values *)
(* ================================================================== *)

Module ValueFacts.
Import Chars Js Err Validate Store Spec.

Lemma equal_sym (x y : number) : Num.equal x y = Num.equal y x.
Proof.
  destruct x as [|a|a m e], y as [|b|b n f]; simpl; try reflexivity.
  - destruct a, b; reflexivity.
  - rewrite (andb_comm (m =? 0)%N (n =? 0)%N).
    destruct ((n =? 0)%N && (m =? 0)%N); [reflexivity|].
    rewrite (Z.min_comm e f), (Z.eqb_sym (Z.of_N m * _)%Z).
    destruct a, b; reflexivity.
Qed.

Lemma number_svz_sym (x y : number) :
  Num.same_value_zero x y = Num.same_value_zero y x.
Proof.
  destruct x as [|a|a m e], y as [|b|b n f]; try reflexivity;
    unfold Num.same_value_zero; apply equal_sym.
Qed.

Lemma equal_refl (x : number) : isNaN x = false -> Num.equal x x = true.
Proof.
  destruct x as [|a|a m e]; simpl; intros H; try discriminate.
  - destruct a; reflexivity.
  - rewrite andb_diag. destruct (m =? 0)%N; [reflexivity|].
    rewrite Z.eqb_refl. destruct a; reflexivity.
Qed.

Lemma number_svz_refl (x : number) : Num.same_value_zero x x = true.
Proof.
  destruct x as [|a|a m e]; [reflexivity| |]; apply equal_refl; reflexivity.
Qed.

Lemma equal_svz (x y : number) :
  Num.equal x y = true -> Num.same_value_zero x y = true.
Proof. destruct x, y; simpl; auto. Qed.

Lemma svz_equal (x y : number) :
  isNaN y = false -> Num.same_value_zero x y = Num.equal x y.
Proof. destruct x, y; simpl; intros; try reflexivity; discriminate. Qed.

(** On values, [SameValueZero] is symmetric. *)
Lemma svz_sym (a b : value) : same_value_zero a b = same_value_zero b a.
Proof.
  destruct a as [[| x | x | x | x | x]|], b as [[| y | y | y | y | y]|];
    simpl; try reflexivity.
  - destruct x, y; reflexivity.
  - apply number_svz_sym.
  - apply String.eqb_sym.
Qed.

(** Two values the [Set] takes for the same are equal by value. *)
Lemma svz_value_eqb (a b : value) :
  same_value_zero a b = true -> value_eqb a b = true.
Proof.
  destruct a as [[| x | x | x | x | x]|], b as [[| y | y | y | y | y]|];
    simpl; intros H; try discriminate; auto.
Qed.

(** For a primitive, equality by value is what the [Set] tests. *)
Lemma value_eqb_svz (a b : value) :
  primitive a = true -> value_eqb a b = true -> same_value_zero a b = true.
Proof.
  destruct a as [[| x | x | x | x | x]|], b as [[| y | y | y | y | y]|];
    simpl; intros P H; try discriminate; auto.
Qed.

Lemma strict_equals_refl (v : value) :
  primitive v = true -> strict_equals v v = true.
Proof.
  destruct v as [[| x | x | x | x | x]|]; simpl; intros P; try discriminate; auto.
  - destruct x; reflexivity.
  - apply equal_refl. now apply negb_true_iff.
  - apply String.eqb_refl.
Qed.

Lemma non_empty_not_null (v : value) :
  non_empty v = true -> strict_equals v null = false.
Proof. destruct v as [[| x | x | x | x | x]|]; simpl; intros; congruence. Qed.

Lemma non_empty_not_blank (v : value) :
  non_empty v = true -> strict_equals v (str "") = false.
Proof.
  destruct v as [[| x | x | x | x | x]|]; simpl; intros H; try congruence.
  now apply negb_true_iff.
Qed.

Lemma get_object (entry : json) (k : string) :
  is_object entry = true -> get (Some entry) k = Ok (field entry k).
Proof. destruct entry; simpl; intros; congruence. Qed.

End ValueFacts.

(* ================================================================== *)
(** * The numeric check *)
(* ================================================================== *)

Module NumberFacts.
Import Chars Js Err Validate Text.

Lemma numeral_uint (d : Decimal.uint) : numeral (NilEmpty.string_of_uint d) = true.
Proof. induction d; simpl; auto. Qed.

Lemma numeral_digits (n : N) : numeral (Num.digits n) = true.
Proof.
  unfold Num.digits, NilZero.string_of_uint.
  destruct (N.to_uint n); try reflexivity; apply (numeral_uint (_ _)).
Qed.

Lemma numeral_strip_zeros (s : string) :
  numeral s = true -> numeral (fst (Num.strip_zeros s)) = true.
Proof.
  induction s as [|c s IH]; [reflexivity|].
  simpl. intros H. apply andb_true_iff in H as [Hc Hs]. specialize (IH Hs).
  destruct (Num.strip_zeros s) as [[|c' s'] z].
  - destruct (c =? "0")%char; simpl; [reflexivity|]. now rewrite Hc.
  - simpl in *. now rewrite Hc.
Qed.

(** Digits that are all cut as trailing zeros denote zero. *)
Lemma strip_zeros_all (d : Decimal.uint) :
  fst (Num.strip_zeros (NilEmpty.string_of_uint d)) = "" -> Pos.of_uint d = 0%N.
Proof.
  induction d; cbn [NilEmpty.string_of_uint Num.strip_zeros Pos.of_uint];
    try reflexivity;
    destruct (Num.strip_zeros (NilEmpty.string_of_uint d)) as [[|c' s'] z];
    cbn; intros H; try discriminate H; auto.
Qed.

Lemma strip_zeros_digits (m : N) :
  m <> 0%N -> fst (Num.strip_zeros (Num.digits m)) <> "".
Proof.
  intros NZ E. apply NZ. rewrite <- (DecimalN.Unsigned.of_to m).
  unfold Num.digits, NilZero.string_of_uint in E. unfold N.of_uint.
  destruct (N.to_uint m) eqn:U; try reflexivity;
    apply strip_zeros_all; exact E.
Qed.

Lemma starts_with_digit_format (ds : string) (n : Z) :
  numeral ds = true -> ds <> "" -> starts_with_digit (Num.format ds n) = true.
Proof.
  destruct ds as [|d r]; [congruence|]. intros H _.
  cbn [numeral] in H. apply andb_true_iff in H as [Hd _].
  unfold Num.format.
  destruct (_ && _); [exact Hd|].
  destruct ((0 <? n)%Z && _) eqn:B.
  { apply andb_true_iff in B as [B _]. apply Z.ltb_lt in B.
    destruct (Z.to_nat n) eqn:T; [lia|]. exact Hd. }
  clear B. destruct (_ && _); [reflexivity|].
  destruct r; exact Hd.
Qed.

Lemma scan_digits_count (s : string) : forall acc cnt,
  (cnt <= snd (fst (Num.scan_digits acc cnt s)))%nat.
Proof.
  induction s as [|c s IH]; intros acc cnt; cbn [Num.scan_digits]; [cbn; lia|].
  destruct (is_digit c); [|cbn; lia].
  specialize (IH (10 * acc + digit_val c)%N (S cnt)). lia.
Qed.

(** A string that starts with a digit has a decimal literal as prefix. *)
Lemma scan_unsigned_digit (neg : bool) (s : string) :
  starts_with_digit s = true -> Num.scan_unsigned neg s <> None.
Proof.
  destruct s as [|c r]; [discriminate|]. cbn [starts_with_digit]. intros D.
  unfold Num.scan_unsigned.
  destruct (prefix "Infinity" (String c r)); [discriminate|].
  pose proof (scan_digits_count r (10 * 0 + digit_val c)%N 1) as C.
  cbn [Num.scan_digits]. rewrite D.
  destruct (Num.scan_digits _ 1 r) as [[ip ni] r1]. cbn [fst snd] in C.
  assert (Z : (ni =? 0)%nat = false) by (apply Nat.eqb_neq; lia).
  unfold Num.scan_fraction. rewrite Z.
  destruct r1 as [|c1 r2].
  - destruct (Num.scan_exponent ""). discriminate.
  - destruct (c1 =? ".")%char.
    + destruct (Num.scan_digits ip 0 r2) as [[m nf] r3].
      replace (ni + nf =? 0)%nat with false by (symmetry; apply Nat.eqb_neq; lia).
      destruct (Num.scan_exponent r3). discriminate.
    + destruct (Num.scan_exponent (String c1 r2)). discriminate.
Qed.

Lemma digit_not_ws (c : ascii) : is_digit c = true -> is_ws c = false.
Proof.
  unfold is_digit, is_ws. intros H. apply andb_true_iff in H as [L U].
  apply N.leb_le in L, U. cbn [existsb].
  repeat (match goal with
          | |- context [(code c =? ?k)%N] =>
              replace (code c =? k)%N with false by (symmetry; apply N.eqb_neq; lia)
          end).
  reflexivity.
Qed.

Lemma digit_not_sign (c : ascii) (r : string) :
  is_digit c = true -> Num.scan_sign (String c r) = (false, String c r).
Proof.
  intros D. cbn [Num.scan_sign].
  destruct (c =? "+")%char eqn:P; [apply Ascii.eqb_eq in P; subst; discriminate|].
  destruct (c =? "-")%char eqn:M; [apply Ascii.eqb_eq in M; subst; discriminate|].
  reflexivity.
Qed.

Lemma round_not_NaN (neg : bool) (m : N) (e : Z) : isNaN (Num.round neg m e) = false.
Proof. unfold Num.round. now destruct (Num.overflows m e). Qed.

(** A literal is never read as NaN. *)
Lemma scan_unsigned_not_NaN (neg : bool) (s : string) (x : number) (rest : string) :
  Num.scan_unsigned neg s = Some (x, rest) -> isNaN x = false.
Proof.
  unfold Num.scan_unsigned.
  destruct (prefix "Infinity" s); [now intros [= <- _]|].
  destruct (Num.scan_digits 0 0 s) as [[ip ni] r1].
  unfold Num.scan_fraction.
  assert (I : (if (ni =? 0)%nat then None
               else let '(y, r) := Num.scan_exponent r1 in Some (Num.round neg ip y, r))
              = Some (x, rest) -> isNaN x = false).
  { destruct (ni =? 0)%nat; [discriminate|].
    destruct (Num.scan_exponent r1). intros [= <- _]. apply round_not_NaN. }
  destruct r1 as [|c1 r2]; [exact I|].
  destruct (c1 =? ".")%char; [|exact I].
  destruct (Num.scan_digits ip 0 r2) as [[m nf] r3].
  destruct (ni + nf =? 0)%nat; [discriminate|].
  destruct (Num.scan_exponent r3). intros [= <- _]. apply round_not_NaN.
Qed.

Lemma parseFloat_digit (s : string) :
  starts_with_digit s = true ->
  isNaN (Num.parseFloat s) = false /\ isNaN (Num.parseFloat (String "-" s)) = false.
Proof.
  intros D. pose proof (scan_unsigned_digit false s D) as P.
  pose proof (scan_unsigned_digit true s D) as M.
  destruct s as [|c r]; [discriminate|]. cbn [starts_with_digit] in D.
  unfold Num.parseFloat. split.
  - cbn [trim_start]. rewrite (digit_not_ws _ D).
    unfold Num.scan_decimal. rewrite (digit_not_sign _ _ D).
    destruct (Num.scan_unsigned false (String c r)) as [[x rest]|] eqn:E; [|congruence].
    now apply scan_unsigned_not_NaN in E.
  - change (trim_start (String "-" (String c r))) with (String "-" (String c r)).
    change (Num.scan_decimal (String "-" (String c r)))
      with (Num.scan_unsigned true (String c r)).
    destruct (Num.scan_unsigned true (String c r)) as [[x rest]|] eqn:E; [|congruence].
    now apply scan_unsigned_not_NaN in E.
Qed.

(** A number passes the numeric check exactly when it is finite. *)
Lemma isNumerical_number (x : number) : isNumerical (Some (JNum x)) = Ok (is_finite x).
Proof.
  unfold isNumerical, parseFloat, isFinite.
  cbn [to_number to_string json_to_string option_map].
  destruct x as [|neg|neg m e]; [reflexivity|destruct neg; reflexivity|].
  cbn [is_finite].
  enough (P : isNaN (Num.parseFloat (Num.to_string (Finite neg m e))) = false)
    by (rewrite P; reflexivity).
  unfold Num.to_string. destruct (m =? 0)%N eqn:Z; [reflexivity|].
  apply N.eqb_neq in Z.
  pose proof (strip_zeros_digits m Z) as NE.
  pose proof (numeral_strip_zeros _ (numeral_digits m)) as Nm.
  destruct (Num.strip_zeros (Num.digits m)) as [ds z]. cbn [fst] in NE, Nm.
  pose proof (starts_with_digit_format ds (e + Z.of_nat z + Z.of_nat (String.length ds))
                Nm NE) as S.
  destruct (parseFloat_digit _ S) as [P M].
  destruct neg; [exact M|exact P].
Qed.

(** ** Decimal strings *)

Lemma append_nil_r (s : string) : s ++ "" = s.
Proof. induction s as [|c s IH]; simpl; [reflexivity|now rewrite IH]. Qed.

Lemma length_append (a b : string) :
  String.length (a ++ b) = (String.length a + String.length b)%nat.
Proof. induction a as [|c a IH]; simpl; [reflexivity|now rewrite IH]. Qed.

Lemma digit_val_le (c : ascii) : is_digit c = true -> (digit_val c <= 9)%N.
Proof.
  unfold is_digit, digit_val. intros H. apply andb_true_iff in H as [L U].
  apply N.leb_le in L, U. lia.
Qed.

(** A run of digits is read whole, and its value is below the power of
    ten of its length. *)
Lemma scan_digits_numeral (s : string) : forall acc cnt r,
  numeral s = true -> starts_with_digit r = false ->
  exists v,
    Num.scan_digits acc cnt (s ++ r) = (v, (cnt + String.length s)%nat, r) /\
    (v < (acc + 1) * 10 ^ N.of_nat (String.length s))%N.
Proof.
  induction s as [|c s IH]; intros acc cnt r Hs Hr.
  - exists acc. split; [|cbn; lia].
    cbn [append String.length]. rewrite Nat.add_0_r.
    destruct r as [|c r]; [reflexivity|]. cbn in Hr |- *. now rewrite Hr.
  - cbn [numeral] in Hs. apply andb_true_iff in Hs as [Hc Hs].
    destruct (IH (10 * acc + digit_val c)%N (S cnt) r Hs Hr) as (v & E & B).
    exists v. split.
    + cbn [append Num.scan_digits String.length]. rewrite Hc, E. f_equal. f_equal. lia.
    + pose proof (digit_val_le c Hc) as D.
      cbn [String.length]. rewrite Nat2N.inj_succ, N.pow_succ_r'.
      set (p := (10 ^ N.of_nat (String.length s))%N) in *.
      apply (N.lt_le_trans _ _ _ B). nia.
Qed.

Lemma numeral_solid (s : string) : numeral s = true -> solid s = true.
Proof.
  induction s as [|c s IH]; [reflexivity|]. cbn [numeral solid]. intros H.
  apply andb_true_iff in H as [Hc Hs]. now rewrite (digit_not_ws _ Hc), IH.
Qed.

Lemma solid_app (a b : string) : solid (a ++ b) = solid a && solid b.
Proof. induction a as [|c a IH]; simpl; [reflexivity|]. now rewrite IH, andb_assoc. Qed.

Lemma trim_end_solid (s : string) : solid s = true -> trim_end s = s.
Proof.
  induction s as [|c s IH]; [reflexivity|]. cbn [solid trim_end]. intros H.
  apply andb_true_iff in H as [Hc Hs]. rewrite (IH Hs).
  apply negb_true_iff in Hc. rewrite Hc. now destruct s.
Qed.

Lemma trim_start_solid (s : string) : solid s = true -> trim_start s = s.
Proof.
  destruct s as [|c s]; [reflexivity|]. cbn [solid trim_start]. intros H.
  apply andb_true_iff in H as [Hc _]. apply negb_true_iff in Hc. now rewrite Hc.
Qed.

Lemma digit_not_Infinity (s : string) :
  starts_with_digit s = true -> prefix "Infinity" s = false.
Proof.
  destruct s as [|c r]; [discriminate|]. cbn [starts_with_digit prefix]. intros D.
  destruct (ascii_dec "I" c) as [<-|]; [discriminate D|reflexivity].
Qed.

(** A string whose second character is a digit or a dot is no binary,
    octal or hexadecimal literal. *)
Lemma non_decimal_none (z p : ascii) (r : string) :
  is_digit p = true \/ p = "."%char -> Num.non_decimal (String z (String p r)) = None.
Proof.
  intros H. cbn [Num.non_decimal].
  assert (E : forall k : ascii, is_digit k = false -> k <> "."%char -> (p =? k)%char = false).
  { intros k Dk Nk. apply Ascii.eqb_neq. intros ->. destruct H; congruence. }
  rewrite !E by (reflexivity || discriminate). cbn [orb].
  now destruct (z =? "0")%char.
Qed.

Lemma threshold_308 : (10 ^ 308 < Num.overflow_threshold)%Z.
Proof. apply Z.ltb_lt. vm_compute. reflexivity. Qed.

Lemma below_threshold (m : N) (k : nat) (e : Z) :
  (m < 10 ^ N.of_nat k)%N -> (k <= 308)%nat -> (e <= 0)%Z ->
  Num.overflows m e = false.
Proof.
  intros B K E.
  assert (M : (Z.of_N m < Num.overflow_threshold)%Z).
  { apply (Z.lt_trans _ (10 ^ 308)); [|apply threshold_308].
    apply (Z.lt_le_trans _ (Z.of_N (10 ^ N.of_nat k))); [lia|].
    rewrite N2Z.inj_pow. apply Z.pow_le_mono_r; lia. }
  pose proof threshold_308 as T.
  unfold Num.overflows. destruct (0 <=? e)%Z eqn:S.
  - apply Z.leb_le in S. replace e with 0%Z by lia.
    apply Z.leb_gt. rewrite Z.pow_0_r. lia.
  - apply Z.leb_gt.
    assert (P : (1 <= 10 ^ (- e))%Z) by (apply Z.pow_le_mono_r with (a := 10%Z) (b := 0%Z); lia).
    assert (0 < Num.overflow_threshold)%Z by lia. nia.
Qed.

Lemma numeral_starts (s : string) :
  numeral s = true -> s <> "" -> starts_with_digit s = true.
Proof.
  destruct s as [|c r]; [congruence|]. cbn [numeral starts_with_digit].
  intros H _. now apply andb_true_iff in H as [H _].
Qed.

Lemma scan_decimal_digit (s : string) :
  starts_with_digit s = true -> Num.scan_decimal s = Num.scan_unsigned false s.
Proof.
  destruct s as [|c r]; [discriminate|]. cbn [starts_with_digit]. intros D.
  unfold Num.scan_decimal. now rewrite (digit_not_sign _ _ D).
Qed.

Lemma scan_unsigned_integer (a : string) :
  numeral a = true -> a <> "" -> (String.length a <= 308)%nat ->
  exists v, Num.scan_unsigned false a = Some (Finite false v 0, "").
Proof.
  intros Na NE L. unfold Num.scan_unsigned.
  rewrite (digit_not_Infinity _ (numeral_starts _ Na NE)).
  destruct (scan_digits_numeral a 0 0 "" Na eq_refl) as (v & E & B).
  rewrite append_nil_r in E. rewrite E. cbn [Nat.add].
  exists v. unfold Num.scan_fraction.
  replace (String.length a =? 0)%nat with false
    by (symmetry; apply Nat.eqb_neq; destruct a; [congruence|cbn; lia]).
  cbn [Num.scan_exponent]. unfold Num.round.
  rewrite (below_threshold v (String.length a) 0); [reflexivity|lia|assumption|lia].
Qed.

Lemma scan_unsigned_fraction (a b : string) :
  numeral a = true -> a <> "" -> numeral b = true ->
  (String.length a + String.length b <= 308)%nat ->
  exists m, Num.scan_unsigned false (a ++ "." ++ b)
            = Some (Finite false m (0 - Z.of_nat (String.length b)), "").
Proof.
  intros Na NE Nb L. unfold Num.scan_unsigned.
  assert (S : starts_with_digit (a ++ "." ++ b) = true)
    by (destruct a; [congruence|now apply (numeral_starts _ Na)]).
  rewrite (digit_not_Infinity _ S).
  destruct (scan_digits_numeral a 0 0 ("." ++ b) Na eq_refl) as (v & E & B).
  rewrite E. cbn [Nat.add append]. unfold Num.scan_fraction.
  cbn [Ascii.eqb Bool.eqb].
  destruct (scan_digits_numeral b v 0 "" Nb eq_refl) as (m & E' & B').
  rewrite append_nil_r in E'. rewrite E'. cbn [Nat.add].
  exists m.
  replace (String.length a + String.length b =? 0)%nat with false
    by (symmetry; apply Nat.eqb_neq; destruct a; [congruence|cbn; lia]).
  cbn [Num.scan_exponent]. unfold Num.round.
  rewrite (below_threshold m (String.length a + String.length b)); [reflexivity| |assumption|lia].
  rewrite Nat2N.inj_add, N.pow_add_r.
  apply (N.lt_le_trans _ _ _ B'). apply N.mul_le_mono_r. lia.
Qed.

Lemma isNumerical_literal (s : string) (v : N) (e : Z) :
  solid s = true -> starts_with_digit s = true ->
  Num.non_decimal s = None ->
  Num.scan_unsigned false s = Some (Finite false v e, "") ->
  isNumerical (str s) = Ok true.
Proof.
  intros So St Nd Sc.
  unfold isNumerical, parseFloat, isFinite, str.
  cbn [to_string json_to_string to_number option_map].
  unfold Num.parseFloat, Num.of_string, trim.
  rewrite (trim_start_solid _ So), (trim_end_solid _ So), Nd.
  rewrite (scan_decimal_digit _ St), Sc.
  destruct s; [discriminate St|reflexivity].
Qed.

(** Every string of decimal digits, with or without a fraction after a
    dot, of at most 308 digits in all, passes the numeric check. *)
Lemma isNumerical_decimal (a b : string) :
  numeral a = true -> a <> "" -> numeral b = true ->
  (String.length a + String.length b <= 308)%nat ->
  isNumerical (str a) = Ok true /\ isNumerical (str (a ++ "." ++ b)) = Ok true.
Proof.
  intros Na NE Nb L. split.
  - destruct (scan_unsigned_integer a Na NE) as [v Sc]; [lia|].
    apply (isNumerical_literal a v 0); auto using numeral_solid, numeral_starts.
    destruct a as [|z [|p r]]; [congruence|reflexivity|].
    apply non_decimal_none. left. cbn [numeral] in Na.
    apply andb_true_iff in Na as [_ Na]. now apply andb_true_iff in Na as [Na _].
  - destruct (scan_unsigned_fraction a b Na NE Nb L) as [m Sc].
    apply (isNumerical_literal _ m (0 - Z.of_nat (String.length b))); auto.
    + rewrite !solid_app, (numeral_solid _ Na), (numeral_solid _ Nb). reflexivity.
    + destruct a; [congruence|now apply (numeral_starts _ Na)].
    + destruct a as [|z [|p r]]; [congruence| |].
      * apply non_decimal_none. now right.
      * apply non_decimal_none. left. cbn [numeral] in Na.
        apply andb_true_iff in Na as [_ Na]. now apply andb_true_iff in Na as [Na _].
Qed.

End NumberFacts.

(* ================================================================== *)
(** * The deal validator *)
(* ================================================================== *)

Module DealFacts.
Import Chars Js Err Validate Store Spec ValueFacts.

Lemma complete_object (entry : json) : complete entry = true -> is_object entry = true.
Proof. unfold complete. intros H. apply andb_true_iff in H as [H _].
  now apply andb_true_iff in H as [H _]. Qed.

Lemma isDealValid_complete (entry : json) :
  complete entry = true -> isDealValid (Some entry) = Ok true.
Proof.
  intros C. pose proof (complete_object _ C) as O.
  unfold complete in C. apply andb_true_iff in C as [C P].
  apply andb_true_iff in C as [_ S].
  unfold isDealValid. rewrite !get_object by assumption. simpl.
  now rewrite (non_empty_not_null _ S), (non_empty_not_blank _ S),
    (non_empty_not_null _ P), (non_empty_not_blank _ P).
Qed.

(** The first entry whose price is not numeric decides the attribute
    check of a list of complete entries. *)
Lemma validateDealAttributes_find (items : list json) :
  forallb complete items = true ->
  validateDealAttributes items =
  match find (fun entry => negb (numeric (field entry "price"))) items with
  | Some entry =>
      match isNumerical (field entry "price") with
      | Throw e => Throw e
      | Ok _ => Throw (NonNumericPrice (field entry "price"))
      end
  | None => Ok tt
  end.
Proof.
  induction items as [|entry rest IH]; intros H; [reflexivity|].
  simpl in H. apply andb_true_iff in H as [C R].
  cbn [validateDealAttributes find].
  rewrite (isDealValid_complete _ C). cbn [bind negb].
  rewrite (get_object _ _ (complete_object _ C)). cbn [bind].
  assert (Nu : numeric (field entry "price") =
               match isNumerical (field entry "price") with
               | Ok numerical => numerical
               | Throw _ => false
               end) by reflexivity.
  rewrite Nu.
  destruct (isNumerical (field entry "price")) as [[|]|e] eqn:E; cbn [negb bind];
    rewrite ?E; auto.
Qed.

(** The numeric check throws exactly on a value that cannot be
    converted to a string, and then a TypeError. *)
Lemma isNumerical_printable (v : value) :
  isNumerical v = if printable v then Ok (numeric v) else Throw TypeError.
Proof.
  unfold numeric, printable, isNumerical, parseFloat, isFinite.
  destruct v as [[| b | x | s | items | props]|]; cbn [to_string to_number];
    try (cbn [json_to_string option_map]; destruct (isNaN _); reflexivity).
  - destruct (json_to_string (JArr items)); cbn [option_map]; [|reflexivity].
    destruct (isNaN _); reflexivity.
  - destruct (json_to_string (JObj props)); cbn [option_map]; [|reflexivity].
    destruct (isNaN _); reflexivity.
Qed.

Lemma numeric_true (v : value) : numeric v = true <-> isNumerical v = Ok true.
Proof.
  unfold numeric. destruct (isNumerical v) as [[|]|e]; split; congruence.
Qed.

Lemma numeric_false (v : value) :
  printable v = true -> (numeric v = false <-> isNumerical v = Ok false).
Proof.
  intro P. rewrite isNumerical_printable, P.
  split; [intros ->; reflexivity | congruence].
Qed.

Lemma acceptable_complete (items : list json) :
  forallb acceptable items = true -> forallb complete items = true.
Proof.
  induction items as [|entry rest IH]; simpl; [auto|].
  intros H. apply andb_true_iff in H as [A R]. unfold acceptable in A.
  apply andb_true_iff in A as [C _]. now rewrite C, IH.
Qed.

Lemma validateDealAttributes_acceptable (items : list json) :
  forallb acceptable items = true -> validateDealAttributes items = Ok tt.
Proof.
  intros H. rewrite validateDealAttributes_find by now apply acceptable_complete.
  induction items as [|entry rest IH]; [reflexivity|].
  simpl in H. apply andb_true_iff in H as [A R]. unfold acceptable in A.
  apply andb_true_iff in A as [_ N]. cbn [find]. rewrite N. cbn [negb]. auto.
Qed.

Lemma normalize_all_objects (items : list json) :
  forallb is_object items = true -> normalize_all items = Ok (map pair_of items).
Proof.
  induction items as [|entry rest IH]; [reflexivity|].
  simpl. intros H. apply andb_true_iff in H as [O R].
  unfold normalize. rewrite !get_object by assumption. simpl.
  now rewrite IH.
Qed.

Lemma complete_objects (items : list json) :
  forallb complete items = true -> forallb is_object items = true.
Proof.
  induction items as [|entry rest IH]; simpl; [auto|].
  intros H. apply andb_true_iff in H as [C R].
  now rewrite (complete_object _ C), IH.
Qed.

(** The loop answers [true] when no entry repeats a storeID of the set
    or of an earlier entry. *)
Lemma hasUniqueStoreIDs_distinct (items : list json) : forall seen,
  forallb is_object items = true ->
  (forall a b, In a (storeIDs items) -> In b seen -> value_eqb b a = false) ->
  distinct (storeIDs items) = true ->
  hasUniqueStoreIDs_from seen items = Ok true.
Proof.
  induction items as [|entry rest IH]; intros seen O Fresh D; [reflexivity|].
  simpl in O. apply andb_true_iff in O as [O R].
  simpl in D. apply andb_true_iff in D as [D1 D2].
  cbn [hasUniqueStoreIDs_from]. rewrite (get_object _ _ O). cbn [bind].
  destruct (existsb _ seen) eqn:E.
  - apply existsb_exists in E as (b & Hb & Hs).
    rewrite svz_sym in Hs. apply svz_value_eqb in Hs.
    rewrite (Fresh (field entry "storeID") b) in Hs; [discriminate|now left|assumption].
  - apply IH; auto.
    intros a b Ha [Hb|Hb].
    + subst b. rewrite forallb_forall in D1. specialize (D1 a Ha).
      now apply negb_true_iff in D1.
    + apply Fresh; [now right|assumption].
Qed.

(** The loop answers [false] at the first entry whose storeID the set
    holds; the entries after it are not read. *)
Lemma hasUniqueStoreIDs_seen (entry : json) (rest : list json) (seen : list value) :
  is_object entry = true ->
  existsb (same_value_zero (field entry "storeID")) seen = true ->
  hasUniqueStoreIDs_from seen (entry :: rest) = Ok false.
Proof.
  intros O E. cbn [hasUniqueStoreIDs_from]. rewrite (get_object _ _ O). cbn [bind].
  now rewrite E.
Qed.

Lemma hasUniqueStoreIDs_repeat (mid : list json) : forall seen a b post,
  forallb is_object mid = true ->
  is_object b = true ->
  In a seen ->
  same_value_zero (field b "storeID") a = true ->
  hasUniqueStoreIDs_from seen (mid ++ b :: post) = Ok false.
Proof.
  induction mid as [|entry mid IH]; intros seen a b post O Ob Ha Hs.
  - apply hasUniqueStoreIDs_seen; [assumption|].
    apply existsb_exists. eauto.
  - simpl in O. apply andb_true_iff in O as [O R].
    change ((entry :: mid) ++ b :: post)%list with (entry :: (mid ++ b :: post))%list.
    cbn [hasUniqueStoreIDs_from]. rewrite (get_object _ _ O). cbn [bind].
    destruct (existsb _ seen); [reflexivity|].
    apply (IH _ a); auto. now right.
Qed.

Lemma hasUniqueStoreIDs_split (pre : list json) : forall seen a mid b post,
  forallb is_object pre = true ->
  is_object a = true ->
  forallb is_object mid = true ->
  is_object b = true ->
  same_value_zero (field b "storeID") (field a "storeID") = true ->
  hasUniqueStoreIDs_from seen (pre ++ a :: mid ++ b :: post) = Ok false.
Proof.
  induction pre as [|entry pre IH]; intros seen a mid b post O Oa Om Ob S.
  - cbn [app]. cbn [hasUniqueStoreIDs_from]. rewrite (get_object _ _ Oa). cbn [bind].
    destruct (existsb _ seen); [reflexivity|].
    apply (hasUniqueStoreIDs_repeat _ _ (field a "storeID")); auto. now left.
  - simpl in O. apply andb_true_iff in O as [O R].
    change ((entry :: pre) ++ a :: mid ++ b :: post)%list
      with (entry :: (pre ++ a :: mid ++ b :: post))%list.
    cbn [hasUniqueStoreIDs_from]. rewrite (get_object _ _ O). cbn [bind].
    destruct (existsb _ seen); [reflexivity|]. now apply IH.
Qed.

Lemma hasUniqueStoreIDs_total (items : list json) : forall seen,
  forallb is_object items = true ->
  exists unique, hasUniqueStoreIDs_from seen items = Ok unique.
Proof.
  induction items as [|entry rest IH]; intros seen O; [now exists true|].
  simpl in O. apply andb_true_iff in O as [O R].
  cbn [hasUniqueStoreIDs_from]. rewrite (get_object _ _ O). cbn [bind].
  destruct (existsb _ seen); [now exists false|now apply IH].
Qed.

(** A single complete entry is judged by its price alone. *)
Lemma validateDeals_single (entry : json) :
  complete entry = true ->
  validateDeals (Some (JArr [entry])) =
  match isNumerical (field entry "price") with
  | Ok true => Ok [pair_of entry]
  | Ok false => Throw (NonNumericPrice (field entry "price"))
  | Throw e => Throw e
  end.
Proof.
  intros C. pose proof (complete_object _ C) as O.
  unfold validateDeals. cbn [length Nat.eqb].
  rewrite validateDealAttributes_find by (cbn [forallb]; now rewrite C).
  cbn [find]. unfold numeric.
  destruct (isNumerical (field entry "price")) as [[|]|e] eqn:E; cbn [negb bind];
    rewrite ?E; [|reflexivity|reflexivity].
  unfold hasUniqueStoreIDs. cbn [hasUniqueStoreIDs_from].
  rewrite (get_object _ _ O). cbn [bind existsb negb].
  rewrite normalize_all_objects by (cbn [forallb]; now rewrite O). reflexivity.
Qed.

Lemma forallb_app_inv {A : Type} (f : A -> bool) (l1 l2 : list A) :
  forallb f (l1 ++ l2) = true -> forallb f l1 = true /\ forallb f l2 = true.
Proof. rewrite forallb_app. apply andb_true_iff. Qed.

End DealFacts.

Module DealValidator.
Import Chars Js Err Validate Store Spec Text ValueFacts NumberFacts DealFacts.

(** C1.  A non-empty list of deals in which every entry has a storeID
    and a price that are neither null nor empty, the price passes the
    numeric check, and no two storeIDs are equal, is accepted: the
    validator returns, in the same order and number, the pair
    [{storeID, price}] of each entry and nothing else of it. *)
Theorem validateDeals_accepts (items : list json) :
  items <> [] ->
  forallb acceptable items = true ->
  distinct (storeIDs items) = true ->
  exists pairs,
    validateDeals (Some (JArr items)) = Ok pairs /\
    length pairs = length items /\
    forall i entry, nth_error items i = Some entry ->
      nth_error pairs i =
      Some {| storeID := field entry "storeID"; price := field entry "price" |}.
Proof.
  intros NE A D. exists (map pair_of items). split; [|split].
  - unfold validateDeals. destruct items as [|e r]; [congruence|].
    cbn [length Nat.eqb].
    rewrite (validateDealAttributes_acceptable _ A). cbn [bind].
    pose proof (complete_objects _ (acceptable_complete _ A)) as O.
    unfold hasUniqueStoreIDs.
    rewrite (hasUniqueStoreIDs_distinct _ [] O); [|intros ? ? ? []|assumption].
    cbn [bind negb]. now apply normalize_all_objects.
  - apply length_map.
  - intros i entry H. rewrite nth_error_map, H. reflexivity.
Qed.

Lemma validateDeals_accepts_witness :
  exists pairs,
    validateDeals (Some (JArr [text_pair "1" "9.99"; text_pair "2" "4.99"])) = Ok pairs /\
    length pairs = 2%nat /\
    forall i entry,
      nth_error [text_pair "1" "9.99"; text_pair "2" "4.99"] i = Some entry ->
      nth_error pairs i =
      Some {| storeID := field entry "storeID"; price := field entry "price" |}.
Proof.
  apply (validateDeals_accepts [text_pair "1" "9.99"; text_pair "2" "4.99"]).
  - discriminate.
  - vm_compute. reflexivity.
  - vm_compute. reflexivity.
Defined.

(** C6, as the code has it.  When every entry passes the attribute
    checks and two entries have the same primitive storeID, the
    validator fails with DuplicateStoreID.  The uniqueness loop stops at
    the first entry whose storeID an earlier entry registered: what
    follows that entry is not read. *)
Theorem validateDeals_rejects_repeat (pre mid post : list json) (a b : json) :
  forallb acceptable (pre ++ a :: mid ++ b :: post) = true ->
  primitive (field a "storeID") = true ->
  value_eqb (field a "storeID") (field b "storeID") = true ->
  validateDeals (Some (JArr (pre ++ a :: mid ++ b :: post))) = Throw DuplicateStoreID /\
  forall unread, hasUniqueStoreIDs (pre ++ a :: mid ++ b :: unread) = Ok false.
Proof.
  intros A P E.
  pose proof (complete_objects _ (acceptable_complete _ A)) as O.
  apply forallb_app_inv in O as [Opre O]. cbn [forallb] in O.
  apply andb_true_iff in O as [Oa O].
  apply forallb_app_inv in O as [Omid O]. cbn [forallb] in O.
  apply andb_true_iff in O as [Ob _].
  assert (S : same_value_zero (field b "storeID") (field a "storeID") = true)
    by (rewrite svz_sym; now apply value_eqb_svz).
  split.
  - assert (N : (length (pre ++ a :: mid ++ b :: post) =? 0)%nat = false)
      by (rewrite length_app; simpl; apply Nat.eqb_neq; lia).
    unfold validateDeals. rewrite N.
    rewrite (validateDealAttributes_acceptable _ A). cbn [bind].
    unfold hasUniqueStoreIDs. now rewrite hasUniqueStoreIDs_split.
  - intros unread. unfold hasUniqueStoreIDs. now apply hasUniqueStoreIDs_split.
Qed.

Lemma validateDeals_rejects_repeat_witness :
  validateDeals (Some (JArr [text_pair "1" "9.99"; text_pair "1" "3.99"]))
    = Throw DuplicateStoreID /\
  forall unread,
    hasUniqueStoreIDs (text_pair "1" "9.99" :: text_pair "1" "3.99" :: unread) = Ok false.
Proof.
  apply (validateDeals_rejects_repeat [] [] [] (text_pair "1" "9.99") (text_pair "1" "3.99")).
  - vm_compute. reflexivity.
  - reflexivity.
  - reflexivity.
Defined.

(** C6 fails as stated: two entries share the storeID "1", yet the
    validator fails with NonNumericPrice, because the attribute checks
    of all entries run before the uniqueness check. *)
Lemma repeated_storeID_counterexample :
  let items := [text_pair "1" "abc"; text_pair "1" "2"] in
  field (nth 0 items JNull) "storeID" = field (nth 1 items JNull) "storeID" /\
  validateDeals (Some (JArr items)) = Throw (NonNumericPrice (str "abc")) /\
  validateDeals (Some (JArr items)) <> Throw DuplicateStoreID.
Proof.
  split; [reflexivity|]. split; [vm_compute; reflexivity|].
  vm_compute. discriminate.
Qed.

Lemma validateDealAttributes_skip (pre rest : list json) :
  forallb acceptable pre = true ->
  validateDealAttributes (pre ++ rest) = validateDealAttributes rest.
Proof.
  induction pre as [|entry r IH]; [reflexivity|].
  cbn [forallb]. intro H. apply andb_true_iff in H as [A R].
  unfold acceptable in A. apply andb_true_iff in A as [C N].
  apply numeric_true in N.
  change ((entry :: r) ++ rest)%list with (entry :: (r ++ rest)%list).
  cbn [validateDealAttributes].
  rewrite (isDealValid_complete _ C). cbn [bind negb].
  rewrite (get_object _ _ (complete_object _ C)). cbn [bind].
  rewrite N. cbn [bind negb]. exact (IH R).
Qed.

(** The numeric check answers false when [parseFloat] gives NaN or the
    value is not finite as a number. *)
Lemma isNumerical_false (v : value) :
  printable v = true ->
  (isNumerical v = Ok false <->
   (exists x, parseFloat v = Some x /\ isNaN x = true) \/ isFinite v = Some false).
Proof.
  intro P. pose proof (isNumerical_printable v) as E. rewrite P in E.
  unfold isNumerical in *.
  destruct (parseFloat v) as [x|]; [|discriminate E].
  destruct (isNaN x) eqn:X.
  - split; [intros _; left; eauto | reflexivity].
  - destruct (isFinite v) as [[|]|]; [| |discriminate E].
    + split; [discriminate|].
      intros [(y & Y & Z)|F]; [congruence|discriminate].
    + split; [intros _; now right | reflexivity].
Qed.

(** C7, as the code has it.  In a non-empty list whose entries all have
    a storeID and a price that are neither null nor empty, and whose
    prices can all be converted to a string, the validator fails with
    NonNumericPrice exactly when some price does not parse as a finite
    number: [parseFloat] of it is NaN or it is not finite as a number.
    A price that cannot be converted, after entries that pass, makes the
    validator throw a TypeError instead.
    Numeric strings are accepted: "9.99", and every string of decimal
    digits with or without a fraction, up to 308 digits; a price that
    is a number is accepted exactly when it is finite.  "Infinity",
    "NaN" and every string that is no numeric literal are rejected. *)
Theorem nonnumeric_price_exactly :
  (forall items : list json,
     items <> [] ->
     forallb complete items = true ->
     forallb (fun entry => printable (field entry "price")) items = true ->
     ((exists p, validateDeals (Some (JArr items)) = Throw (NonNumericPrice p)) <->
      (exists entry, In entry items /\
         ((exists x, parseFloat (field entry "price") = Some x /\ isNaN x = true) \/
          isFinite (field entry "price") = Some false)))) /\
  (forall (pre post : list json) (entry : json),
     forallb acceptable pre = true ->
     complete entry = true ->
     printable (field entry "price") = false ->
     validateDeals (Some (JArr (pre ++ entry :: post))) = Throw TypeError) /\
  (forall sid : json,
     non_empty (Some sid) = true ->
     let deal p := JObj [("storeID", sid); ("price", JStr p)] in
     validateDeals (Some (JArr [deal "9.99"]))
       = Ok [{| storeID := Some sid; price := str "9.99" |}] /\
     validateDeals (Some (JArr [deal "Infinity"]))
       = Throw (NonNumericPrice (str "Infinity")) /\
     validateDeals (Some (JArr [deal "NaN"])) = Throw (NonNumericPrice (str "NaN")) /\
     (forall s, s <> "" -> Num.of_string s = NaN ->
        validateDeals (Some (JArr [deal s])) = Throw (NonNumericPrice (str s))) /\
     (forall a b, numeral a = true -> a <> "" -> numeral b = true ->
        (String.length a + String.length b <= 308)%nat ->
        validateDeals (Some (JArr [deal a]))
          = Ok [{| storeID := Some sid; price := str a |}] /\
        validateDeals (Some (JArr [deal (a ++ "." ++ b)]))
          = Ok [{| storeID := Some sid; price := str (a ++ "." ++ b) |}]) /\
     (forall x : number,
        validateDeals (Some (JArr [JObj [("storeID", sid); ("price", JNum x)]]))
        = if is_finite x then Ok [{| storeID := Some sid; price := Some (JNum x) |}]
          else Throw (NonNumericPrice (Some (JNum x))))).
Proof.
  split; [|split].
  - intros items NE C P.
    assert (V : validateDeals (Some (JArr items)) =
                bind (validateDealAttributes items)
                  (fun _ => bind (hasUniqueStoreIDs items)
                     (fun unique => if negb unique then Throw DuplicateStoreID
                                    else normalize_all items))).
    { destruct items; [congruence|reflexivity]. }
    rewrite V, (validateDealAttributes_find _ C).
    rewrite forallb_forall in P. split.
    + intros [p H].
      destruct (find _ items) as [entry|] eqn:F.
      * apply find_some in F as [I N]. exists entry. split; [assumption|].
        apply negb_true_iff in N.
        apply (isNumerical_false _ (P entry I)).
        now apply numeric_false; [apply P|].
      * exfalso. cbn [bind] in H.
        destruct (hasUniqueStoreIDs_total items [] (complete_objects _ C)) as [u U].
        unfold hasUniqueStoreIDs in H. rewrite U in H. cbn [bind] in H.
        destruct u; cbn [negb] in H; [|discriminate].
        rewrite (normalize_all_objects _ (complete_objects _ C)) in H. discriminate.
    + intros (entry & I & N).
      apply (isNumerical_false _ (P entry I)) in N.
      destruct (find _ items) as [e|] eqn:F.
      * apply find_some in F as [Ie Ne]. apply negb_true_iff in Ne.
        apply (numeric_false _ (P e Ie)) in Ne. rewrite Ne. cbn [bind]. eauto.
      * exfalso. pose proof (find_none _ _ F _ I) as X. cbn beta in X.
        apply negb_false_iff, numeric_true in X. congruence.
  - intros pre post entry A C P.
    unfold validateDeals.
    replace (length (pre ++ entry :: post) =? 0)%nat with false
      by (symmetry; apply Nat.eqb_neq; rewrite length_app; cbn [length]; lia).
    rewrite (validateDealAttributes_skip _ _ A). cbn [validateDealAttributes].
    rewrite (isDealValid_complete _ C). cbn [bind negb].
    rewrite (get_object _ _ (complete_object _ C)). cbn [bind].
    rewrite isNumerical_printable, P. reflexivity.
  - intros sid S deal.
    assert (C : forall p, p <> "" -> complete (deal p) = true).
    { intros p Hp. unfold complete.
      change (field (deal p) "storeID") with (Some sid).
      change (field (deal p) "price") with (str p).
      change (is_object (deal p)) with true.
      rewrite S. apply String.eqb_neq in Hp. cbn [non_empty str andb].
      now rewrite Hp. }
    repeat split.
    + rewrite validateDeals_single by (apply C; discriminate).
      change (field (deal "9.99") "price") with (str "9.99").
      replace (isNumerical (str "9.99")) with (@Ok bool true) by (vm_compute; reflexivity).
      reflexivity.
    + rewrite validateDeals_single by (apply C; discriminate).
      change (field (deal "Infinity") "price") with (str "Infinity").
      replace (isNumerical (str "Infinity")) with (@Ok bool false)
        by (vm_compute; reflexivity).
      reflexivity.
    + rewrite validateDeals_single by (apply C; discriminate).
      change (field (deal "NaN") "price") with (str "NaN").
      replace (isNumerical (str "NaN")) with (@Ok bool false) by (vm_compute; reflexivity).
      reflexivity.
    + intros s Hs N. rewrite validateDeals_single by (now apply C).
      change (field (deal s) "price") with (str s).
      unfold isNumerical, parseFloat, isFinite, to_number, to_string, str.
      cbn [json_to_string option_map]. rewrite N.
      destruct (isNaN (Num.parseFloat s)); reflexivity.
    + destruct (isNumerical_decimal a b) as [Ia _]; try assumption.
      rewrite validateDeals_single by (apply C; now destruct a).
      change (field (deal a) "price") with (str a). now rewrite Ia.
    + destruct (isNumerical_decimal a b) as [_ Iab]; try assumption.
      rewrite validateDeals_single by (apply C; now destruct a).
      change (field (deal (a ++ "." ++ b)) "price") with (str (a ++ "." ++ b)).
      now rewrite Iab.
    + intros x.
      rewrite validateDeals_single.
      * change (field (JObj [("storeID", sid); ("price", JNum x)]) "price")
          with (Some (JNum x)).
        rewrite isNumerical_number. destruct (is_finite x); reflexivity.
      * unfold complete.
        change (field (JObj [("storeID", sid); ("price", JNum x)]) "storeID")
          with (Some sid).
        change (field (JObj [("storeID", sid); ("price", JNum x)]) "price")
          with (Some (JNum x)).
        rewrite S. reflexivity.
Qed.

(** The price "1e999" reads as a number that is not finite. *)
Lemma nonnumeric_price_exactly_witness :
  exists p, validateDeals (Some (JArr [text_pair "1" "9.99"; text_pair "2" "1e999"]))
            = Throw (NonNumericPrice p).
Proof.
  apply (proj1 nonnumeric_price_exactly [text_pair "1" "9.99"; text_pair "2" "1e999"]).
  - discriminate.
  - vm_compute. reflexivity.
  - vm_compute. reflexivity.
  - exists (text_pair "2" "1e999"). split; [right; left; reflexivity|].
    right. vm_compute. reflexivity.
Defined.

(** C7 fails as stated: the entry has a storeID and a price that are
    neither null nor empty, the price does not parse as a number, since
    [parseFloat] throws on it, and the validator fails with that
    TypeError, not with NonNumericPrice. *)
Lemma unprintable_price_counterexample :
  let price := JObj [("toString", JStr "x")] in
  let entry := JObj [("storeID", JStr "1"); ("price", price)] in
  complete entry = true /\
  parseFloat (Some price) = None /\
  validateDeals (Some (JArr [entry])) = Throw TypeError /\
  validateDeals (Some (JArr [entry])) <> Throw (NonNumericPrice (Some price)).
Proof.
  split; [reflexivity|]. split; [reflexivity|]. split; [vm_compute; reflexivity|].
  vm_compute. discriminate.
Qed.

End DealValidator.

(* ================================================================== *)
(** * The game attribute validator *)
(* ================================================================== *)

Module GameValidator.
Import Chars Js Err Validate Store Spec ValueFacts.

(** The three tests of [isAttributeInvalid] come to one: the value is
    falsy. *)
Lemma invalid_iff_falsy (v : value) :
  negb (truthy v) || strict_equals v null || strict_equals v (str "") = negb (truthy v).
Proof.
  destruct v as [[| x | x | x | x | x]|]; simpl; try reflexivity.
  - now rewrite !orb_false_r.
  - now rewrite !orb_false_r.
  - destruct (x =? ""); reflexivity.
Qed.

Lemma filter_invalid_object (props : list (string * json)) :
  filter_invalid (Some (JObj props)) requiredAttributes
  = Ok (filter (missing (JObj props)) requiredAttributes).
Proof.
  unfold requiredAttributes, missing. cbn [filter_invalid filter].
  unfold isAttributeInvalid. cbn [String.eqb Ascii.eqb Bool.eqb orb get bind field].
  now rewrite !invalid_iff_falsy.
Qed.

(** A falsy value passes the numeric check only if it is zero. *)
Lemma numerical_falsy_zero (v : value) :
  isNumerical v = Ok true -> truthy v = false ->
  exists neg e, v = Some (JNum (Finite neg 0 e)).
Proof.
  destruct v as [[| b | x | s | l | l]|]; intros N T.
  - vm_compute in N. discriminate.
  - destruct b; [discriminate T|]. vm_compute in N. discriminate.
  - destruct x as [|neg|neg m e].
    + vm_compute in N. discriminate.
    + discriminate T.
    + simpl in T. apply negb_false_iff, N.eqb_eq in T. subst m. eauto.
  - simpl in T. apply negb_false_iff, String.eqb_eq in T. subst s.
    vm_compute in N. discriminate.
  - discriminate T.
  - discriminate T.
  - vm_compute in N. discriminate.
Qed.

(** On an object, the validator is the numeric check of cheapestPrice
    followed by the report of the falsy attributes. *)
Lemma validateGameAttributes_object (props : list (string * json)) :
  validateGameAttributes (Some (JObj props)) =
  bind (validateCheapestPrice (field (JObj props) "cheapestPrice"))
    (fun _ => match filter (missing (JObj props)) requiredAttributes with
              | [] => Ok tt
              | names => Throw (MissingRequiredAttributes names)
              end).
Proof.
  unfold validateGameAttributes. rewrite filter_invalid_object.
  cbn [bind get]. fold (field (JObj props) "cheapestPrice").
  destruct (validateCheapestPrice _); [|reflexivity]. cbn [bind].
  now destruct (filter _ requiredAttributes).
Qed.

Lemma isNumerical_undefined : isNumerical undefined = Ok false.
Proof. vm_compute. reflexivity. Qed.

(** A payload that is no object has no cheapestPrice. *)
Lemma validateGameAttributes_no_object (body : value) :
  (forall k, get body k = Ok undefined) ->
  validateGameAttributes body = Throw (NonNumericCheapestPrice undefined).
Proof.
  intros G. unfold validateGameAttributes, requiredAttributes.
  cbn [filter_invalid]. unfold isAttributeInvalid.
  cbn [String.eqb Ascii.eqb Bool.eqb orb]. rewrite !G. cbn [bind].
  unfold validateCheapestPrice. rewrite isNumerical_undefined. reflexivity.
Qed.

(** A payload the validator accepts is an object whose title is truthy. *)
Lemma validateGameAttributes_ok (body : value) :
  validateGameAttributes body = Ok tt ->
  exists props, body = Some (JObj props) /\ truthy (lookup "title" props) = true.
Proof.
  destruct body as [[| x | x | x | x | props]|]; intros H;
    try (rewrite validateGameAttributes_no_object in H by reflexivity; discriminate H);
    try discriminate H.
  exists props. split; [reflexivity|].
  rewrite validateGameAttributes_object in H.
  destruct (validateCheapestPrice _); [|discriminate]. cbn [bind] in H.
  unfold requiredAttributes, missing in H. cbn [filter field] in H.
  destruct (truthy (lookup "title" props)); [reflexivity|].
  cbn [negb] in H. discriminate.
Qed.

(** C2, as the code has it.  The numeric check of cheapestPrice comes
    first: a payload whose cheapestPrice fails it is rejected with
    NonNumericCheapestPrice, whatever is missing, and one whose
    cheapestPrice cannot be converted to a string makes the check, and
    the validator, throw a TypeError.  When it passes, the validator
    fails with MissingRequiredAttributes exactly when one of title,
    cheapestPrice, deals is falsy, and names the falsy ones in that
    order; cheapestPrice can then only be missing as the number zero.
    An empty list is not falsy: it passes here and is rejected by the
    deal validator as EmptyInput. *)
Theorem validateGameAttributes_reports (props : list (string * json)) :
  let game := JObj props in
  let cheapest := field game "cheapestPrice" in
  (isNumerical cheapest = Ok false ->
     validateGameAttributes (Some game) = Throw (NonNumericCheapestPrice cheapest)) /\
  (printable cheapest = false ->
     validateGameAttributes (Some game) = Throw TypeError) /\
  (isNumerical cheapest = Ok true ->
     validateGameAttributes (Some game) =
       match filter (missing game) requiredAttributes with
       | [] => Ok tt
       | names => Throw (MissingRequiredAttributes names)
       end /\
     (missing game "cheapestPrice" = true ->
        exists neg e, cheapest = Some (JNum (Finite neg 0 e)))) /\
  (field game "deals" = Some (JArr []) ->
     missing game "deals" = false /\
     validateDeals (field game "deals") = Throw EmptyInput).
Proof.
  intros game cheapest.
  pose proof (validateGameAttributes_object props) as V.
  fold game in V. fold cheapest in V.
  split; [|split; [|split]].
  - intros N. rewrite V. unfold validateCheapestPrice. now rewrite N.
  - intros P. rewrite V. unfold validateCheapestPrice.
    rewrite DealFacts.isNumerical_printable, P. reflexivity.
  - intros N. split.
    + rewrite V. unfold validateCheapestPrice. now rewrite N.
    + intros M. unfold missing in M. apply negb_true_iff in M.
      now apply numerical_falsy_zero.
  - intros D. unfold missing. rewrite D. split; reflexivity.
Qed.

Lemma validateGameAttributes_reports_witness :
  validateGameAttributes
    (Some (JObj [("title", JStr ""); ("cheapestPrice", JNum (Finite false 0 0))]))
  = Throw (MissingRequiredAttributes ["title"; "cheapestPrice"; "deals"]).
Proof.
  apply (proj1 (proj1 (proj2 (proj2 (validateGameAttributes_reports
    [("title", JStr ""); ("cheapestPrice", JNum (Finite false 0 0))]))) eq_refl)).
Defined.

(** C2 fails as stated: cheapestPrice is absent, and the failure is
    NonNumericCheapestPrice, not MissingRequiredAttributes. *)
Lemma missing_cheapestPrice_counterexample :
  let game := JObj [("title", JStr "Halo"); ("deals", JArr [text_pair "1" "9.99"])] in
  field game "cheapestPrice" = undefined /\
  validateGameAttributes (Some game) = Throw (NonNumericCheapestPrice undefined) /\
  validateGameAttributes (Some game) <> Throw (MissingRequiredAttributes ["cheapestPrice"]).
Proof.
  split; [reflexivity|]. split; [vm_compute; reflexivity|].
  vm_compute. discriminate.
Qed.

(** An empty deals list is not reported as missing either. *)
Lemma empty_deals_not_reported :
  validateGameAttributes
    (Some (JObj [("title", JStr "Halo"); ("cheapestPrice", JStr "9.99"); ("deals", JArr [])]))
  = Ok tt.
Proof. vm_compute. reflexivity. Qed.

End GameValidator.

(* ================================================================== *)
(** * The create path *)
(* ================================================================== *)

Module CreatePath.
Import Chars Js Err Validate Store App Routes Spec ValueFacts GameValidator Examples.

(** The route after both validators have passed. *)
Lemma post_games_validated (w : world) (body : value) (c : collection)
    (g : game) (pairs : list deal_pair) :
  connects w = true ->
  findOne_ok w = true ->
  destructure body = Ok g ->
  validateGameAttributes body = Ok tt ->
  validateDeals (deals g) = Ok pairs ->
  post_games w body c =
  match findOne (conflicts (gameID g) (title g)) c with
  | Some _ => (Responded 400 (json_error (message DuplicateGame)), c)
  | None =>
      if insertOne_ok w then
        (Responded 201 (json_message ("Game added with ID: " ++ key_text (next_id c))),
         snd (insertOne g c))
      else (Responded 400 (json_error (message StorageFailure)), c)
  end.
Proof.
  intros Hc Hf Hd Hg Hv.
  unfold post_games, handler, bindM, try_catch, connectDB, lift, db_findOne,
    db_insertOne, guarded, ret, raise.
  rewrite Hc, Hd, Hg, Hv, Hf. cbn.
  destruct (findOne _ c); [reflexivity|].
  destruct (insertOne_ok w); reflexivity.
Qed.

Lemma value_eqb_strict (a b : value) :
  primitive a = true -> primitive b = true ->
  value_eqb a b = strict_equals a b.
Proof.
  destruct a as [[| x | x | x | x | x]|], b as [[| y | y | y | y | y]|];
    simpl; intros Pa Pb; try reflexivity; try discriminate.
  apply svz_equal. now apply negb_true_iff.
Qed.

Lemma strict_equals_null_or_missing (a b : value) :
  null_or_missing a = false -> null_or_missing b = true -> strict_equals a b = false.
Proof.
  destruct a as [[| x | x | x | x | x]|], b as [[| y | y | y | y | y]|];
    simpl; intros; congruence.
Qed.

Lemma truthy_not_null (v : value) : truthy v = true -> null_or_missing v = false.
Proof. destruct v as [[| x | x | x | x | x]|]; simpl; intros; congruence. Qed.

(** A primitive value is matched as by [$eq]. *)
Lemma matches_primitive (stored q : value) :
  primitive q = true -> matches stored q = equals stored q.
Proof.
  destruct q as [[| x | x | x | x | x]|]; try reflexivity. discriminate.
Qed.

(** On primitive fields, the query of the create path tests strict
    equality of the titles, or of two gameIDs that are not null. *)
Lemma conflicts_primitive (g t : value) (d : document) :
  primitive g = true -> primitive t = true -> truthy t = true ->
  primitive (gameID (fields d)) = true -> primitive (title (fields d)) = true ->
  conflicts g t d =
  (negb (null_or_missing (gameID (fields d))) && strict_equals (gameID (fields d)) g)
  || strict_equals (title (fields d)) t.
Proof.
  intros Pg Pt Tt Pdg Pdt. unfold conflicts, matches_non_null.
  rewrite (matches_primitive _ _ Pt). unfold equals.
  rewrite (truthy_not_null _ Tt), (value_eqb_strict _ _ Pdt Pt). f_equal.
  destruct (null_or_missing (gameID (fields d))) eqn:Nd; [reflexivity|].
  cbn [negb andb]. destruct (null_or_missing g) eqn:Ng.
  - symmetry. now apply strict_equals_null_or_missing.
  - now apply value_eqb_strict.
Qed.

Lemma validated_title (body : value) (g : game) :
  destructure body = Ok g -> validateGameAttributes body = Ok tt ->
  truthy (title g) = true.
Proof.
  intros D V. destruct (validateGameAttributes_ok _ V) as (props & -> & T).
  cbn in D. injection D as <-. exact T.
Qed.

Lemma destructure_deals (body : value) (g : game) :
  destructure body = Ok g -> get body "deals" = Ok (deals g).
Proof.
  destruct body as [[| x | x | x | x | props]|]; cbn; intros H;
    try discriminate H; injection H as <-; reflexivity.
Qed.

(** C4, as the code has it.  Once both validators have passed, and
    gameID and title are primitive values in the payload and in the
    stored records, creation fails with DuplicateGame, leaving the
    collection as it was, exactly when a stored record has the inbound
    title, or has a gameID that is not null and is the inbound one.  A
    record with the inbound title is enough, whatever the gameIDs
    are. *)
Theorem create_duplicate_exactly (w : world) (body : value) (c : collection)
    (g : game) (pairs : list deal_pair) :
  connects w = true ->
  findOne_ok w = true ->
  destructure body = Ok g ->
  validateGameAttributes body = Ok tt ->
  validateDeals (deals g) = Ok pairs ->
  primitive (gameID g) = true ->
  primitive (title g) = true ->
  (forall d, In d (docs c) ->
     primitive (gameID (fields d)) = true /\ primitive (title (fields d)) = true) ->
  (post_games w body c = (Responded 400 (json_error (message DuplicateGame)), c) <->
   exists d, In d (docs c) /\
     (strict_equals (title (fields d)) (title g) = true \/
      (null_or_missing (gameID (fields d)) = false /\
       strict_equals (gameID (fields d)) (gameID g) = true))) /\
  (forall d, In d (docs c) -> title (fields d) = title g ->
     post_games w body c = (Responded 400 (json_error (message DuplicateGame)), c)).
Proof.
  intros Hc Hf Hd Hg Hv Pg Pt Pc.
  pose proof (validated_title _ _ Hd Hg) as Tt.
  assert (Q : forall d, In d (docs c) ->
    conflicts (gameID g) (title g) d =
    (negb (null_or_missing (gameID (fields d))) && strict_equals (gameID (fields d)) (gameID g))
    || strict_equals (title (fields d)) (title g)).
  { intros d I. destruct (Pc d I). now apply conflicts_primitive. }
  assert (Iff : post_games w body c = (Responded 400 (json_error (message DuplicateGame)), c) <->
    exists d, In d (docs c) /\
      (strict_equals (title (fields d)) (title g) = true \/
       (null_or_missing (gameID (fields d)) = false /\
        strict_equals (gameID (fields d)) (gameID g) = true))).
  { rewrite (post_games_validated w body c g pairs) by assumption.
    unfold findOne. destruct (find _ (docs c)) as [d0|] eqn:F.
    - split; [intros _|reflexivity].
      apply find_some in F as [I K]. exists d0. split; [assumption|].
      rewrite (Q d0 I) in K. apply orb_true_iff in K as [K|K]; [right|now left].
      apply andb_true_iff in K as [K1 K2]. now apply negb_true_iff in K1.
    - split.
      + destruct (insertOne_ok w); intros X; discriminate X.
      + intros (d & I & K). exfalso.
        pose proof (find_none _ _ F d I) as X. rewrite (Q d I) in X.
        apply orb_false_iff in X as [X1 X2].
        destruct K as [K|[K1 K2]]; [congruence|].
        rewrite K1, K2 in X1. discriminate. }
  split; [exact Iff|].
  intros d I E. apply Iff. exists d. split; [assumption|]. left.
  rewrite E. now apply strict_equals_refl.
Qed.

(** The second of two creations with the same title, both without a
    gameID, fails. *)
Lemma create_duplicate_exactly_witness :
  let c := snd (post_games healthy example_body empty) in
  post_games healthy example_body c
  = (Responded 400 (json_error (message DuplicateGame)), c).
Proof.
  intros c.
  refine (proj2 (create_duplicate_exactly healthy example_body c
            {| gameID := None; title := str "Halo"; thumb := None;
               cheapestPrice := str "4.99"; deals := Some example_deals |}
            [{| storeID := str "1"; price := str "9.99" |};
             {| storeID := str "2"; price := str "4.99" |}]
            eq_refl eq_refl eq_refl _ _ eq_refl eq_refl _)
          {| _id := 0; fields := {| gameID := null; title := str "Halo"; thumb := null;
               cheapestPrice := str "4.99"; deals := Some example_deals |} |} _ eq_refl).
  - vm_compute. reflexivity.
  - vm_compute. reflexivity.
  - intros d [<-|[]]. split; reflexivity.
  - vm_compute. left. reflexivity.
Defined.

(** C4 fails as stated: a title that is a document of operators passes
    both validators and goes into the filter as it is, where the store
    reads it as a condition.  The payload has no gameID and no stored
    record has its title, yet the one stored record, whose title is not
    null, is found and creation fails with DuplicateGame. *)
Lemma query_title_counterexample :
  let condition := JObj [("$ne", JNull)] in
  let body := Some (JObj [("title", condition); ("cheapestPrice", JStr "4.99");
                          ("deals", example_deals)]) in
  validateGameAttributes body = Ok tt /\
  validateDeals (Some example_deals)
  = Ok [{| storeID := str "1"; price := str "9.99" |};
        {| storeID := str "2"; price := str "4.99" |}] /\
  destructure body
  = Ok {| gameID := undefined; title := Some condition; thumb := undefined;
          cheapestPrice := str "4.99"; deals := Some example_deals |} /\
  map (fun d => title (fields d)) (docs one_record) = [str "Halo"] /\
  value_eqb (str "Halo") (Some condition) = false /\
  post_games healthy body one_record
  = (Responded 400 (json_error (message DuplicateGame)), one_record).
Proof.
  repeat (split; [vm_compute; reflexivity|]). vm_compute. reflexivity.
Qed.

(** C9.  When a creation succeeds, the record appended to the
    collection holds the deals value of the request body itself, extra
    properties of its entries included; the pairs the deal validator
    returned are not used. *)
Theorem create_stores_submitted_deals (w : world) (body : value) (c : collection)
    (g : game) (pairs : list deal_pair) :
  connects w = true ->
  findOne_ok w = true ->
  insertOne_ok w = true ->
  destructure body = Ok g ->
  validateGameAttributes body = Ok tt ->
  validateDeals (deals g) = Ok pairs ->
  findOne (conflicts (gameID g) (title g)) c = None ->
  exists (submitted : list json) (stored : document),
    get body "deals" = Ok (Some (JArr submitted)) /\
    post_games w body c =
      (Responded 201 (json_message ("Game added with ID: " ++ key_text (next_id c))),
       {| docs := docs c ++ [stored]; next_id := N.succ (next_id c) |}) /\
    _id stored = next_id c /\
    deals (fields stored) = Some (JArr submitted).
Proof.
  intros Hc Hf Hi Hd Hg Hv Hn.
  destruct (deals g) as [[| x | x | x | items | x]|] eqn:D; try discriminate Hv.
  exists items, {| _id := next_id c; fields := bson_game g |}.
  split; [|split; [|split]].
  - rewrite (destructure_deals _ _ Hd). now rewrite D.
  - rewrite (post_games_validated w body c g pairs) by (assumption || now rewrite D).
    rewrite Hn, Hi. reflexivity.
  - reflexivity.
  - cbn. now rewrite D.
Qed.

Lemma create_stores_submitted_deals_witness :
  exists (submitted : list json) (stored : document),
    get example_body "deals" = Ok (Some (JArr submitted)) /\
    post_games healthy example_body empty =
      (Responded 201 (json_message ("Game added with ID: " ++ key_text 0)),
       {| docs := [stored]; next_id := 1 |}) /\
    _id stored = 0%N /\
    deals (fields stored) = Some (JArr submitted).
Proof.
  refine (create_stores_submitted_deals healthy example_body empty
            {| gameID := None; title := str "Halo"; thumb := None;
               cheapestPrice := str "4.99"; deals := Some example_deals |}
            [{| storeID := str "1"; price := str "9.99" |};
             {| storeID := str "2"; price := str "4.99" |}]
            eq_refl eq_refl eq_refl eq_refl _ _ eq_refl).
  - vm_compute. reflexivity.
  - vm_compute. reflexivity.
Defined.

End CreatePath.

(* ================================================================== *)
(** * Bulk delete and the manual fetch *)
(* ================================================================== *)

Module OtherRoutes.
Import Chars Js Err Validate Store App Routes Spec.

(** C10.  With the store reachable, deleting all records answers 200
    with the number of records there were, and on an empty collection
    the count is 0: no count makes the operation fail. *)
Theorem delete_all_reports_count (w : world) (c : collection) :
  connects w = true ->
  deleteMany_ok w = true ->
  delete_games w c =
    (Responded 200
       (json_message (Num.to_string (Finite false (N.of_nat (length (docs c))) 0)
                      ++ " games deleted successfully")),
     {| docs := []; next_id := next_id c |}) /\
  (docs c = [] ->
   delete_games w c = (Responded 200 (json_message "0 games deleted successfully"), c)).
Proof.
  intros Hc Hd.
  assert (E : delete_games w c =
    (Responded 200
       (json_message (Num.to_string (Finite false (N.of_nat (length (docs c))) 0)
                      ++ " games deleted successfully")),
     {| docs := []; next_id := next_id c |})).
  { unfold delete_games, handler, try_catch, bindM, connectDB, db_deleteMany,
      guarded, deleteMany, ret.
    rewrite Hc, Hd. reflexivity. }
  split; [exact E|].
  intros Z. rewrite E. destruct c as [l n]. cbn in Z. subst l. reflexivity.
Qed.

Lemma delete_all_reports_count_witness :
  delete_games healthy empty
  = (Responded 200 (json_message "0 games deleted successfully"), empty).
Proof.
  apply (proj2 (delete_all_reports_count healthy empty eq_refl eq_refl)).
  reflexivity.
Defined.

(** C8 does not hold of the code.  [connectDB] is awaited before the
    [try] block of [fetchAndStoreGame]: when the store cannot be reached
    the function throws, whatever the other collaborators would have
    done, and the route, which has no handler of its own, sends no
    response. *)
Theorem fetch_store_connect_failure (c : collection) (f i u d : bool)
    (answer : result value) :
  let w := {| connects := false; findOne_ok := f; insertOne_ok := i;
              updateOne_ok := u; deleteMany_ok := d; api := answer |} in
  fetchAndStoreGame w c = (Throw StorageFailure, c) /\
  post_fetch_store w c = (Unhandled StorageFailure, c).
Proof. split; reflexivity. Qed.

Ltac reported :=
  do 3 eexists; split;
  [reflexivity | first [left; reflexivity | right; reflexivity]].

(** Once the store is reached, every failure is reported: the function
    returns an object with an [error] or a [message] property. *)
Lemma fetch_store_soft_after_connect (w : world) (c : collection) :
  connects w = true ->
  exists (props : list (string * json)) (text : string) (c' : collection),
    fetchAndStoreGame w c = (Ok (JObj props), c') /\
    (lookup "error" props = Some (JStr text) \/ lookup "message" props = Some (JStr text)).
Proof.
  intros Hc.
  unfold fetchAndStoreGame, try_catch, bindM, connectDB, lift, db_findOne,
    db_insertOne, guarded, ret, json_error, json_message.
  rewrite Hc. cbn -[format_game truthy own_keys findOne insertOne key_text].
  destruct (api w) as [gameData|e]; [|reported].
  destruct (negb (truthy gameData) || (own_keys gameData =? 0)%nat); [reported|].
  destruct (format_game gameData) as [formatted|e]; [|reported].
  destruct (findOne_ok w); [|reported].
  destruct (findOne (fun d => matches (gameID (fields d)) (gameID formatted)) c);
    [reported|].
  destruct (insertOne_ok w); [|reported].
  destruct (insertOne formatted c) as [id c'].
  reported.
Qed.

(** An API answer without the expected shape is reported, not thrown. *)
Lemma fetch_store_soft_after_connect_witness :
  exists (props : list (string * json)) (text : string) (c' : collection),
    fetchAndStoreGame
      {| connects := true; findOne_ok := true; insertOne_ok := true;
         updateOne_ok := true; deleteMany_ok := true;
         api := Ok (Some (JObj [("info", JNull)])) |} empty
    = (Ok (JObj props), c') /\
    (lookup "error" props = Some (JStr text) \/ lookup "message" props = Some (JStr text)).
Proof.
  apply (fetch_store_soft_after_connect
           {| connects := true; findOne_ok := true; insertOne_ok := true;
              updateOne_ok := true; deleteMany_ok := true;
              api := Ok (Some (JObj [("info", JNull)])) |} empty).
  reflexivity.
Defined.

End OtherRoutes.


Module TextFacts.
Import Chars Js Text.

Lemma append_assoc (a b c : string) : (a ++ b) ++ c = a ++ (b ++ c).
Proof. induction a as [|x a IH]; simpl; [reflexivity|now rewrite IH]. Qed.

Lemma append_cancel (p x y : string) : p ++ x = p ++ y -> x = y.
Proof. induction p as [|c p IH]; simpl; intros H; [assumption|]. injection H. auto. Qed.

Lemma unescape_char (c : ascii) (t : string) :
  unescape (escape_char c ++ t) =
  match unescape t with
  | Some (u, rest) => Some (String c u, rest)
  | None => None
  end.
Proof.
  destruct c as [b0 b1 b2 b3 b4 b5 b6 b7].
  destruct b0, b1, b2, b3, b4, b5, b6, b7; reflexivity.
Qed.

Lemma unescape_escape (s r : string) :
  unescape (escape s ++ String dquote r) = Some (s, r).
Proof.
  induction s as [|c s IH]; [reflexivity|].
  cbn [escape]. rewrite append_assoc, unescape_char, IH. reflexivity.
Qed.

(** A quoted string ends where its closing quote stands: what follows
    cannot change what was quoted. *)
Lemma quote_inj (a b r r' : string) :
  quote a ++ r = quote b ++ r' -> a = b /\ r = r'.
Proof.
  unfold quote. cbn [append]. rewrite !append_assoc. cbn [append].
  intros H. injection H as H. apply (f_equal unescape) in H.
  rewrite !unescape_escape in H. injection H. auto.
Qed.

(** ** Lists of [{storeID, price}] pairs of strings *)

Import Spec.

Lemma stringify_text_pair (a b r : string) :
  stringify (text_pair a b) ++ r =
  "{" ++ quote "storeID" ++ ":" ++ quote a ++ "," ++ quote "price" ++ ":" ++ quote b
      ++ String "}" r.
Proof.
  unfold text_pair. cbn [stringify map join fst snd].
  rewrite ?append_assoc. cbn [append]. rewrite ?append_assoc. reflexivity.
Qed.

Lemma text_pair_inj (a b a' b' r r' : string) :
  stringify (text_pair a b) ++ r = stringify (text_pair a' b') ++ r' ->
  a = a' /\ b = b' /\ r = r'.
Proof.
  rewrite !stringify_text_pair. intros H.
  apply (append_cancel ("{" ++ quote "storeID" ++ ":")) in H.
  apply quote_inj in H as [-> H].
  apply (append_cancel ("," ++ quote "price" ++ ":")) in H.
  apply quote_inj in H as [-> H]. injection H. auto.
Qed.

Lemma pair_text_inj (p q : string * string) (r r' : string) :
  pair_text p ++ r = pair_text q ++ r' -> p = q /\ r = r'.
Proof.
  destruct p as [a b], q as [a' b']. unfold pair_text. cbn [fst snd].
  intros H. apply text_pair_inj in H as (-> & -> & ->). auto.
Qed.

Lemma pair_text_head (p : string * string) (r : string) :
  exists t, pair_text p ++ r = String "{" t.
Proof. unfold pair_text. rewrite stringify_text_pair. cbn [append]. eauto. Qed.

Lemma join_pair_texts_inj (l1 : list (string * string)) : forall l2 r1 r2,
  join "," (map pair_text l1) ++ String "]" r1 =
  join "," (map pair_text l2) ++ String "]" r2 ->
  l1 = l2.
Proof.
  induction l1 as [|p l1 IH]; intros l2 r1 r2 H.
  - destruct l2 as [|q l2]; [reflexivity|]. exfalso.
    cbn [map join] in H. destruct (map pair_text l2).
    + destruct (pair_text_head q (String "]" r2)) as [t E].
      rewrite E in H. discriminate.
    + rewrite append_assoc in H.
      destruct (pair_text_head q ("," ++ join "," (s :: l) ++ String "]" r2)) as [t E].
      rewrite append_assoc in H. rewrite E in H. discriminate.
  - destruct l2 as [|q l2].
    + exfalso. cbn [map join] in H. destruct (map pair_text l1).
      * destruct (pair_text_head p (String "]" r1)) as [t E].
        rewrite E in H. discriminate.
      * rewrite ?append_assoc in H.
        destruct (pair_text_head p ("," ++ join "," (s :: l) ++ String "]" r1)) as [t E].
        rewrite E in H. discriminate.
    + destruct l1 as [|p1 l1], l2 as [|q1 l2]; cbn [map join] in H.
      * apply pair_text_inj in H as [-> _]. reflexivity.
      * exfalso. rewrite ?append_assoc in H.
        apply pair_text_inj in H as [_ H]. discriminate.
      * exfalso. rewrite ?append_assoc in H.
        apply pair_text_inj in H as [_ H]. discriminate.
      * rewrite ?append_assoc in H.
        apply pair_text_inj in H as [-> H].
        cbn [append] in H. injection H as H.
        f_equal. apply (IH (q1 :: l2) r1 r2). exact H.
Qed.

(** Two lists of pairs of strings with the same JSON text are the same
    list. *)
Lemma stringify_text_pairs_inj (l1 l2 : list (string * string)) :
  stringify (text_pairs l1) = stringify (text_pairs l2) -> l1 = l2.
Proof.
  unfold text_pairs. cbn [stringify]. rewrite !map_map.
  intros H. cbn [append] in H. injection H as H.
  apply (join_pair_texts_inj l1 l2 "" ""). exact H.
Qed.

(** ** The text of a number holds no double quote *)

Lemma unquoted_app (a b : string) : unquoted (a ++ b) = unquoted a && unquoted b.
Proof.
  induction a as [|c a IH]; simpl; [reflexivity|].
  now rewrite IH, andb_assoc.
Qed.

Lemma unquoted_substring (s : string) : forall n m,
  unquoted s = true -> unquoted (substring n m s) = true.
Proof.
  induction s as [|c s IH]; intros n m H.
  - destruct n, m; reflexivity.
  - simpl in H. apply andb_true_iff in H as [Hc Hs].
    destruct n, m; simpl; auto.
    rewrite Hc. now apply IH.
Qed.

Lemma unquoted_repeat (c : ascii) (n : nat) :
  (c =? dquote)%char = false -> unquoted (repeat_char c n) = true.
Proof. intros H. induction n; simpl; [reflexivity|]. now rewrite H, IHn. Qed.

Lemma unquoted_uint (d : Decimal.uint) : unquoted (NilEmpty.string_of_uint d) = true.
Proof. induction d; simpl; auto. Qed.

Lemma unquoted_digits (n : N) : unquoted (Num.digits n) = true.
Proof.
  unfold Num.digits, NilZero.string_of_uint.
  destruct (N.to_uint n); try reflexivity; apply (unquoted_uint (_ _)).
Qed.

Lemma unquoted_strip_zeros (s : string) :
  unquoted s = true -> unquoted (fst (Num.strip_zeros s)) = true.
Proof.
  induction s as [|c s IH]; [reflexivity|].
  simpl. intros H. apply andb_true_iff in H as [Hc Hs]. specialize (IH Hs).
  destruct (Num.strip_zeros s) as [[|c' s'] z].
  - destruct (c =? "0")%char; simpl; [reflexivity|]. now rewrite Hc.
  - simpl in *. now rewrite Hc.
Qed.

Lemma unquoted_format (ds : string) (n : Z) :
  unquoted ds = true -> unquoted (Num.format ds n) = true.
Proof.
  intros H. unfold Num.format.
  destruct (_ && _).
  { rewrite unquoted_app, H. now apply unquoted_repeat. }
  destruct (_ && _).
  { rewrite !unquoted_app, !unquoted_substring by assumption. reflexivity. }
  destruct (_ && _).
  { rewrite !unquoted_app, H, unquoted_repeat by reflexivity. reflexivity. }
  assert (E : forall x, unquoted ("e" ++ (if (x <? 0)%Z then "-" else "+")
                                   ++ Num.digits (Z.abs_N x)) = true).
  { intros x. rewrite !unquoted_app, unquoted_digits. now destruct (x <? 0)%Z. }
  destruct ds as [|d [|d' r]]; [reflexivity| |].
  - simpl in H. apply andb_true_iff in H as [Hd _].
    cbn [unquoted]. now rewrite Hd, E.
  - cbn [unquoted] in H. apply andb_true_iff in H as [Hd Hr].
    cbn [unquoted]. rewrite Hd. cbn [andb].
    rewrite (unquoted_app "."), (unquoted_app (String d' r)), E.
    cbn [unquoted]. rewrite Hr. reflexivity.
Qed.

Lemma unquoted_number (x : number) : unquoted (Num.to_string x) = true.
Proof.
  destruct x as [|neg|neg m e]; [reflexivity|now destruct neg|].
  unfold Num.to_string. destruct (m =? 0)%N; [reflexivity|].
  pose proof (unquoted_strip_zeros _ (unquoted_digits m)) as H.
  destruct (Num.strip_zeros (Num.digits m)) as [ds z]. cbn [fst] in H.
  rewrite unquoted_app, unquoted_format by assumption. now destruct neg.
Qed.

(** So the text of a number never starts a quoted string. *)
Lemma number_text_not_quoted (x : number) (r r' : string) :
  stringify (JNum x) ++ String "}" r <> String dquote r'.
Proof.
  cbn [stringify].
  assert (U : unquoted (if is_finite x then Num.to_string x else "null") = true)
    by (destruct (is_finite x); [apply unquoted_number|reflexivity]).
  destruct (if is_finite x then Num.to_string x else "null") as [|c t].
  - discriminate.
  - cbn [append]. intros H. injection H as -> _. discriminate.
Qed.

(** ** An entry with a numeric price against one with a string price *)

Lemma join_lead (sep : string) (pre : list string) (x : string) (post : list string) :
  join sep (pre ++ x :: post) = lead sep pre ++ join sep (x :: post).
Proof.
  induction pre as [|y pre IH]; [reflexivity|].
  cbn [app lead]. rewrite !append_assoc, <- IH.
  destruct (pre ++ x :: post)%list eqn:E; [now destruct pre|reflexivity].
Qed.

Lemma join_head (sep x : string) (post : list string) :
  exists t, join sep (x :: post) = x ++ t.
Proof.
  destruct post as [|y post]; cbn [join].
  - exists "". clear. induction x as [|c x IH]; simpl; [reflexivity|now rewrite <- IH].
  - eauto.
Qed.

Lemma stringify_entry (sid p : json) (r : string) :
  stringify (JObj [("storeID", sid); ("price", p)]) ++ r =
  ("{" ++ quote "storeID" ++ ":" ++ stringify sid ++ "," ++ quote "price" ++ ":")
  ++ (stringify p ++ String "}" r).
Proof.
  cbn [stringify map join fst snd]. rewrite ?append_assoc. cbn [append].
  rewrite ?append_assoc. cbn [append]. rewrite ?append_assoc. reflexivity.
Qed.

Lemma stringify_array (l : list json) :
  stringify (JArr l) = "[" ++ join "," (map stringify l) ++ "]".
Proof. reflexivity. Qed.

Lemma number_price_text_differs (pre post post' : list json) (sid : json)
    (x : number) (s : string) :
  stringify (JArr (pre ++ JObj [("storeID", sid); ("price", JNum x)] :: post)) <>
  stringify (JArr (pre ++ JObj [("storeID", sid); ("price", JStr s)] :: post')).
Proof.
  rewrite !stringify_array, !map_app, !map_cons, !join_lead.
  destruct (join_head "," (stringify (JObj [("storeID", sid); ("price", JNum x)]))
              (map stringify post)) as [t ->].
  destruct (join_head "," (stringify (JObj [("storeID", sid); ("price", JStr s)]))
              (map stringify post')) as [t' ->].
  intros H. apply append_cancel in H.
  rewrite !append_assoc in H. apply append_cancel in H.
  rewrite !stringify_entry in H. apply append_cancel in H.
  revert H. change (stringify (JStr s)) with (String dquote (escape s ++ String dquote "")).
  apply number_text_not_quoted.
Qed.

End TextFacts.

(* ================================================================== *)
(** * The equality checker *)
(* ================================================================== *)

Module EqualityChecker.
Import Chars Js Err Validate Store App Routes Spec ValueFacts TextFacts Examples.

Lemma same_text_true (a b : option string) : same_text a b = true <-> a = b.
Proof.
  destruct a as [x|], b as [y|]; simpl; split; intros H;
    try discriminate; try reflexivity.
  - apply String.eqb_eq in H. now subst.
  - injection H as ->. apply String.eqb_refl.
Qed.

Lemma JSON_stringify_some (j : json) : JSON_stringify (Some j) = Some (stringify j).
Proof. reflexivity. Qed.

(** C3 fails as stated: the two records agree on gameID, title, thumb and
    cheapestPrice, and their deals are the same sequence of
    [{storeID, price}]; the entries differ in a further property, and
    the checker answers [false]. *)
Lemma same_pairs_counterexample :
  let e := record (JArr [tagged_deal "a"]) in
  let n := record (JArr [tagged_deal "b"]) in
  gameID e = gameID n /\ title e = title n /\ thumb e = thumb n /\
  cheapestPrice e = cheapestPrice n /\
  pairs_of (deals e) = pairs_of (deals n) /\
  checkIfSameGame e n = false.
Proof. repeat split. Qed.

(** C3, as the code has it.  The checker answers [true] exactly when
    gameID, title, thumb and cheapestPrice are strictly equal and the two
    deals values have the same JSON text, every property of every entry
    included.  It answers [true] on a record and its copy when those four
    fields are primitive.  On deals made only of [{storeID, price}] with
    string values, equal texts means equal sequences, so any change of
    order that changes the sequence gives [false].  An entry with a
    numeric price never matches the entry with a string in its place. *)
Theorem checkIfSameGame_exactly (e n : game) :
  (checkIfSameGame e n = true <->
   strict_equals (gameID e) (gameID n) = true /\
   strict_equals (title e) (title n) = true /\
   strict_equals (thumb e) (thumb n) = true /\
   strict_equals (cheapestPrice e) (cheapestPrice n) = true /\
   JSON_stringify (deals e) = JSON_stringify (deals n)) /\
  (primitive (gameID e) = true -> primitive (title e) = true ->
   primitive (thumb e) = true -> primitive (cheapestPrice e) = true ->
   checkIfSameGame e e = true) /\
  (forall l1 l2,
     deals e = Some (text_pairs l1) -> deals n = Some (text_pairs l2) ->
     (JSON_stringify (deals e) = JSON_stringify (deals n) <-> l1 = l2) /\
     (l1 <> l2 -> checkIfSameGame e n = false)) /\
  (forall pre post post' sid x s,
     deals e = Some (JArr (pre ++ JObj [("storeID", sid); ("price", JNum x)] :: post)) ->
     deals n = Some (JArr (pre ++ JObj [("storeID", sid); ("price", JStr s)] :: post')) ->
     checkIfSameGame e n = false).
Proof.
  assert (Iff : forall a b : game, checkIfSameGame a b = true <->
    strict_equals (gameID a) (gameID b) = true /\
    strict_equals (title a) (title b) = true /\
    strict_equals (thumb a) (thumb b) = true /\
    strict_equals (cheapestPrice a) (cheapestPrice b) = true /\
    JSON_stringify (deals a) = JSON_stringify (deals b)).
  { intros a b. unfold checkIfSameGame.
    rewrite !andb_true_iff, same_text_true. tauto. }
  assert (No : forall a b : game,
    JSON_stringify (deals a) <> JSON_stringify (deals b) -> checkIfSameGame a b = false).
  { intros a b H. destruct (checkIfSameGame a b) eqn:C; [|reflexivity].
    apply Iff in C. tauto. }
  split; [apply Iff|]. split; [|split].
  - intros P1 P2 P3 P4. apply Iff.
    rewrite !strict_equals_refl by assumption. auto.
  - intros l1 l2 D1 D2.
    assert (T : JSON_stringify (deals e) = JSON_stringify (deals n) <-> l1 = l2).
    { rewrite D1, D2. rewrite !JSON_stringify_some. split.
      - intros H. apply stringify_text_pairs_inj. congruence.
      - now intros ->. }
    split; [exact T|]. intros NE. apply No. now rewrite T.
  - intros pre post post' sid x s D1 D2. apply No. rewrite D1, D2.
    rewrite !JSON_stringify_some. intros H.
    apply (number_price_text_differs pre post post' sid x s). congruence.
Qed.

(** Exchanging two deals of different stores changes the answer. *)
Lemma checkIfSameGame_exactly_witness :
  checkIfSameGame (record (text_pairs [("1", "9.99"); ("2", "4.99")]))
                  (record (text_pairs [("2", "4.99"); ("1", "9.99")])) = false.
Proof.
  refine (proj2 (proj1 (proj2 (proj2 (checkIfSameGame_exactly
           (record (text_pairs [("1", "9.99"); ("2", "4.99")]))
           (record (text_pairs [("2", "4.99"); ("1", "9.99")])))))
           [("1", "9.99"); ("2", "4.99")] [("2", "4.99"); ("1", "9.99")]
           eq_refl eq_refl) _).
  discriminate.
Defined.

End EqualityChecker.

(* ================================================================== *)
(** * The update path *)
(* ================================================================== *)

Module UpdatePath.
Import Chars Js Err Validate Store App Routes Spec ValueFacts TextFacts Examples.

(** The route once both validators have passed and the record is found. *)
Lemma put_game_validated (w : world) (id : string) (k : N) (body : value)
    (c : collection) (g : game) (pairs : list deal_pair) (d : document) :
  connects w = true ->
  findOne_ok w = true ->
  destructure body = Ok g ->
  validateGameAttributes body = Ok tt ->
  validateDeals (deals g) = Ok pairs ->
  ObjectId id = Ok k ->
  findOne (fun d => (_id d =? k)%N) c = Some d ->
  put_game w id body c =
  if checkIfSameGame (fields d) g
  then (Responded 400 (json_error (message NoChange)), c)
  else if updateOne_ok w then
    (if (fst (updateOne k g c) =? 0)%N
     then Responded 400 (json_error (message NotFoundOrUnchanged))
     else Responded 200 (json_message ("Game updated with ID: " ++ id)),
     snd (updateOne k g c))
  else (Responded 400 (json_error (message StorageFailure)), c).
Proof.
  intros Hc Hf Hd Hg Hv Ho Hfind.
  unfold put_game, handler, bindM, try_catch, connectDB, lift, fetchExistingGame,
    updateGame, db_findOne, db_updateOne, guarded, ret, raise, bindM.
  rewrite Hc, Hd, Hg, Hv, Ho, Hf, Hfind.
  destruct (checkIfSameGame (fields d) g); [reflexivity|].
  destruct (updateOne_ok w); [|reflexivity].
  destruct (updateOne k g c) as [n c']. cbn [fst snd].
  destruct (n =? 0)%N; reflexivity.
Qed.

Lemma set_first_same (k : N) (g : game) (l : list document) (d : document) :
  find (fun d => (_id d =? k)%N) l = Some d ->
  game_eqb (fields d) (bson_game g) = true ->
  set_first k g l = (0%N, l).
Proof.
  induction l as [|x l IH]; [discriminate|].
  cbn [find set_first]. destruct (_id x =? k)%N.
  - intros [= ->] E. now rewrite E.
  - intros F E. now rewrite (IH F E).
Qed.

Lemma set_first_changed (k : N) (g : game) (l : list document) (d : document) :
  find (fun d => (_id d =? k)%N) l = Some d ->
  game_eqb (fields d) (bson_game g) = false ->
  exists l',
    set_first k g l = (1%N, l') /\
    find (fun d => (_id d =? k)%N) l' = Some {| _id := k; fields := bson_game g |} /\
    map _id l' = map _id l.
Proof.
  induction l as [|x l IH]; [discriminate|].
  cbn [find set_first]. destruct (_id x =? k)%N eqn:K.
  - intros [= ->] E. rewrite E. eexists. split; [reflexivity|].
    cbn [find _id map]. rewrite N.eqb_refl. apply N.eqb_eq in K.
    split; [reflexivity|]. now rewrite K.
  - intros F E. destruct (IH F E) as (l' & S & F' & M).
    rewrite S. eexists. split; [reflexivity|].
    cbn [find map]. rewrite K, M. auto.
Qed.

(** A present primitive the stored value is not strictly equal to is a
    change for the store. *)
Lemma strict_differs_stored (a : value) (j : json) :
  primitive (Some j) = true ->
  strict_equals a (Some j) = false ->
  value_eqb a (bson (Some j)) = false.
Proof.
  destruct a as [[| x | x | x | x | x]|], j as [| y | y | y | y | y];
    simpl; intros P H; try reflexivity; try discriminate; try assumption.
  rewrite svz_equal; [assumption|]. now apply negb_true_iff.
Qed.

Lemma all2_pairs_eq (l1 : list (string * string)) : forall l2,
  all2 json_eqb (map (fun p => text_pair (fst p) (snd p)) l1)
                (map (fun p => text_pair (fst p) (snd p)) l2) = true ->
  l1 = l2.
Proof.
  induction l1 as [|[a b] l1 IH]; intros [|[a' b'] l2] H; try discriminate;
    [reflexivity|].
  cbn [map all2 fst snd] in H. apply andb_true_iff in H as [H1 H2].
  unfold text_pair in H1. cbn [json_eqb all2 fst snd] in H1.
  rewrite !andb_true_r in H1. apply andb_true_iff in H1 as [Ha Hb].
  cbn [String.eqb Ascii.eqb Bool.eqb andb] in Ha, Hb.
  apply String.eqb_eq in Ha, Hb. subst. f_equal. now apply IH.
Qed.

Lemma read_differs_checker (f : scalar_field) (e g : game) :
  strict_equals (read f e) (read f g) = false -> checkIfSameGame e g = false.
Proof.
  unfold checkIfSameGame. destruct f; cbn [read]; intros ->;
    rewrite ?andb_false_r; reflexivity.
Qed.

Lemma read_differs_store (f : scalar_field) (e g : game) :
  value_eqb (read f e) (bson (read f g)) = false -> game_eqb e (bson_game g) = false.
Proof.
  unfold game_eqb, bson_game. cbn [gameID title thumb cheapestPrice deals].
  destruct f; cbn [read]; intros ->; rewrite ?andb_false_r; reflexivity.
Qed.

Lemma update_replaces (w : world) (id : string) (k : N) (body : value)
    (c : collection) (g : game) (pairs : list deal_pair) (d : document) :
  connects w = true ->
  findOne_ok w = true ->
  updateOne_ok w = true ->
  destructure body = Ok g ->
  validateGameAttributes body = Ok tt ->
  validateDeals (deals g) = Ok pairs ->
  ObjectId id = Ok k ->
  findOne (fun d => (_id d =? k)%N) c = Some d ->
  checkIfSameGame (fields d) g = false ->
  game_eqb (fields d) (bson_game g) = false ->
  exists c',
    put_game w id body c =
      (Responded 200 (json_message ("Game updated with ID: " ++ id)), c') /\
    findOne (fun d => (_id d =? k)%N) c' = Some {| _id := k; fields := bson_game g |} /\
    map _id (docs c') = map _id (docs c).
Proof.
  intros Hc Hf Hu Hd Hg Hv Ho Hfind Hsame Hchg.
  rewrite (put_game_validated w id k body c g pairs d) by assumption.
  rewrite Hsame, Hu. unfold updateOne, findOne in *.
  destruct (set_first_changed k g (docs c) d Hfind Hchg) as (l' & S & F & M).
  rewrite S. cbn [fst snd N.eqb]. eexists. split; [reflexivity|].
  cbn [docs]. auto.
Qed.

(** C5 fails as stated.  The record was stored with a null thumb and
    the payload, the same in every other field, leaves thumb out.  The
    update fails, but not with NoChange, and nothing is replaced:
    [null === undefined] is false, and the store finds nothing to
    modify. *)
Lemma omitted_thumb_counterexample :
  let body := Some (JObj [("gameID", JNull); ("title", JStr "Halo");
                          ("cheapestPrice", JStr "4.99");
                          ("deals", example_deals)]) in
  exists g,
    destructure body = Ok g /\
    gameID g = gameID stored_halo /\ title g = title stored_halo /\
    cheapestPrice g = cheapestPrice stored_halo /\ deals g = deals stored_halo /\
    thumb stored_halo = null /\ thumb g = undefined /\
    put_game healthy (key_text 0) body one_record
    = (Responded 400 (json_error (message NotFoundOrUnchanged)), one_record).
Proof.
  eexists. split; [reflexivity|]. repeat (split; [reflexivity|]).
  vm_compute. reflexivity.
Qed.

(** The payload that created a record, sent again as an update of it,
    is answered likewise when it leaves gameID and thumb out. *)
Lemma resubmitted_payload_not_NoChange :
  let c := snd (post_games healthy example_body empty) in
  put_game healthy (key_text 0) example_body c
  = (Responded 400 (json_error (message NotFoundOrUnchanged)), c).
Proof. vm_compute. reflexivity. Qed.

(** C5, as the code has it.  For a valid payload and the record found
    under the key: when gameID, title, thumb and cheapestPrice are
    primitive and the payload has the stored value in each, and its
    deals value is the stored one, the update fails with NoChange and
    the collection is unchanged.  When the payload gives one of the
    four fields a primitive value that is not strictly equal to the
    stored one, or gives deals, as pairs of strings, a sequence other
    than the stored one, the update succeeds and the record under the
    key holds the payload's fields. *)
Theorem update_no_change_or_replace (w : world) (id : string) (k : N)
    (body : value) (c : collection) (g : game) (pairs : list deal_pair)
    (d : document) :
  connects w = true ->
  findOne_ok w = true ->
  updateOne_ok w = true ->
  destructure body = Ok g ->
  validateGameAttributes body = Ok tt ->
  validateDeals (deals g) = Ok pairs ->
  ObjectId id = Ok k ->
  findOne (fun d => (_id d =? k)%N) c = Some d ->
  ((forall f, primitive (read f (fields d)) = true /\ read f g = read f (fields d)) ->
   deals g = deals (fields d) ->
   put_game w id body c = (Responded 400 (json_error (message NoChange)), c)) /\
  (forall f j,
     read f g = Some j -> primitive (Some j) = true ->
     strict_equals (read f (fields d)) (Some j) = false ->
     exists c',
       put_game w id body c =
         (Responded 200 (json_message ("Game updated with ID: " ++ id)), c') /\
       findOne (fun d => (_id d =? k)%N) c' = Some {| _id := k; fields := bson_game g |} /\
       map _id (docs c') = map _id (docs c)) /\
  (forall l1 l2,
     deals (fields d) = Some (text_pairs l1) -> deals g = Some (text_pairs l2) ->
     l1 <> l2 ->
     exists c',
       put_game w id body c =
         (Responded 200 (json_message ("Game updated with ID: " ++ id)), c') /\
       findOne (fun d => (_id d =? k)%N) c' = Some {| _id := k; fields := bson_game g |} /\
       map _id (docs c') = map _id (docs c)).
Proof.
  intros Hc Hf Hu Hd Hg Hv Ho Hfind. split; [|split].
  - intros Same D.
    rewrite (put_game_validated w id k body c g pairs d) by assumption.
    replace (checkIfSameGame (fields d) g) with true; [reflexivity|].
    symmetry. unfold checkIfSameGame. rewrite D.
    destruct (Same GameID) as [P1 E1], (Same Title) as [P2 E2],
      (Same Thumb) as [P3 E3], (Same CheapestPrice) as [P4 E4].
    cbn [read] in *. rewrite E1, E2, E3, E4.
    rewrite !strict_equals_refl by assumption.
    destruct (JSON_stringify (deals (fields d))); simpl; [apply String.eqb_refl|reflexivity].
  - intros f j R P S.
    apply (update_replaces w id k body c g pairs d); try assumption.
    + apply (read_differs_checker f). now rewrite R.
    + apply (read_differs_store f). rewrite R. now apply strict_differs_stored.
  - intros l1 l2 D1 D2 NE.
    apply (update_replaces w id k body c g pairs d); try assumption.
    + unfold checkIfSameGame. rewrite D1, D2.
      replace (same_text _ _) with false; [now rewrite andb_false_r|].
      symmetry. cbn [JSON_stringify option_map same_text].
      apply String.eqb_neq. intros E. now apply NE, stringify_text_pairs_inj.
    + unfold game_eqb, bson_game. cbn [gameID title thumb cheapestPrice deals].
      rewrite D1, D2.
      replace (value_eqb _ (bson (Some (text_pairs l2)))) with false;
        [now rewrite andb_false_r|].
      symmetry. cbn [bson value_eqb]. unfold text_pairs. cbn [json_eqb].
      destruct (all2 json_eqb _ _) eqn:E; [|reflexivity].
      now apply all2_pairs_eq in E.
Qed.

(** A payload that is the stored record but for its thumb replaces it. *)
Lemma update_no_change_or_replace_witness :
  let body := Some (JObj [("gameID", JNull); ("title", JStr "Halo");
                          ("thumb", JStr "halo.jpg"); ("cheapestPrice", JStr "4.99");
                          ("deals", example_deals)]) in
  exists c',
    put_game healthy (key_text 0) body one_record =
      (Responded 200 (json_message ("Game updated with ID: " ++ key_text 0)), c') /\
    findOne (fun d => (_id d =? 0)%N) c' =
      Some {| _id := 0;
              fields := {| gameID := null; title := str "Halo"; thumb := str "halo.jpg";
                           cheapestPrice := str "4.99";
                           deals := Some example_deals |} |} /\
    map _id (docs c') = map _id (docs one_record).
Proof.
  intros body.
  refine (proj1 (proj2 (update_no_change_or_replace healthy (key_text 0) 0 body one_record
            {| gameID := null; title := str "Halo"; thumb := str "halo.jpg";
               cheapestPrice := str "4.99"; deals := Some example_deals |}
            [{| storeID := str "1"; price := str "9.99" |};
             {| storeID := str "2"; price := str "4.99" |}]
            {| _id := 0; fields := stored_halo |}
            eq_refl eq_refl eq_refl eq_refl _ _ _ eq_refl))
          Thumb (JStr "halo.jpg") eq_refl eq_refl eq_refl).
  - vm_compute. reflexivity.
  - vm_compute. reflexivity.
  - vm_compute. reflexivity.
Defined.

End UpdatePath.

(* ================================================================== *)
(** * The deals validator, exactly *)
(* ================================================================== *)

Module DealChecks.
Import Chars Js Err Validate Store Spec Text Terms ValueFacts NumberFacts DealFacts.
Local Open Scope result_scope.

Lemma get_readable (entry : json) (k : string) :
  readable entry = true -> get (Some entry) k = Ok (field entry k).
Proof. destruct entry; simpl; intro H; try reflexivity; discriminate. Qed.

Lemma isDealValid_readable (entry : json) :
  readable entry = true ->
  isDealValid (Some entry) =
  Ok (negb (blank (field entry "storeID")) && negb (blank (field entry "price"))).
Proof.
  intro R. unfold isDealValid. rewrite !(get_readable _ _ R). cbn [bind].
  unfold blank. f_equal.
  rewrite !Bool.negb_orb, !Bool.andb_assoc. reflexivity.
Qed.

Lemma passes_object (entry : json) : passes entry = true -> is_object entry = true.
Proof.
  unfold passes. intro H.
  apply Bool.andb_true_iff in H as [H _].
  apply Bool.andb_true_iff in H as [H _].
  apply Bool.andb_true_iff in H as [H _]. exact H.
Qed.

Lemma passes_objects (items : list json) :
  forallb passes items = true -> forallb is_object items = true.
Proof.
  induction items as [|e r IH]; simpl; [reflexivity|].
  intro H. apply Bool.andb_true_iff in H as [H1 H2].
  rewrite (passes_object _ H1), (IH H2). reflexivity.
Qed.

Lemma object_readable (entry : json) : is_object entry = true -> readable entry = true.
Proof. destruct entry; simpl; congruence. Qed.

(** One entry through the attribute loop. *)
Lemma validateDealAttributes_cons (entry : json) (rest : list json) :
  validateDealAttributes (entry :: rest) =
  match entry with
  | JNull => Throw TypeError
  | _ =>
      if blank (field entry "storeID") || blank (field entry "price")
      then Throw InvalidDeal
      else
        match isNumerical (field entry "price") with
        | Throw e => Throw e
        | Ok true => validateDealAttributes rest
        | Ok false => Throw (NonNumericPrice (field entry "price"))
        end
  end.
Proof.
  destruct (readable entry) eqn:R.
  - cbn [validateDealAttributes].
    rewrite (isDealValid_readable _ R), (get_readable _ _ R). cbn [bind].
    rewrite <- Bool.negb_orb.
    destruct entry; try discriminate R;
      destruct (blank _ || blank _); cbn [negb]; try reflexivity;
      destruct (isNumerical _) as [[|]|err]; reflexivity.
  - destruct entry; try discriminate R. reflexivity.
Qed.

Lemma numeric_undefined : numeric None = false.
Proof. vm_compute. reflexivity. Qed.

Lemma numerical_object (entry : json) :
  numeric (field entry "price") = true -> is_object entry = true.
Proof.
  pose proof numeric_undefined as U.
  destruct entry; cbn [field is_object]; try reflexivity; congruence.
Qed.

(** An entry that is no object has no price, so it is not numeric. *)
Lemma passes_false (entry : json) :
  passes entry = false -> readable entry = true ->
  blank (field entry "storeID") || blank (field entry "price") = false ->
  numeric (field entry "price") = false.
Proof.
  unfold passes. intros P R B.
  apply Bool.orb_false_iff in B as [B1 B2]. rewrite B1, B2 in P.
  destruct (numeric (field entry "price")) eqn:N; [|reflexivity].
  rewrite (numerical_object _ N) in P. discriminate P.
Qed.

Lemma validateDealAttributes_passes (items : list json) :
  validateDealAttributes items = Ok tt <-> forallb passes items = true.
Proof.
  induction items as [|e r IH].
  - simpl. split; reflexivity.
  - rewrite validateDealAttributes_cons. cbn [forallb]. unfold passes at 1.
    rewrite Bool.andb_true_iff, <- IH.
    destruct (blank (field e "storeID")) eqn:B1;
      [ cbn [orb negb andb]; rewrite Bool.andb_false_r;
        split; [destruct e; discriminate | intros [H _]; discriminate] |].
    destruct (blank (field e "price")) eqn:B2;
      [ cbn [orb negb andb]; rewrite Bool.andb_false_r;
        split; [destruct e; discriminate | intros [H _]; discriminate] |].
    cbn [orb negb]. rewrite !Bool.andb_true_r.
    destruct (numeric (field e "price")) eqn:P.
    + rewrite (numerical_object _ P). cbn [andb].
      rewrite (proj1 (numeric_true _) P).
      split.
      * intro H. split; [reflexivity|]. destruct e; try exact H; discriminate H.
      * intros [_ H]. destruct e; try exact H.
        discriminate (numerical_object _ P).
    + rewrite Bool.andb_false_r.
      split; [|intros [H _]; discriminate].
      unfold numeric in P.
      destruct (isNumerical (field e "price")) as [[|]|err];
        [discriminate P | |]; destruct e; discriminate.
Qed.

Lemma existsb_forallb {A : Type} (f : A -> bool) (l : list A) :
  existsb f l = negb (forallb (fun a => negb (f a)) l).
Proof.
  induction l as [|a r IH]; simpl; [reflexivity|].
  rewrite IH. destruct (f a); reflexivity.
Qed.

Lemma forallb_both {A : Type} (f g : A -> bool) (l : list A) :
  forallb (fun a => f a && g a) l = forallb f l && forallb g l.
Proof.
  induction l as [|a r IH]; cbn [forallb]; [reflexivity|].
  rewrite IH. destruct (f a), (g a), (forallb f r); reflexivity.
Qed.

Lemma unseen_cons (b : value) (seen ids : list value) :
  unseen (b :: seen) ids =
  forallb (fun b' => negb (same_value_zero b' b)) ids && unseen seen ids.
Proof.
  unfold unseen.
  rewrite <- (forallb_both (fun b' => negb (same_value_zero b' b))). reflexivity.
Qed.

(** The loop over the [Set], for entries that can be read: it answers
    whether no storeID is one already seen and no two are the same. *)
Lemma hasUniqueStoreIDs_from_apart (items : list json) : forall seen,
  forallb readable items = true ->
  hasUniqueStoreIDs_from seen items =
  Ok (unseen seen (storeIDs items) && apart (storeIDs items)).
Proof.
  induction items as [|e r IH]; intros seen R.
  - reflexivity.
  - cbn [forallb] in R. apply Bool.andb_true_iff in R as [Re Rr].
    cbn [hasUniqueStoreIDs_from]. rewrite (get_readable _ _ Re). cbn [bind].
    change (storeIDs (e :: r)) with (field e "storeID" :: storeIDs r).
    cbn [apart]. unfold unseen at 1. cbn [forallb]. fold (unseen seen (storeIDs r)).
    rewrite existsb_forallb.
    destruct (forallb (fun a => negb (same_value_zero (field e "storeID") a)) seen) eqn:F;
      cbn [negb andb]; [|reflexivity].
    rewrite (IH _ Rr), unseen_cons. f_equal.
    destruct (forallb _ (storeIDs r)); destruct (unseen seen (storeIDs r));
      destruct (apart (storeIDs r)); reflexivity.
Qed.

Lemma objects_readable (items : list json) :
  forallb is_object items = true -> forallb readable items = true.
Proof.
  induction items as [|e r IH]; simpl; [reflexivity|].
  intro H. apply Bool.andb_true_iff in H as [H1 H2].
  rewrite (object_readable _ H1), (IH H2). reflexivity.
Qed.

Lemma unseen_nil (ids : list value) : unseen [] ids = true.
Proof. unfold unseen. induction ids; simpl; auto. Qed.

(** What the validator answers once the attribute loop has passed. *)
Lemma validateDeals_passed (e : json) (r : list json) :
  forallb passes (e :: r) = true ->
  validateDeals (Some (JArr (e :: r))) =
  if apart (storeIDs (e :: r)) then Ok (map pair_of (e :: r))
  else Throw DuplicateStoreID.
Proof.
  intro P. unfold validateDeals. cbn [length Nat.eqb].
  rewrite (proj2 (validateDealAttributes_passes _) P). cbn [bind].
  unfold hasUniqueStoreIDs.
  rewrite (hasUniqueStoreIDs_from_apart _ _ (objects_readable _ (passes_objects _ P))).
  rewrite unseen_nil. cbn [andb bind].
  destruct (apart _); cbn [negb]; [|reflexivity].
  apply normalize_all_objects, passes_objects, P.
Qed.

Lemma validateDeals_ok_inv (items : list json) (pairs : list deal_pair) :
  validateDeals (Some (JArr items)) = Ok pairs ->
  items <> [] /\ forallb passes items = true /\
  apart (storeIDs items) = true /\ pairs = map pair_of items.
Proof.
  intro H. destruct items as [|e r]; [discriminate H|].
  split; [discriminate|].
  destruct (forallb passes (e :: r)) eqn:P.
  - rewrite (validateDeals_passed _ _ P) in H.
    destruct (apart _); [|discriminate H].
    injection H as <-. auto.
  - exfalso. unfold validateDeals in H. cbn [length Nat.eqb] in H.
    destruct (validateDealAttributes (e :: r)) as [[]|err] eqn:V; [|discriminate H].
    apply validateDealAttributes_passes in V. congruence.
Qed.

Lemma validateDeals_ok (items : list json) :
  items <> [] -> forallb passes items = true -> apart (storeIDs items) = true ->
  validateDeals (Some (JArr items)) = Ok (map pair_of items).
Proof.
  intros N P A. destruct items as [|e r]; [congruence|].
  rewrite (validateDeals_passed _ _ P), A. reflexivity.
Qed.

(** The deals validator accepts a value exactly when it is a non-empty
    array whose entries are all objects with a storeID and a price that
    are neither null nor the empty string, the price numeric, and no two
    storeIDs the same for a [Set]; what it returns is then the storeID
    and price of each entry, in order.  An entry may lack the storeID
    altogether. *)
Theorem validateDeals_accepts_exactly (deals : value) (pairs : list deal_pair) :
  validateDeals deals = Ok pairs <->
  exists items,
    deals = Some (JArr items) /\ items <> [] /\
    forallb passes items = true /\ apart (storeIDs items) = true /\
    pairs = map pair_of items.
Proof.
  split.
  - intro H.
    destruct deals as [[| | | |items|]|]; try discriminate H.
    exists items. split; [reflexivity|]. exact (validateDeals_ok_inv _ _ H).
  - intros (items & -> & N & P & A & ->). exact (validateDeals_ok _ N P A).
Qed.

Lemma forallb_perm {A : Type} (f : A -> bool) (l l' : list A) :
  Permutation l l' -> forallb f l = forallb f l'.
Proof.
  induction 1 as [|x l l' _ IH|x y l|l l' l'' _ IH1 _ IH2]; cbn [forallb].
  - reflexivity.
  - rewrite IH. reflexivity.
  - destruct (f x), (f y); reflexivity.
  - congruence.
Qed.

Lemma apart_perm (l l' : list value) : Permutation l l' -> apart l = apart l'.
Proof.
  induction 1 as [|x l l' P IH|x y l|l l' l'' _ IH1 _ IH2]; cbn [apart forallb].
  - reflexivity.
  - rewrite IH, (forallb_perm _ _ _ P). reflexivity.
  - rewrite (svz_sym x y).
    destruct (same_value_zero y x); cbn [negb andb]; [reflexivity|].
    destruct (forallb (fun b => negb (same_value_zero b y)) l);
      destruct (forallb (fun b => negb (same_value_zero b x)) l); reflexivity.
  - congruence.
Qed.

(** Whether the deals validator accepts an array does not depend on the
    order of its entries. *)
Theorem validateDeals_any_order (items items' : list json) :
  Permutation items items' ->
  validateDeals (Some (JArr items)) = Ok (map pair_of items) ->
  validateDeals (Some (JArr items')) = Ok (map pair_of items').
Proof.
  intros P H. apply validateDeals_ok_inv in H as (N & Q & A & _).
  apply validateDeals_ok.
  - intros ->. apply Permutation_sym, Permutation_nil in P. exact (N P).
  - rewrite <- (forallb_perm _ _ _ P). exact Q.
  - unfold storeIDs in *.
    rewrite <- (apart_perm _ _ (Permutation_map (fun entry => field entry "storeID") P)).
    exact A.
Qed.

Lemma validateDeals_any_order_witness :
  validateDeals (Some (JArr [text_pair "2" "4.99"; text_pair "1" "9.99"]))
  = Ok [{| storeID := str "2"; price := str "4.99" |};
        {| storeID := str "1"; price := str "9.99" |}].
Proof.
  apply (validateDeals_any_order [text_pair "1" "9.99"; text_pair "2" "4.99"]).
  - apply perm_swap.
  - vm_compute. reflexivity.
Defined.

Lemma validateDealAttributes_app (pre rest : list json) :
  forallb passes pre = true ->
  validateDealAttributes (pre ++ rest) = validateDealAttributes rest.
Proof.
  induction pre as [|e r IH]; [reflexivity|].
  cbn [forallb]. intro H. apply Bool.andb_true_iff in H as [P Q].
  change ((e :: r) ++ rest)%list with (e :: (r ++ rest)%list).
  rewrite validateDealAttributes_cons, (IH Q).
  pose proof (passes_object _ P) as O.
  unfold passes in P.
  apply Bool.andb_true_iff in P as [P N].
  apply Bool.andb_true_iff in P as [P B2].
  apply Bool.andb_true_iff in P as [_ B1].
  apply Bool.negb_true_iff in B1, B2. apply numeric_true in N. rewrite B1, B2, N.
  destruct e; try discriminate O. reflexivity.
Qed.

(** The deals validator reports the first entry that fails the attribute
    checks, whatever follows it and whether or not storeIDs repeat: a
    null entry makes it throw a TypeError, a null or empty storeID or
    price is an invalid deal, a price that cannot be converted to a
    string makes the numeric check throw a TypeError, and anything else
    (an entry that is no object included) is a non-numeric price. *)
Theorem validateDeals_first_offender (pre post : list json) (e : json) :
  forallb passes pre = true ->
  passes e = false ->
  validateDeals (Some (JArr (pre ++ e :: post))) =
  match e with
  | JNull => Throw TypeError
  | _ =>
      if blank (field e "storeID") || blank (field e "price")
      then Throw InvalidDeal
      else if printable (field e "price")
      then Throw (NonNumericPrice (field e "price"))
      else Throw TypeError
  end.
Proof.
  intros P F. unfold validateDeals.
  replace (length (pre ++ e :: post) =? 0)%nat with false
    by (symmetry; apply Nat.eqb_neq; rewrite length_app; cbn [length]; lia).
  rewrite (validateDealAttributes_app _ _ P), validateDealAttributes_cons.
  destruct (readable e) eqn:R; [|destruct e; try discriminate R; reflexivity].
  destruct (blank (field e "storeID") || blank (field e "price")) eqn:B.
  - destruct e; reflexivity.
  - rewrite isNumerical_printable, (passes_false _ F R B).
    destruct (printable (field e "price")); destruct e; reflexivity.
Qed.

Lemma validateDeals_first_offender_witness :
  validateDeals
    (Some (JArr [text_pair "1" "9.99"; text_pair "1" "4.99";
                 JObj [("storeID", JStr "3");
                       ("price", JArr [JObj [("toString", JStr "x")]])];
                 JNull]))
  = Throw TypeError.
Proof.
  apply (validateDeals_first_offender [text_pair "1" "9.99"; text_pair "1" "4.99"]
           [JNull]
           (JObj [("storeID", JStr "3");
                  ("price", JArr [JObj [("toString", JStr "x")]])]));
    vm_compute; reflexivity.
Defined.

(** The storeID check alone, on entries none of which is null: it
    answers whether no two storeIDs are the same for a [Set]. *)
Theorem hasUniqueStoreIDs_exactly (items : list json) :
  forallb readable items = true ->
  hasUniqueStoreIDs items = Ok (apart (storeIDs items)).
Proof.
  intro R. unfold hasUniqueStoreIDs.
  rewrite (hasUniqueStoreIDs_from_apart _ _ R), unseen_nil. reflexivity.
Qed.

Lemma hasUniqueStoreIDs_exactly_witness :
  hasUniqueStoreIDs [JObj [("storeID", JNum (Finite false 1 0))];
                     JObj [("storeID", JStr "1")];
                     JObj [("storeID", JNum (Finite false 10 (-1)))]]
  = Ok false.
Proof.
  apply (hasUniqueStoreIDs_exactly
           [JObj [("storeID", JNum (Finite false 1 0))];
            JObj [("storeID", JStr "1")];
            JObj [("storeID", JNum (Finite false 10 (-1)))]]).
  reflexivity.
Defined.

(** An entry with no storeID at all passes the attribute checks when its
    price is numeric, and is returned with an undefined storeID; two
    such entries repeat a storeID. *)
Theorem validateDeals_absent_storeID (props props' : list (string * json)) :
  lookup "storeID" props = None ->
  lookup "storeID" props' = None ->
  blank (lookup "price" props) = false ->
  blank (lookup "price" props') = false ->
  isNumerical (lookup "price" props) = Ok true ->
  isNumerical (lookup "price" props') = Ok true ->
  validateDeals (Some (JArr [JObj props]))
  = Ok [{| storeID := undefined; price := lookup "price" props |}] /\
  validateDeals (Some (JArr [JObj props; JObj props'])) = Throw DuplicateStoreID.
Proof.
  intros S S' B B' N N'.
  apply numeric_true in N, N'.
  assert (P : passes (JObj props) = true)
    by (unfold passes; cbn [is_object field]; rewrite S, B, N; reflexivity).
  assert (P' : passes (JObj props') = true)
    by (unfold passes; cbn [is_object field]; rewrite S', B', N'; reflexivity).
  split.
  - rewrite validateDeals_passed by (cbn [forallb]; rewrite P; reflexivity).
    unfold pair_of. cbn [map field]. rewrite S. reflexivity.
  - rewrite validateDeals_passed by (cbn [forallb]; rewrite P, P'; reflexivity).
    unfold storeIDs. cbn [map field apart forallb]. rewrite S, S'. reflexivity.
Qed.

Lemma validateDeals_absent_storeID_witness :
  validateDeals (Some (JArr [JObj [("price", JStr "9.99")]]))
  = Ok [{| storeID := undefined; price := str "9.99" |}] /\
  validateDeals (Some (JArr [JObj [("price", JStr "9.99")];
                             JObj [("price", JNum (Finite false 5 0))]]))
  = Throw DuplicateStoreID.
Proof.
  apply (validateDeals_absent_storeID [("price", JStr "9.99")]
           [("price", JNum (Finite false 5 0))]); vm_compute; reflexivity.
Defined.

Lemma trim_start_spaces (s : string) : spaces s = true -> trim_start s = "".
Proof.
  induction s as [|c r IH]; [reflexivity|].
  cbn [spaces trim_start]. intro H. apply Bool.andb_true_iff in H as [W R].
  rewrite W. exact (IH R).
Qed.

(** A string of white space only (the empty string is one) passes
    [isFinite], which reads it as zero, and fails the numeric check all
    the same, because [parseFloat] finds no number in it. *)
Theorem isNumerical_spaces (s : string) :
  spaces s = true ->
  isFinite (str s) = Some true /\ isNumerical (str s) = Ok false /\
  validateCheapestPrice (str s) = Throw (NonNumericCheapestPrice (str s)).
Proof.
  intro H.
  assert (F : isFinite (str s) = Some true).
  { unfold isFinite, str, to_number, Num.of_string, trim.
    rewrite (trim_start_spaces _ H). reflexivity. }
  assert (N : isNumerical (str s) = Ok false).
  { unfold isNumerical, Js.parseFloat, Num.parseFloat, str, to_string, json_to_string.
    cbn [option_map]. rewrite (trim_start_spaces _ H). reflexivity. }
  split; [exact F|]. split; [exact N|].
  unfold validateCheapestPrice. rewrite N. reflexivity.
Qed.

Lemma isNumerical_spaces_witness :
  isFinite (str "  ") = Some true /\ isNumerical (str "  ") = Ok false /\
  validateCheapestPrice (str "  ") = Throw (NonNumericCheapestPrice (str "  ")).
Proof. apply (isNumerical_spaces "  "). reflexivity. Defined.

End DealChecks.

(* ================================================================== *)
(** * The game validator, exactly *)
(* ================================================================== *)

Module GameChecks.
Import Chars Js Err Validate Store App Routes Spec Terms ValueFacts GameValidator
  CreatePath.

Lemma destructure_no_object (body : value) :
  (forall props, body <> Some (JObj props)) ->
  null_or_missing body = false ->
  destructure body = Ok {| gameID := undefined; title := undefined; thumb := undefined;
                           cheapestPrice := undefined; deals := undefined |} /\
  forall k, get body k = Ok undefined.
Proof.
  intros O N.
  destruct body as [[| x | x | x | x | props]|]; try discriminate N;
    try (split; [reflexivity | intro k; reflexivity]).
  exfalso. exact (O props eq_refl).
Qed.

Lemma validateGameAttributes_ok_all (body : value) :
  validateGameAttributes body = Ok tt ->
  exists props,
    body = Some (JObj props) /\
    truthy (lookup "title" props) = true /\
    truthy (lookup "cheapestPrice" props) = true /\
    isNumerical (lookup "cheapestPrice" props) = Ok true /\
    truthy (lookup "deals" props) = true.
Proof.
  intro H. destruct (validateGameAttributes_ok _ H) as (props & -> & T).
  exists props. split; [reflexivity|]. split; [exact T|].
  rewrite validateGameAttributes_object in H.
  unfold validateCheapestPrice, requiredAttributes, missing in H.
  cbn [field filter] in H. rewrite T in H.
  destruct (isNumerical (lookup "cheapestPrice" props)) as [[|]|e];
    [|discriminate H|discriminate H].
  destruct (truthy (lookup "cheapestPrice" props)); [|discriminate H].
  destruct (truthy (lookup "deals" props)); [|discriminate H].
  auto.
Qed.

(** The game validator accepts a payload exactly when it is an object
    whose title, cheapestPrice and deals are truthy and whose
    cheapestPrice is numeric.  A cheapestPrice of zero is numeric and
    not truthy: it is refused. *)
Theorem validateGameAttributes_accepts_exactly (body : value) :
  validateGameAttributes body = Ok tt <->
  exists props,
    body = Some (JObj props) /\
    truthy (lookup "title" props) = true /\
    truthy (lookup "cheapestPrice" props) = true /\
    isNumerical (lookup "cheapestPrice" props) = Ok true /\
    truthy (lookup "deals" props) = true.
Proof.
  split.
  - apply validateGameAttributes_ok_all.
  - intros (props & -> & T & C & N & D).
    rewrite validateGameAttributes_object.
    unfold validateCheapestPrice, requiredAttributes, missing.
    cbn [field filter]. rewrite T, C, N, D. reflexivity.
Qed.

End GameChecks.

(* ================================================================== *)
(** * Facts about the collection *)
(* ================================================================== *)

Module StoreFacts.
Import Chars Js Err Validate Store App Routes Spec Reads Terms ValueFacts.

Lemma json_eqb_refl : forall j, json_eqb j j = true.
Proof.
  fix IH 1. intros [| b | x | s | items | props]; cbn [json_eqb].
  - reflexivity.
  - destruct b; reflexivity.
  - apply number_svz_refl.
  - apply String.eqb_refl.
  - induction items as [|a r IHr]; cbn [all2]; [reflexivity|].
    rewrite (IH a), IHr. reflexivity.
  - induction props as [|[k v] r IHr]; cbn [all2 fst snd]; [reflexivity|].
    rewrite String.eqb_refl, (IH v), IHr. reflexivity.
Qed.

Lemma value_eqb_refl (v : value) : value_eqb v v = true.
Proof. destruct v as [j|]; [apply json_eqb_refl | reflexivity]. Qed.

Lemma game_eqb_refl (g : game) : game_eqb g g = true.
Proof. unfold game_eqb. rewrite !value_eqb_refl. reflexivity. Qed.

(** Every primitive value matches, as a query, what the store wrote
    for it. *)
Lemma matches_written (v : value) : primitive v = true -> matches (bson v) v = true.
Proof.
  intro P. rewrite (CreatePath.matches_primitive _ _ P). unfold equals.
  destruct v as [[| b | x | s | items | props]|];
    try reflexivity; cbn [null_or_missing bson]; apply value_eqb_refl.
Qed.

(** ** Keys and their texts *)

Lemma radix_hex_digit (d : N) :
  (d < 16)%N -> radix_digit 16 (hex_digit d) = Some d.
Proof.
  intro H. destruct d as [|p]; [reflexivity|].
  do 4 (destruct p as [p|p|]; try reflexivity; try lia).
Qed.

Lemma scan_radix_app (radix : N) (s t : string) : forall acc,
  Num.scan_radix radix acc (s ++ t) =
  match Num.scan_radix radix acc s with
  | Some a => Num.scan_radix radix a t
  | None => None
  end.
Proof.
  induction s as [|c r IH]; intro acc; [reflexivity|].
  cbn [append Num.scan_radix]. destruct (radix_digit radix c); [apply IH|reflexivity].
Qed.

Lemma hex_digits_length (k : nat) : forall n, String.length (hex_digits k n) = k.
Proof.
  induction k as [|k IH]; intro n; [reflexivity|].
  cbn [hex_digits]. rewrite NumberFacts.length_append, IH. cbn [String.length]. lia.
Qed.

Lemma scan_hex_digits (k : nat) : forall n acc,
  Num.scan_radix 16 acc (hex_digits k n) =
  Some (acc * 16 ^ N.of_nat k + n mod 16 ^ N.of_nat k)%N.
Proof.
  induction k as [|k IH]; intros n acc.
  - cbn [hex_digits Num.scan_radix]. f_equal.
    change (16 ^ N.of_nat 0)%N with 1%N. rewrite N.mod_1_r. lia.
  - cbn [hex_digits]. rewrite scan_radix_app, IH.
    cbn [Num.scan_radix].
    rewrite radix_hex_digit by (apply N.mod_lt; discriminate).
    f_equal.
    rewrite Nnat.Nat2N.inj_succ, N.pow_succ_r'.
    rewrite (N.Div0.mod_mul_r n 16 (16 ^ N.of_nat k)). lia.
Qed.

(** The text of a key names the key. *)
Lemma ObjectId_key_text (n : N) : (n <? key_space)%N = true -> ObjectId (key_text n) = Ok n.
Proof.
  intro H. apply N.ltb_lt in H. unfold ObjectId, key_text.
  rewrite hex_digits_length. cbn [Nat.eqb].
  rewrite scan_hex_digits. change (16 ^ N.of_nat 24)%N with key_space.
  rewrite N.mod_small by exact H. reflexivity.
Qed.

(** ** Documents by key *)

Lemma find_absent (k : N) (l : list document) :
  forallb (fun d => negb (_id d =? k)%N) l = true ->
  find (fun d => (_id d =? k)%N) l = None.
Proof.
  induction l as [|d r IH]; cbn [forallb find]; [reflexivity|].
  intro H. apply andb_true_iff in H as [H1 H2].
  apply negb_true_iff in H1. rewrite H1. exact (IH H2).
Qed.

Lemma find_app_last {A : Type} (f : A -> bool) (l : list A) (x : A) :
  find f (l ++ [x]) = match find f l with
                      | Some a => Some a
                      | None => if f x then Some x else None
                      end.
Proof.
  induction l as [|a r IH]; cbn [app find]; [reflexivity|].
  destruct (f a); [reflexivity | exact IH].
Qed.

Lemma absent_not_in (k : N) (l : list document) :
  forallb (fun d => negb (_id d =? k)%N) l = true -> ~ In k (map _id l).
Proof.
  induction l as [|d r IH]; cbn [forallb map In]; [tauto|].
  intro H. apply andb_true_iff in H as [H1 H2].
  apply negb_true_iff, N.eqb_neq in H1. intros [E|I]; [congruence | exact (IH H2 I)].
Qed.

Lemma not_in_absent (k : N) (l : list document) :
  ~ In k (map _id l) -> forallb (fun d => negb (_id d =? k)%N) l = true.
Proof.
  induction l as [|d r IH]; cbn [forallb map In]; [reflexivity|].
  intro H. rewrite IH by tauto.
  destruct (N.eqb_spec (_id d) k); [tauto | reflexivity].
Qed.

(** With no key repeated, the record found by a record's key is that
    record. *)
Lemma find_by_key (l : list document) (d : document) :
  NoDup (map _id l) -> In d l ->
  find (fun e => (_id e =? _id d)%N) l = Some d.
Proof.
  induction l as [|a r IH]; cbn [map In find]; [tauto|].
  intros N [E|I].
  - subst a. rewrite N.eqb_refl. reflexivity.
  - inversion N as [|? ? NI ND]; subst.
    destruct (N.eqb_spec (_id a) (_id d)) as [E|_].
    + exfalso. apply NI. rewrite E. now apply in_map.
    + exact (IH ND I).
Qed.

(** ** [updateOne] *)

Lemma set_first_keys (k : N) (g : game) (l : list document) :
  map _id (snd (set_first k g l)) = map _id l.
Proof.
  induction l as [|d r IH]; [reflexivity|].
  cbn [set_first]. destruct (N.eqb_spec (_id d) k) as [E|_].
  - destruct (game_eqb _ _); [reflexivity|]. cbn [snd map _id]. now rewrite E.
  - destruct (set_first k g r) as [n r']. cbn [snd map] in *. now rewrite IH.
Qed.

Lemma set_first_unmodified (k : N) (g : game) (l : list document) :
  fst (set_first k g l) = 0%N -> snd (set_first k g l) = l.
Proof.
  induction l as [|d r IH]; [reflexivity|].
  cbn [set_first]. destruct (_id d =? k)%N.
  - destruct (game_eqb _ _); [reflexivity | discriminate].
  - destruct (set_first k g r) as [n r']. cbn [fst snd] in *.
    intro H. now rewrite (IH H).
Qed.

Lemma set_first_others (k : N) (g : game) (l : list document) (e : document) :
  _id e <> k -> (In e (snd (set_first k g l)) <-> In e l).
Proof.
  intro NE. induction l as [|d r IH]; [reflexivity|].
  cbn [set_first]. destruct (N.eqb_spec (_id d) k) as [E|_].
  - destruct (game_eqb _ _); [reflexivity|]. cbn [snd In].
    split; (intros [X|X]; [|now right]); exfalso; subst; cbn in NE; congruence.
  - destruct (set_first k g r) as [n r']. cbn [snd In] in *. now rewrite IH.
Qed.

(** ** [deleteOne] *)

Lemma remove_first_absent (k : N) (l : list document) :
  forallb (fun d => negb (_id d =? k)%N) l = true -> remove_first k l = (0%N, l).
Proof.
  induction l as [|d r IH]; cbn [forallb remove_first]; [reflexivity|].
  intro H. apply andb_true_iff in H as [H1 H2].
  apply negb_true_iff in H1. rewrite H1, (IH H2). reflexivity.
Qed.

Lemma remove_first_present (k : N) (l : list document) :
  forallb (fun d => negb (_id d =? k)%N) l = false ->
  exists l1 d l2,
    l = (l1 ++ d :: l2)%list /\ _id d = k /\
    forallb (fun d => negb (_id d =? k)%N) l1 = true /\
    remove_first k l = (1%N, (l1 ++ l2)%list).
Proof.
  induction l as [|d r IH]; cbn [forallb remove_first]; [discriminate|].
  destruct (N.eqb_spec (_id d) k) as [E|NE]; cbn [negb andb].
  - intros _. exists [], d, r. auto.
  - intro H. destruct (IH H) as (l1 & x & l2 & -> & K & A & R).
    exists (d :: l1), x, l2. rewrite R. cbn [forallb app].
    rewrite A. destruct (N.eqb_spec (_id d) k); [contradiction|]. auto.
Qed.

Lemma remove_first_last (k : N) (l : list document) (d : document) :
  forallb (fun d => negb (_id d =? k)%N) l = true -> _id d = k ->
  remove_first k (l ++ [d]) = (1%N, l).
Proof.
  intros A K. induction l as [|a r IH]; cbn [app remove_first].
  - rewrite K, N.eqb_refl. reflexivity.
  - cbn [forallb] in A. apply andb_true_iff in A as [A1 A2].
    apply negb_true_iff in A1. rewrite A1, (IH A2). reflexivity.
Qed.

(** ** No clash *)


Lemma clash_written (a : game) (g : game) :
  truthy (title g) = true ->
  clash a (bson_game g) =
  strict_equals (title a) (title g)
  || (negb (null_or_missing (gameID a)) && strict_equals (gameID a) (gameID g)).
Proof.
  intro T. unfold clash, bson_game. cbn [title gameID]. f_equal.
  - destruct (title g); [reflexivity | discriminate T].
  - destruct (gameID a) as [[| x | x | x | x | x]|], (gameID g) as [[| y | y | y | y | y]|];
      reflexivity.
Qed.

End StoreFacts.

(* ================================================================== *)
(** * The routes, step by step *)
(* ================================================================== *)

Module RouteSteps.
Import Chars Js Err Validate Store App Routes Spec Reads Terms ValueFacts StoreFacts.

Lemma validated_inv (body : value) (g : game) :
  validated body = Ok g ->
  destructure body = Ok g /\ validateGameAttributes body = Ok tt /\
  exists pairs, validateDeals (deals g) = Ok pairs.
Proof.
  unfold validated. intro H.
  destruct (destructure body) as [g'|e]; [|discriminate H]. cbn [bind] in H.
  destruct (validateGameAttributes body) as [[]|e]; [|discriminate H]. cbn [bind] in H.
  destruct (validateDeals (deals g')) as [pairs|e] eqn:V; [|discriminate H].
  cbn [bind] in H. injection H as <-. eauto.
Qed.

Lemma validated_intro (body : value) (g : game) (pairs : list deal_pair) :
  destructure body = Ok g -> validateGameAttributes body = Ok tt ->
  validateDeals (deals g) = Ok pairs -> validated body = Ok g.
Proof. unfold validated. intros -> -> H. cbn [bind]. rewrite H. reflexivity. Qed.

Ltac routes :=
  unfold post_games, put_game, delete_games, get_games, get_game, delete_game,
    post_fetch_store, fetchAndStoreGame, fetchExistingGame, updateGame, validated,
    handler, bindM, try_catch, connectDB, lift, db_findOne, db_insertOne,
    db_updateOne, db_deleteMany, guarded, ret, raise, answer.

(** [app.post('/games')], one step after the other. *)
Lemma post_games_run (w : world) (body : value) (c : collection) :
  post_games w body c =
  if connects w then
    match validated body with
    | Throw e => (Responded 400 (json_error (message e)), c)
    | Ok g =>
        if findOne_ok w then
          match findOne (conflicts (gameID g) (title g)) c with
          | Some _ => (Responded 400 (json_error (message DuplicateGame)), c)
          | None =>
              if insertOne_ok w then
                (Responded 201
                   (json_message ("Game added with ID: " ++ key_text (next_id c))),
                 {| docs := docs c ++ [inserted g c]; next_id := N.succ (next_id c) |})
              else (Responded 400 (json_error (message StorageFailure)), c)
          end
        else (Responded 400 (json_error (message StorageFailure)), c)
    end
  else (Unhandled StorageFailure, c).
Proof.
  routes. destruct (connects w); [|reflexivity].
  destruct (destructure body) as [g|e]; [|reflexivity]. cbn [bind].
  destruct (validateGameAttributes body) as [[]|e]; [|reflexivity]. cbn [bind].
  destruct (validateDeals (deals g)) as [pairs|e]; [|reflexivity]. cbn [bind].
  destruct (findOne_ok w); [|reflexivity].
  destruct (findOne _ c); [reflexivity|].
  destruct (insertOne_ok w); reflexivity.
Qed.

(** [app.put('/games/:id')], one step after the other. *)
Lemma put_game_run (w : world) (id : string) (body : value) (c : collection) :
  put_game w id body c =
  if connects w then
    match validated body with
    | Throw e => (Responded 400 (json_error (message e)), c)
    | Ok g =>
        match ObjectId id with
        | Throw e => (Responded 400 (json_error (message e)), c)
        | Ok k =>
            if findOne_ok w then
              match findOne (fun d => (_id d =? k)%N) c with
              | None => (Responded 400 (json_error (message NotFound)), c)
              | Some d =>
                  if checkIfSameGame (fields d) g
                  then (Responded 400 (json_error (message NoChange)), c)
                  else if updateOne_ok w then
                    (if (fst (set_first k g (docs c)) =? 0)%N
                     then Responded 400 (json_error (message NotFoundOrUnchanged))
                     else Responded 200 (json_message ("Game updated with ID: " ++ id)),
                     {| docs := snd (set_first k g (docs c)); next_id := next_id c |})
                  else (Responded 400 (json_error (message StorageFailure)), c)
              end
            else (Responded 400 (json_error (message StorageFailure)), c)
        end
    end
  else (Unhandled StorageFailure, c).
Proof.
  routes. destruct (connects w); [|reflexivity].
  destruct (destructure body) as [g|e]; [|reflexivity]. cbn [bind].
  destruct (validateGameAttributes body) as [[]|e]; [|reflexivity]. cbn [bind].
  destruct (validateDeals (deals g)) as [pairs|e]; [|reflexivity]. cbn [bind].
  destruct (ObjectId id) as [k|e]; [|reflexivity].
  destruct (findOne_ok w); [|reflexivity].
  destruct (findOne _ c) as [d|]; [|reflexivity].
  destruct (checkIfSameGame (fields d) g); [reflexivity|].
  destruct (updateOne_ok w); [|reflexivity].
  unfold updateOne. destruct (set_first k g (docs c)) as [n l]. cbn [fst snd].
  destruct (n =? 0)%N; reflexivity.
Qed.

(** [app.delete('/games/:id')], one step after the other. *)
Lemma delete_game_run (w : reach) (id : string) (c : collection) :
  delete_game w id c =
  if connects (base w) then
    match ObjectId id with
    | Throw _ => (Responded 500 (json_error "Internal server error"), c)
    | Ok k =>
        if deleteOne_ok w then
          (if (fst (remove_first k (docs c)) =? 0)%N
           then Responded 404 (json_error "Game not found")
           else Responded 200 (json_message "Game deleted successfully"),
           {| docs := snd (remove_first k (docs c)); next_id := next_id c |})
        else (Responded 500 (json_error "Internal server error"), c)
    end
  else (Responded 500 (json_error "Internal server error"), c).
Proof.
  routes. destruct (connects (base w)); [|reflexivity].
  destruct (ObjectId id) as [k|e]; [|reflexivity].
  destruct (deleteOne_ok w); [|reflexivity].
  unfold deleteOne. destruct (remove_first k (docs c)) as [n l]. cbn [fst snd].
  destruct (n =? 0)%N; reflexivity.
Qed.

(** [app.get('/games/:id')], one step after the other. *)
Lemma get_game_run (w : reach) (id : string) (c : collection) :
  get_game w id c =
  if connects (base w) then
    match ObjectId id with
    | Throw e => (Responded 404 (json_error (message e)), c)
    | Ok k =>
        if findOne_ok (base w) then
          match findOne (fun d => (_id d =? k)%N) c with
          | Some d => (Responded 200 (doc_json d), c)
          | None => (Responded 404 (json_error "Game not found"), c)
          end
        else (Responded 404 (json_error (message StorageFailure)), c)
    end
  else (Unhandled StorageFailure, c).
Proof.
  routes. destruct (connects (base w)); [|reflexivity].
  destruct (ObjectId id) as [k|e]; [|reflexivity].
  destruct (findOne_ok (base w)); [|reflexivity].
  destruct (findOne _ c) as [d|]; reflexivity.
Qed.

End RouteSteps.

(* ================================================================== *)
(** * What the write routes do to the collection *)
(* ================================================================== *)

Module WriteChecks.
Import Chars Js Err Validate Store App Routes Spec Reads Terms Examples ValueFacts
  StoreFacts RouteSteps.


Lemma validated_no_object (body : value) :
  (forall props, body <> Some (JObj props)) ->
  validated body =
  Throw (if null_or_missing body then TypeError else NonNumericCheapestPrice undefined).
Proof.
  intro O. unfold validated.
  destruct (null_or_missing body) eqn:N.
  - destruct body as [[| x | x | x | x | x]|]; try discriminate N; reflexivity.
  - destruct (GameChecks.destructure_no_object _ O N) as [D G].
    rewrite D. cbn [bind].
    rewrite (GameValidator.validateGameAttributes_no_object _ G). reflexivity.
Qed.

(** A payload that is no object is refused by both write routes with
    status 400 before the collection is looked at: [null] makes the
    destructuring throw, and any other value has no cheapestPrice, which
    is reported as a non-numeric one. *)
Theorem non_object_payload_refused (w : world) (id : string) (body : value)
    (c : collection) :
  connects w = true ->
  (forall props, body <> Some (JObj props)) ->
  let e := if null_or_missing body then TypeError
           else NonNumericCheapestPrice undefined in
  post_games w body c = (Responded 400 (json_error (message e)), c) /\
  put_game w id body c = (Responded 400 (json_error (message e)), c).
Proof.
  intros Hc O e.
  rewrite post_games_run, put_game_run, Hc, (validated_no_object _ O).
  split; reflexivity.
Qed.

Lemma non_object_payload_refused_witness :
  post_games healthy (Some (JArr [JStr "Halo"])) one_record
  = (Responded 400
       (json_error "CheapestPrice must be a numerical value. Invalid value: undefined"),
     one_record) /\
  put_game healthy "none" (Some (JArr [JStr "Halo"])) one_record
  = (Responded 400
       (json_error "CheapestPrice must be a numerical value. Invalid value: undefined"),
     one_record).
Proof.
  apply (non_object_payload_refused healthy "none" (Some (JArr [JStr "Halo"])) one_record).
  - reflexivity.
  - intros props H. discriminate H.
Defined.

(** The create route changes the collection only when it answers 201,
    and then the payload has passed both validators, no stored record
    conflicted with it, and exactly one document was appended, under the
    key the answer names. *)
Theorem post_games_inserts_validated (w : world) (body : value) (c : collection) :
  let r := post_games w body c in
  (exists g,
     validated body = Ok g /\
     findOne (conflicts (gameID g) (title g)) c = None /\
     r = (Responded 201 (json_message ("Game added with ID: " ++ key_text (next_id c))),
          {| docs := docs c ++ [inserted g c]; next_id := N.succ (next_id c) |}))
  \/ (status_of (fst r) <> Some 201%N /\ snd r = c).
Proof.
  intro r. subst r. rewrite post_games_run.
  destruct (connects w); [|right; split; [discriminate|reflexivity]].
  destruct (validated body) as [g|e]; [|right; split; [discriminate|reflexivity]].
  destruct (findOne_ok w); [|right; split; [discriminate|reflexivity]].
  destruct (findOne _ c) eqn:F; [right; split; [discriminate|reflexivity]|].
  destruct (insertOne_ok w); [|right; split; [discriminate|reflexivity]].
  left. exists g. auto.
Qed.



Lemma truthy_some (v : value) : truthy v = true -> exists j, v = Some j.
Proof. destruct v as [j|]; [eauto | discriminate]. Qed.

(** The update route does not look for clashes: a record can be given
    the title another record has, after which the collection holds two
    records with that title. *)
Theorem put_can_duplicate_title (w : world) (id : string) (k : N) (body : value)
    (c : collection) (g : game) (d other : document) :
  connects w = true ->
  findOne_ok w = true ->
  updateOne_ok w = true ->
  validated body = Ok g ->
  ObjectId id = Ok k ->
  findOne (fun d => (_id d =? k)%N) c = Some d ->
  In other (docs c) ->
  _id other <> k ->
  title (fields other) = title g ->
  primitive (title g) = true ->
  strict_equals (title (fields d)) (title g) = false ->
  exists c',
    put_game w id body c =
      (Responded 200 (json_message ("Game updated with ID: " ++ id)), c') /\
    In other (docs c') /\
    In {| _id := k; fields := bson_game g |} (docs c') /\
    clash (fields other) (bson_game g) = true.
Proof.
  intros Hc Hf Hu V K F I NE T P S.
  destruct (validated_inv _ _ V) as (D & G & pairs & Vd).
  pose proof (CreatePath.validated_title _ _ D G) as Tt.
  destruct (truthy_some _ Tt) as [j J].
  assert (Same : checkIfSameGame (fields d) g = false)
    by exact (UpdatePath.read_differs_checker Title _ _ S).
  assert (Diff : game_eqb (fields d) (bson_game g) = false).
  { apply (UpdatePath.read_differs_store Title). cbn [read]. rewrite J.
    apply UpdatePath.strict_differs_stored; rewrite <- J; assumption. }
  destruct (UpdatePath.set_first_changed k g (docs c) d F Diff) as (l' & E & F' & _).
  rewrite put_game_run, Hc, V, K, Hf, F, Same, Hu, E. cbn [fst snd N.eqb].
  eexists. split; [reflexivity|]. cbn [docs].
  split; [|split].
  - pose proof (proj2 (set_first_others k g (docs c) other NE) I) as X.
    rewrite E in X. exact X.
  - exact (proj1 (find_some _ _ F')).
  - rewrite (clash_written _ _ Tt), T, (strict_equals_refl _ P). reflexivity.
Qed.

Lemma put_can_duplicate_title_witness :
  exists c',
    put_game healthy (key_text 1) example_body two_records =
      (Responded 200 (json_message ("Game updated with ID: " ++ key_text 1)), c') /\
    In {| _id := 0; fields := stored_halo |} (docs c') /\
    In {| _id := 1;
          fields := bson_game {| gameID := undefined; title := str "Halo";
                                 thumb := undefined; cheapestPrice := str "4.99";
                                 deals := Some example_deals |} |} (docs c') /\
    clash stored_halo
      (bson_game {| gameID := undefined; title := str "Halo"; thumb := undefined;
                    cheapestPrice := str "4.99"; deals := Some example_deals |}) = true.
Proof.
  apply (put_can_duplicate_title healthy (key_text 1) 1 example_body two_records
           {| gameID := undefined; title := str "Halo"; thumb := undefined;
              cheapestPrice := str "4.99"; deals := Some example_deals |}
           {| _id := 1;
              fields := {| gameID := str "7"; title := str "Doom";
                           thumb := str "doom.jpg"; cheapestPrice := str "1.99";
                           deals := Some example_deals |} |}
           {| _id := 0; fields := stored_halo |});
    try reflexivity.
  - left. reflexivity.
  - discriminate.
Defined.

(** The update route never adds or removes a record and never changes a
    key or the next key; unless it answers 200 the collection is what it
    was; and a record under another key than the one addressed is never
    touched. *)
Theorem put_game_touches_one_record (w : world) (id : string) (body : value)
    (c : collection) :
  let r := put_game w id body c in
  next_id (snd r) = next_id c /\
  map _id (docs (snd r)) = map _id (docs c) /\
  (status_of (fst r) <> Some 200%N -> snd r = c) /\
  (forall k e, ObjectId id = Ok k -> _id e <> k ->
     (In e (docs (snd r)) <-> In e (docs c))).
Proof.
  intro r. subst r. rewrite put_game_run.
  destruct (connects w); [|repeat split; auto].
  destruct (validated body) as [g|e]; [|repeat split; auto].
  destruct (ObjectId id) as [k|e]; [|repeat split; auto].
  destruct (findOne_ok w); [|repeat split; auto].
  destruct (findOne _ c) as [d|]; [|repeat split; auto].
  destruct (checkIfSameGame (fields d) g); [repeat split; auto|].
  destruct (updateOne_ok w); [|repeat split; auto].
  cbn [fst snd docs next_id].
  split; [reflexivity|]. split; [apply set_first_keys|]. split.
  - destruct (fst (set_first k g (docs c)) =? 0)%N eqn:Z.
    + intros _. apply N.eqb_eq in Z. rewrite (set_first_unmodified _ _ _ Z).
      destruct c; reflexivity.
    + intro H. exfalso. apply H. reflexivity.
  - intros k' e K NE. injection K as <-. apply set_first_others, NE.
Qed.

End WriteChecks.

(* ================================================================== *)
(** * Records by their key *)
(* ================================================================== *)

Module KeyChecks.
Import Chars Js Err Validate Store App Routes Spec Reads Terms Examples ValueFacts
  StoreFacts RouteSteps.

Ltac settled := cbn [fst status_of]; split; intro; congruence.

(** The handler's promise is rejected, the route itself sending
    nothing, exactly when the store cannot be reached, on the create,
    update, fetch and read routes, whose [connectDB] is outside any
    [try]; the two delete routes connect inside their [try] and always
    respond. *)
Theorem routes_reject_only_unreachable (w : reach) (id : string) (body : value)
    (c : collection) :
  (status_of (fst (post_games (base w) body c)) = None <-> connects (base w) = false) /\
  (status_of (fst (put_game (base w) id body c)) = None <-> connects (base w) = false) /\
  (status_of (fst (post_fetch_store (base w) c)) = None <-> connects (base w) = false) /\
  (status_of (fst (get_games w c)) = None <-> connects (base w) = false) /\
  (status_of (fst (get_game w id c)) = None <-> connects (base w) = false) /\
  status_of (fst (delete_games (base w) c)) <> None /\
  status_of (fst (delete_game w id c)) <> None.
Proof.
  split; [|split; [|split; [|split; [|split; [|split]]]]].
  - rewrite post_games_run. destruct (connects (base w)); [|settled].
    destruct (validated body) as [g|e]; [|settled].
    destruct (findOne_ok (base w)); [|settled].
    destruct (findOne _ c); [settled|].
    destruct (insertOne_ok (base w)); settled.
  - rewrite put_game_run. destruct (connects (base w)); [|settled].
    destruct (validated body) as [g|e]; [|settled].
    destruct (ObjectId id) as [k|e]; [|settled].
    destruct (findOne_ok (base w)); [|settled].
    destruct (findOne _ c) as [d|]; [|settled].
    destruct (checkIfSameGame (fields d) g); [settled|].
    destruct (updateOne_ok (base w)); [|settled].
    cbn [fst]. destruct (_ =? 0)%N; settled.
  - routes. destruct (connects (base w)); [|settled].
    destruct (api (base w)) as [gameData|e]; [|settled].
    destruct (negb (truthy gameData) || (own_keys gameData =? 0)%nat); [settled|].
    destruct (format_game gameData) as [formatted|e]; [|settled].
    destruct (findOne_ok (base w)); [|settled].
    destruct (findOne _ c); [settled|].
    destruct (insertOne_ok (base w)); [|settled].
    destruct (insertOne formatted c) as [k c']. settled.
  - routes. destruct (connects (base w)); [|settled].
    destruct (find_ok w); settled.
  - rewrite get_game_run. destruct (connects (base w)); [|settled].
    destruct (ObjectId id) as [k|e]; [|settled].
    destruct (findOne_ok (base w)); [|settled].
    destruct (findOne _ c); settled.
  - routes. destruct (connects (base w)); [|discriminate].
    destruct (deleteMany_ok (base w)); discriminate.
  - rewrite delete_game_run. destruct (connects (base w)); [|discriminate].
    destruct (ObjectId id) as [k|e]; [|discriminate].
    destruct (deleteOne_ok w); [|discriminate].
    cbn [fst]. destruct (_ =? 0)%N; discriminate.
Qed.

(** The same malformed id is answered differently by the three routes
    that take one: 404 by the read, 400 by the update (once the payload
    has passed the validators) and 500 by the delete; none touches the
    collection. *)
Theorem malformed_id_by_route (w : reach) (id : string) (body : value)
    (c : collection) (g : game) (e : error) :
  connects (base w) = true ->
  ObjectId id = Throw e ->
  validated body = Ok g ->
  get_game w id c = (Responded 404 (json_error (message e)), c) /\
  put_game (base w) id body c = (Responded 400 (json_error (message e)), c) /\
  delete_game w id c = (Responded 500 (json_error "Internal server error"), c).
Proof.
  intros Hc K V.
  rewrite get_game_run, put_game_run, delete_game_run, Hc, K, V. auto.
Qed.

Lemma malformed_id_by_route_witness :
  get_game sound "halo" one_record
  = (Responded 404 (json_error (message BadObjectId)), one_record) /\
  put_game healthy "halo" example_body one_record
  = (Responded 400 (json_error (message BadObjectId)), one_record) /\
  delete_game sound "halo" one_record
  = (Responded 500 (json_error "Internal server error"), one_record).
Proof.
  apply (malformed_id_by_route sound "halo" example_body one_record
           {| gameID := undefined; title := str "Halo"; thumb := undefined;
              cheapestPrice := str "4.99"; deals := Some example_deals |});
    reflexivity.
Defined.

(** Deleting by key removes the first record under that key and no
    other: without such a record the answer is 404 and the collection is
    what it was; with one the answer is 200, the collection is one
    record shorter, and, keys being unique, the same request then gets
    404. *)
Theorem delete_game_removes_one (w : reach) (id : string) (k : N) (c : collection) :
  connects (base w) = true ->
  deleteOne_ok w = true ->
  ObjectId id = Ok k ->
  let r := delete_game w id c in
  next_id (snd r) = next_id c /\
  (forall e, _id e <> k -> (In e (docs (snd r)) <-> In e (docs c))) /\
  (~ In k (map _id (docs c)) ->
     r = (Responded 404 (json_error "Game not found"), c)) /\
  (In k (map _id (docs c)) ->
     fst r = Responded 200 (json_message "Game deleted successfully") /\
     S (length (docs (snd r))) = length (docs c) /\
     (NoDup (map _id (docs c)) ->
        delete_game w id (snd r)
        = (Responded 404 (json_error "Game not found"), snd r))).
Proof.
  intros Hc Hd K r. subst r. rewrite !delete_game_run, Hc, K, Hd.
  destruct (forallb (fun d => negb (_id d =? k)%N) (docs c)) eqn:A.
  - rewrite (remove_first_absent _ _ A). cbn [fst snd N.eqb docs next_id].
    split; [reflexivity|]. split; [tauto|]. split.
    + intros _. destruct c; reflexivity.
    + intro I. exfalso. exact (absent_not_in _ _ A I).
  - destruct (remove_first_present _ _ A) as (l1 & d & l2 & L & Kd & A1 & R).
    rewrite R. cbn [fst snd N.eqb docs next_id].
    split; [reflexivity|]. split; [|split].
    + intros e NE. rewrite L, !in_app_iff. cbn [In].
      split; [tauto|]. intros [X|[X|X]]; auto. subst e. contradiction.
    + intro NI. exfalso. apply NI. rewrite L, map_app, in_app_iff. right. left. exact Kd.
    + intros _. split; [reflexivity|]. split.
      * rewrite L, !length_app. cbn [length]. lia.
      * intro ND. rewrite L, map_app in ND. cbn [map] in ND.
        apply NoDup_remove_2 in ND. rewrite Kd, <- map_app in ND.
        rewrite (remove_first_absent _ _ (not_in_absent _ _ ND)).
        reflexivity.
Qed.

Lemma delete_game_removes_one_witness :
  let r := delete_game sound (key_text 1) two_records in
  fst r = Responded 200 (json_message "Game deleted successfully") /\
  docs (snd r) = [{| _id := 0; fields := stored_halo |}] /\
  delete_game sound (key_text 1) (snd r)
  = (Responded 404 (json_error "Game not found"), snd r).
Proof.
  destruct (delete_game_removes_one sound (key_text 1) 1 two_records
              eq_refl eq_refl eq_refl) as (_ & _ & _ & H).
  destruct H as (A & _ & B).
  - right. left. reflexivity.
  - split; [exact A|]. split; [reflexivity|]. apply B.
    repeat constructor; cbn; intuition discriminate.
Defined.

(** What a 201 of the create route says of the request. *)
Lemma post_games_created (w : world) (body : value) (c c' : collection)
    (g : game) (out : outcome) :
  destructure body = Ok g ->
  post_games w body c = (out, c') ->
  status_of out = Some 201%N ->
  connects w = true /\ findOne_ok w = true /\ validated body = Ok g /\
  out = Responded 201 (json_message ("Game added with ID: " ++ key_text (next_id c))) /\
  c' = {| docs := docs c ++ [inserted g c]; next_id := N.succ (next_id c) |}.
Proof.
  intros D R S. rewrite post_games_run in R.
  destruct (connects w); [|injection R as <- <-; discriminate S].
  destruct (validated body) as [g'|e] eqn:V; [|injection R as <- <-; discriminate S].
  destruct (validated_inv _ _ V) as (D' & _).
  assert (g' = g) by congruence. subst g'.
  destruct (findOne_ok w); [|injection R as <- <-; discriminate S].
  destruct (findOne _ c); [injection R as <- <-; discriminate S|].
  destruct (insertOne_ok w); [|injection R as <- <-; discriminate S].
  injection R as <- <-. auto.
Qed.

Lemma fresh_key_inv (c : collection) :
  fresh_key c = true ->
  forallb (fun d => negb (_id d =? next_id c)%N) (docs c) = true /\
  ObjectId (key_text (next_id c)) = Ok (next_id c).
Proof.
  unfold fresh_key. intro H. apply andb_true_iff in H as [A B].
  split; [exact A | exact (ObjectId_key_text _ B)].
Qed.

Lemma find_inserted (g : game) (c : collection) :
  forallb (fun d => negb (_id d =? next_id c)%N) (docs c) = true ->
  find (fun d => (_id d =? next_id c)%N) (docs c ++ [inserted g c])
  = Some (inserted g c).
Proof.
  intro A. rewrite find_app_last, (find_absent _ _ A).
  unfold inserted at 1. cbn [_id]. rewrite N.eqb_refl. reflexivity.
Qed.

(** A record that was created is served under the key the 201 names:
    the read by that key answers 200 with what the store wrote for the
    payload, the fields the payload lacked as null. *)
Theorem created_record_is_served (w : reach) (body : value) (c c' : collection)
    (g : game) (out : outcome) :
  fresh_key c = true ->
  destructure body = Ok g ->
  post_games (base w) body c = (out, c') ->
  status_of out = Some 201%N ->
  out = Responded 201 (json_message ("Game added with ID: " ++ key_text (next_id c))) /\
  get_game w (key_text (next_id c)) c'
  = (Responded 200 (doc_json (inserted g c)), c').
Proof.
  intros F D R S.
  destruct (post_games_created _ _ _ _ _ _ D R S) as (Hc & Hf & _ & -> & ->).
  destruct (fresh_key_inv _ F) as [A K].
  split; [reflexivity|].
  rewrite get_game_run, Hc, K, Hf. unfold findOne. cbn [docs].
  rewrite (find_inserted _ _ A). reflexivity.
Qed.

Lemma created_record_is_served_witness :
  get_game sound (key_text 2)
    (snd (post_games healthy
            (Some (JObj [("title", JStr "Quake"); ("cheapestPrice", JStr "4.99");
                         ("deals", example_deals)])) two_records))
  = (Responded 200
       (JObj [("_id", JStr "000000000000000000000002"); ("gameID", JNull);
              ("title", JStr "Quake"); ("thumb", JNull);
              ("cheapestPrice", JStr "4.99"); ("deals", example_deals)]),
     snd (post_games healthy
            (Some (JObj [("title", JStr "Quake"); ("cheapestPrice", JStr "4.99");
                         ("deals", example_deals)])) two_records)).
Proof.
  apply (created_record_is_served sound
           (Some (JObj [("title", JStr "Quake"); ("cheapestPrice", JStr "4.99");
                        ("deals", example_deals)]))
           two_records _
           {| gameID := undefined; title := str "Quake"; thumb := undefined;
              cheapestPrice := str "4.99"; deals := Some example_deals |}
           (Responded 201
              (json_message ("Game added with ID: " ++ key_text 2))));
    reflexivity.
Defined.

(** Deleting a record that was just created, by the key the 201 names,
    gives back the documents there were; the key is not assigned
    again. *)
Theorem created_record_deleted (w : reach) (body : value) (c c' : collection)
    (g : game) (out : outcome) :
  fresh_key c = true ->
  deleteOne_ok w = true ->
  destructure body = Ok g ->
  post_games (base w) body c = (out, c') ->
  status_of out = Some 201%N ->
  delete_game w (key_text (next_id c)) c'
  = (Responded 200 (json_message "Game deleted successfully"),
     {| docs := docs c; next_id := N.succ (next_id c) |}).
Proof.
  intros F Hd D R S.
  destruct (post_games_created _ _ _ _ _ _ D R S) as (Hc & Hf & _ & -> & ->).
  destruct (fresh_key_inv _ F) as [A K].
  rewrite delete_game_run, Hc, K, Hd. cbn [docs next_id].
  rewrite (remove_first_last _ _ (inserted g c) A eq_refl). reflexivity.
Qed.

Lemma created_record_deleted_witness :
  delete_game sound (key_text 2)
    (snd (post_games healthy
            (Some (JObj [("title", JStr "Quake"); ("cheapestPrice", JStr "4.99");
                         ("deals", example_deals)])) two_records))
  = (Responded 200 (json_message "Game deleted successfully"),
     {| docs := docs two_records; next_id := 3 |}).
Proof.
  apply (created_record_deleted sound
           (Some (JObj [("title", JStr "Quake"); ("cheapestPrice", JStr "4.99");
                        ("deals", example_deals)]))
           two_records _
           {| gameID := undefined; title := str "Quake"; thumb := undefined;
              cheapestPrice := str "4.99"; deals := Some example_deals |}
           (Responded 201
              (json_message ("Game added with ID: " ++ key_text 2))));
    reflexivity.
Defined.

(** Every entry the listing shows can be read by its [_id], and the
    read answers the same object, when no key is repeated. *)
Theorem listing_entries_are_served (w : reach) (c : collection) (d : document) :
  connects (base w) = true ->
  findOne_ok (base w) = true ->
  find_ok w = true ->
  NoDup (map _id (docs c)) ->
  In d (docs c) ->
  (_id d <? key_space)%N = true ->
  get_games w c = (Responded 200 (JArr (map doc_json (docs c))), c) /\
  In (doc_json d) (map doc_json (docs c)) /\
  get_game w (key_text (_id d)) c = (Responded 200 (doc_json d), c).
Proof.
  intros Hc Hf Ha ND I K. split; [|split].
  - routes. rewrite Hc, Ha. reflexivity.
  - now apply in_map.
  - rewrite get_game_run, Hc, (ObjectId_key_text _ K), Hf. unfold findOne.
    rewrite (find_by_key _ _ ND I). reflexivity.
Qed.

Lemma listing_entries_are_served_witness :
  get_games sound one_record
  = (Responded 200 (JArr (map doc_json (docs one_record))), one_record) /\
  In (doc_json {| _id := 0; fields := stored_halo |}) (map doc_json (docs one_record)) /\
  get_game sound (key_text 0) one_record
  = (Responded 200 (doc_json {| _id := 0; fields := stored_halo |}), one_record).
Proof.
  apply (listing_entries_are_served sound one_record {| _id := 0; fields := stored_halo |});
    try reflexivity.
  - repeat constructor. cbn. tauto.
  - left. reflexivity.
Defined.

Lemma strict_equals_written (v : value) :
  primitive v = true ->
  strict_equals (bson v) v = match v with Some _ => true | None => false end.
Proof.
  destruct v as [j|]; [|reflexivity].
  intro P. exact (strict_equals_refl _ P).
Qed.

(** The no-op detector on a record as the store wrote it and the
    payload it was written from. *)
Lemma checkIfSameGame_written (g : game) (t p ds : json) :
  (forall f, primitive (read f g) = true) ->
  title g = Some t -> cheapestPrice g = Some p -> deals g = Some ds ->
  checkIfSameGame (bson_game g) g =
  match gameID g, thumb g with
  | Some _, Some _ => true
  | _, _ => false
  end.
Proof.
  intros P T C D. unfold checkIfSameGame, bson_game.
  cbn [gameID title thumb cheapestPrice deals].
  pose proof (strict_equals_written _ (P GameID)) as E1.
  pose proof (strict_equals_written _ (P Title)) as E2.
  pose proof (strict_equals_written _ (P Thumb)) as E3.
  pose proof (strict_equals_written _ (P CheapestPrice)) as E4.
  cbn [read] in E1, E2, E3, E4. rewrite E1, E2, E3, E4, T, C, D. cbn [bson JSON_stringify option_map same_text].
  rewrite String.eqb_refl.
  destruct (gameID g), (thumb g); reflexivity.
Qed.

Lemma validated_present (body : value) (g : game) :
  validated body = Ok g ->
  exists t p ds, title g = Some t /\ cheapestPrice g = Some p /\ deals g = Some ds.
Proof.
  intro V. destruct (validated_inv _ _ V) as (D & G & _).
  destruct (GameChecks.validateGameAttributes_ok_all _ G) as (props & -> & T & C & _ & S).
  cbn in D. injection D as <-. cbn [title cheapestPrice deals].
  destruct (WriteChecks.truthy_some _ T) as [t ->].
  destruct (WriteChecks.truthy_some _ C) as [p ->].
  destruct (WriteChecks.truthy_some _ S) as [ds ->].
  exists t, p, ds. auto.
Qed.

(** Sending the payload a record was created from to the update route,
    under the record's key, is always refused and leaves the record as
    it is; but the NoChange error is given only when the payload has
    both a gameID and a thumb.  When one is absent the stored null
    differs from it for the no-op detector, the store is asked, and its
    count of 0 gives the other error. *)
Theorem resubmitted_payload_refused (w : world) (body : value) (c c' : collection)
    (g : game) (out : outcome) :
  fresh_key c = true ->
  updateOne_ok w = true ->
  destructure body = Ok g ->
  post_games w body c = (out, c') ->
  status_of out = Some 201%N ->
  (forall f, primitive (read f g) = true) ->
  put_game w (key_text (next_id c)) body c'
  = (Responded 400
       (json_error (message match gameID g, thumb g with
                            | Some _, Some _ => NoChange
                            | _, _ => NotFoundOrUnchanged
                            end)),
     c').
Proof.
  intros F Hu D R S P.
  destruct (post_games_created _ _ _ _ _ _ D R S) as (Hc & Hf & V & -> & ->).
  destruct (fresh_key_inv _ F) as [A K].
  destruct (validated_present _ _ V) as (t & p & ds & T & C & Ds).
  rewrite put_game_run, Hc, V, K, Hf. unfold findOne. cbn [docs next_id].
  rewrite (find_inserted _ _ A). unfold inserted at 1. cbn [fields].
  rewrite (checkIfSameGame_written _ _ _ _ P T C Ds).
  assert (Z : set_first (next_id c) g (docs c ++ [inserted g c])
              = (0%N, (docs c ++ [inserted g c])%list)).
  { apply (UpdatePath.set_first_same _ _ _ (inserted g c) (find_inserted _ _ A)).
    apply game_eqb_refl. }
  destruct (gameID g), (thumb g); try reflexivity;
    rewrite Hu, Z; reflexivity.
Qed.

Lemma resubmitted_payload_refused_witness :
  put_game healthy (key_text 2) example_body
    (snd (post_games healthy example_body
            {| docs := []; next_id := 2 |}))
  = (Responded 400 (json_error (message NotFoundOrUnchanged)),
     snd (post_games healthy example_body {| docs := []; next_id := 2 |})).
Proof.
  apply (resubmitted_payload_refused healthy example_body
           {| docs := []; next_id := 2 |} _
           {| gameID := undefined; title := str "Halo"; thumb := undefined;
              cheapestPrice := str "4.99"; deals := Some example_deals |}
           (Responded 201 (json_message ("Game added with ID: " ++ key_text 2))));
    try reflexivity.
  intros [| | |]; reflexivity.
Defined.

Lemma strict_equals_sym (a b : value) : strict_equals a b = strict_equals b a.
Proof.
  destruct a as [[| x | x | x | x | x]|], b as [[| y | y | y | y | y]|];
    try reflexivity; cbn [strict_equals].
  - destruct x, y; reflexivity.
  - apply equal_sym.
  - apply String.eqb_sym.
Qed.

(** The no-op detector does not depend on which of the two records is
    the stored one. *)
Theorem checkIfSameGame_sym (a b : game) : checkIfSameGame a b = checkIfSameGame b a.
Proof.
  unfold checkIfSameGame.
  rewrite (strict_equals_sym (gameID a)), (strict_equals_sym (title a)),
    (strict_equals_sym (thumb a)), (strict_equals_sym (cheapestPrice a)).
  f_equal. unfold same_text.
  destruct (JSON_stringify (deals a)), (JSON_stringify (deals b));
    try reflexivity. apply String.eqb_sym.
Qed.

End KeyChecks.

(* ================================================================== *)
(** * The fetch path *)
(* ================================================================== *)

Module FetchChecks.
Import Chars Js Err Validate Store App Routes Spec Reads Terms Examples ValueFacts
  StoreFacts RouteSteps DealChecks.

(** [app.post('/fetch-store')], one step after the other. *)
Lemma post_fetch_store_run (w : world) (c : collection) :
  post_fetch_store w c =
  if connects w then
    match api w with
    | Throw _ => (Responded 200 (json_error "Failed to fetch/store game data"), c)
    | Ok gameData =>
        if negb (truthy gameData) || (own_keys gameData =? 0)%nat
        then (Responded 200 (json_error "Invalid API response"), c)
        else
          match format_game gameData with
          | Throw _ => (Responded 200 (json_error "Failed to fetch/store game data"), c)
          | Ok g =>
              if findOne_ok w then
                match findOne (fun d => matches (gameID (fields d)) (gameID g)) c with
                | Some _ => (Responded 200 (json_message "Game already exists"), c)
                | None =>
                    if insertOne_ok w then
                      (Responded 200
                         (JObj [("message", JStr "Game inserted successfully!");
                                ("id", JStr (key_text (next_id c)))]),
                       {| docs := docs c ++ [inserted g c];
                          next_id := N.succ (next_id c) |})
                    else
                      (Responded 200 (json_error "Failed to fetch/store game data"), c)
                end
              else (Responded 200 (json_error "Failed to fetch/store game data"), c)
          end
    end
  else (Unhandled StorageFailure, c).
Proof.
  routes. destruct (connects w); [|reflexivity].
  destruct (api w) as [gameData|e]; [|reflexivity].
  cbn [fst snd].
  destruct (negb (truthy gameData) || (own_keys gameData =? 0)%nat); [reflexivity|].
  destruct (format_game gameData) as [g|e]; [|reflexivity].
  destruct (findOne_ok w); [|reflexivity].
  destruct (findOne _ c); [reflexivity|].
  destruct (insertOne_ok w); reflexivity.
Qed.

(** Fetching the same game again stores nothing more, for a fetched
    gameID that is a primitive value: after a run that inserted the game
    or found it, a second request, whatever the store then lets it
    insert, answers that the game already exists and leaves the
    collection as the first run left it, provided it reaches the store,
    its lookup succeeds and the pricing API gives the same answer. *)
Theorem fetch_store_twice (w1 w2 : world) (c : collection) (gameData : value)
    (g : game) :
  api w1 = Ok gameData ->
  api w2 = Ok gameData ->
  format_game gameData = Ok g ->
  primitive (gameID g) = true ->
  connects w2 = true ->
  findOne_ok w2 = true ->
  let first := post_fetch_store w1 c in
  (exists k,
     fst first = Responded 200 (JObj [("message", JStr "Game inserted successfully!");
                                      ("id", JStr k)])) \/
  fst first = Responded 200 (json_message "Game already exists") ->
  post_fetch_store w2 (snd first)
  = (Responded 200 (json_message "Game already exists"), snd first).
Proof.
  intros A1 A2 Hg P C2 F2 first. subst first.
  rewrite (post_fetch_store_run w1 c), A1, Hg.
  destruct (connects w1);
    [|intros [[k H]|H]; discriminate H].
  destruct (negb (truthy gameData) || (own_keys gameData =? 0)%nat) eqn:Hk;
    [intros [[k H]|H]; discriminate H|].
  destruct (findOne_ok w1);
    [|intros [[k H]|H]; discriminate H].
  destruct (findOne _ c) as [d|] eqn:F.
  - intros _. cbn [snd]. rewrite post_fetch_store_run, C2, A2, Hk, Hg, F2, F.
    reflexivity.
  - destruct (insertOne_ok w1);
      [|intros [[k H]|H]; discriminate H].
    intros _. cbn [snd]. rewrite post_fetch_store_run, C2, A2, Hk, Hg, F2.
    unfold findOne in *. cbn [docs]. rewrite find_app_last, F.
    assert (M : matches (gameID (fields (inserted g c))) (gameID g) = true)
      by exact (matches_written (gameID g) P).
    rewrite M. reflexivity.
Qed.

(** The second request meets a store that refuses inserts. *)
Lemma fetch_store_twice_witness :
  post_fetch_store
    {| connects := true; findOne_ok := true; insertOne_ok := false;
       updateOne_ok := false; deleteMany_ok := false; api := api answering |}
    (snd (post_fetch_store answering empty))
  = (Responded 200 (json_message "Game already exists"),
     snd (post_fetch_store answering empty)).
Proof.
  apply (fetch_store_twice answering
           {| connects := true; findOne_ok := true; insertOne_ok := false;
              updateOne_ok := false; deleteMany_ok := false; api := api answering |}
           empty
           (Some (JObj [("info", JObj [("gameID", JStr "612");
                                       ("title", JStr "Halo")]);
                        ("cheapestPriceEver", JObj [("price", JStr "4.99")]);
                        ("deals", example_deals)]))
           {| gameID := str "612"; title := str "Halo"; thumb := undefined;
              cheapestPrice := str "4.99";
              deals := Some (JArr [text_pair "1" "9.99"; text_pair "2" "4.99"]) |});
    try reflexivity.
  left. exists (key_text 0). reflexivity.
Defined.

Lemma keep_pair_readable (entry : json) :
  readable entry = true ->
  keep_pair entry = Ok (if has_both entry then Some (reduced entry) else None).
Proof.
  intro R. unfold keep_pair, has_both, reduced.
  rewrite !(get_readable _ _ R). cbn [bind].
  destruct (field entry "storeID") as [s|]; [|reflexivity].
  destruct (field entry "price") as [p|];
    [|destruct (negb (null_or_missing (Some s))); reflexivity].
  destruct (negb (null_or_missing (Some s)) && negb (null_or_missing (Some p)));
    reflexivity.
Qed.

Lemma filter_map_deals_readable (items : list json) :
  forallb readable items = true ->
  filter_map_deals items = Ok (map reduced (filter has_both items)).
Proof.
  induction items as [|e r IH]; [reflexivity|].
  cbn [forallb]. intro H. apply andb_true_iff in H as [Re Rr].
  cbn [filter_map_deals filter]. rewrite (keep_pair_readable _ Re), (IH Rr).
  cbn [bind]. destruct (has_both e); reflexivity.
Qed.

Lemma filter_map_deals_null (items : list json) :
  forallb readable items = false -> filter_map_deals items = Throw TypeError.
Proof.
  induction items as [|e r IH]; [discriminate|].
  cbn [forallb filter_map_deals]. destruct (readable e) eqn:Re.
  - cbn [andb]. intro H. rewrite (keep_pair_readable _ Re), (IH H). reflexivity.
  - intros _. destruct e; try discriminate Re. reflexivity.
Qed.

(** What the fetch path keeps of the deals the pricing API answered,
    once the other properties have been read: in order, the entries that
    have both a storeID and a price, neither null, each reduced to these
    two properties.  Nothing else is asked of them, neither a numeric
    price nor storeIDs that differ; only a null entry makes the
    formatting throw. *)
Theorem fetched_deals_exactly (gameData info ever gid t th cp : value)
    (items : list json) :
  get gameData "info" = Ok info ->
  get info "gameID" = Ok gid ->
  get info "title" = Ok t ->
  get info "thumb" = Ok th ->
  get gameData "cheapestPriceEver" = Ok ever ->
  get ever "price" = Ok cp ->
  get gameData "deals" = Ok (Some (JArr items)) ->
  format_game gameData =
  if forallb readable items
  then Ok {| gameID := gid; title := t; thumb := th; cheapestPrice := cp;
             deals := Some (JArr (map reduced (filter has_both items))) |}
  else Throw TypeError.
Proof.
  intros I G T Th E C D. unfold format_game.
  rewrite I. cbn [bind]. rewrite G. cbn [bind]. rewrite T. cbn [bind].
  rewrite Th. cbn [bind]. rewrite E. cbn [bind]. rewrite C. cbn [bind].
  rewrite D. cbn [bind].
  destruct (forallb readable items) eqn:R.
  - rewrite (filter_map_deals_readable _ R). reflexivity.
  - rewrite (filter_map_deals_null _ R). reflexivity.
Qed.

(** Two deals of one store, one with a price that is no number, are
    both kept; the entry without a price and the one that is no object
    are dropped. *)
Lemma fetched_deals_exactly_witness :
  format_game
    (Some (JObj [("info", JObj [("title", JStr "Halo")]);
                 ("cheapestPriceEver", JObj [("price", JStr "4.99")]);
                 ("deals", JArr [text_pair "1" "free"; tagged_deal "abc";
                                 JObj [("storeID", JStr "2")]; JStr "none"])]))
  = Ok {| gameID := undefined; title := str "Halo"; thumb := undefined;
          cheapestPrice := str "4.99";
          deals := Some (JArr [text_pair "1" "free"; text_pair "1" "9.99"]) |}.
Proof.
  apply (fetched_deals_exactly
           (Some (JObj [("info", JObj [("title", JStr "Halo")]);
                        ("cheapestPriceEver", JObj [("price", JStr "4.99")]);
                        ("deals", JArr [text_pair "1" "free"; tagged_deal "abc";
                                        JObj [("storeID", JStr "2")]; JStr "none"])]))
           (Some (JObj [("title", JStr "Halo")]))
           (Some (JObj [("price", JStr "4.99")]))
           undefined (str "Halo") undefined (str "4.99")
           [text_pair "1" "free"; tagged_deal "abc";
            JObj [("storeID", JStr "2")]; JStr "none"]);
    reflexivity.
Defined.

End FetchChecks.
